(** * FiableAuto backend: the mission store and its request handlers

    A shallow embedding of the request handlers of the FiableAuto backend
    (the basic server [server.js] and its enhanced version) together with
    the meaning of the SQL statements they send to PostgreSQL.

    - A text is a [string], the sequence of the bytes of its UTF-8
      encoding, as the driver sends it to a database in UTF-8.  [LIKE]
      compares bytes and lets [_] and [%] advance by characters; [ILIKE]
      puts the pattern and the text in lower case first, by the [lower()]
      of the database, which depends on its locale and is a parameter.
    - A table is the list of its rows.  The constraints declared by
      [initDatabase] which relate rows to each other ([UNIQUE],
      [NOT NULL], [REFERENCES], serial keys) are computed by the model.
    - Every [pool.query] call of a handler takes a boolean saying whether
      the store carried the statement out; [false] makes the call throw.
      A second layer computes that answer from the parameters for a store
      which can be reached: an [INTEGER] has 32 bits, a text holds no
      zero byte, a [VARCHAR(n)] column takes [n] characters, and a
      [JSONB] column keeps an object with its keys in its own order.
    - A path parameter compared with the integer column [id] is the
      integer it writes; a parameter which writes none is a value the
      store refuses.
    - A number of a request body is an integer; it is sent with all its
      digits, as JavaScript writes the integers it holds exactly.
    - Clock readings ([new Date()], [Date.now()], [CURRENT_TIMESTAMP]) and
      the draw of [Math.random()] are inputs of the handlers. *)

From Stdlib Require Import ZArith NArith List String Ascii Bool Lia Arith.
From Stdlib Require Import Permutation Sorted OrderedTypeEx QArith.
Import ListNotations.

Close Scope Q_scope.
Open Scope string_scope.

(** ** JavaScript and SQL string primitives *)

Module Js.

(** *** Decimal rendering of integers: [Number.prototype.toString]

    JavaScript writes an integer below 10^21 with all its digits; the
    numbers rendered here (sequence numbers, [Date.now()], row keys) are
    far below. *)

Definition digit_char (d : N) : ascii :=
  ascii_of_N (48 + d).

Fixpoint dec_digits (fuel : nat) (n : N) (acc : string) : string :=
  let acc' := String (digit_char (n mod 10)) acc in
  match fuel with
  | O => acc'
  | S f => if (n / 10 =? 0)%N then acc' else dec_digits f (n / 10) acc'
  end.

Definition N_toString (n : N) : string :=
  dec_digits (N.to_nat (N.size n)) n "".

Definition Z_toString (z : Z) : string :=
  match z with
  | Zneg p => String "-" (N_toString (Npos p))
  | _ => N_toString (Z.to_N z)
  end.

(** *** [String.prototype.padStart], [slice], [split], [replace] *)

Fixpoint repeat_char (c : ascii) (n : nat) : string :=
  match n with
  | O => ""
  | S k => String c (repeat_char c k)
  end.

(** [s.padStart(n, c)] for a one-character filler. *)
Definition padStart (n : nat) (c : ascii) (s : string) : string :=
  repeat_char c (n - String.length s) ++ s.

(** [s.slice(0, n)]. *)
Fixpoint slice0 (n : nat) (s : string) : string :=
  match n, s with
  | S k, String c r => String c (slice0 k r)
  | _, _ => ""
  end.

(** [s.replace(/c/g, '')]. *)
Fixpoint remove_char (c : ascii) (s : string) : string :=
  match s with
  | "" => ""
  | String d r =>
      if Ascii.eqb c d then remove_char c r else String d (remove_char c r)
  end.

(** [s.split(c)]: the pieces of [s] between the occurrences of [c];
    never the empty list. *)
Fixpoint split (c : ascii) (s : string) : list string :=
  match s with
  | "" => [""]
  | String d r =>
      if Ascii.eqb c d then "" :: split c r
      else match split c r with
           | [] => [String d ""]
           | p :: ps => String d p :: ps
           end
  end.

(** *** [parseInt] with no radix argument *)

(** The result of a numeric operation that may be [NaN].  Integers are
    exact: a code fits [VARCHAR(20)], which keeps its sequence far below
    2^53. *)
Inductive number : Type :=
| NaN
| Int (z : Z).

Definition is_digit (c : ascii) : bool :=
  let n := N_of_ascii c in ((48 <=? n) && (n <=? 57))%N.

Definition is_space (c : ascii) : bool :=
  let n := N_of_ascii c in ((n =? 32) || ((9 <=? n) && (n <=? 13)))%N.

(** Value of a digit in the given radix, if it is one. *)
Definition digit_value (radix : N) (c : ascii) : option N :=
  let n := N_of_ascii c in
  let v :=
    if ((48 <=? n) && (n <=? 57))%N then Some (n - 48)%N
    else if ((97 <=? n) && (n <=? 122))%N then Some (n - 87)%N
    else if ((65 <=? n) && (n <=? 90))%N then Some (n - 55)%N
    else None in
  match v with
  | Some d => if (d <? radix)%N then Some d else None
  | None => None
  end.

Fixpoint skip_spaces (s : string) : string :=
  match s with
  | String c r => if is_space c then skip_spaces r else s
  | "" => ""
  end.

(** Longest prefix of digits, read left to right; [None] when the
    prefix is empty. *)
Fixpoint read_digits (radix : N) (acc : option N) (s : string) : option N :=
  match s with
  | "" => acc
  | String c r =>
      match digit_value radix c with
      | Some d =>
          read_digits radix
            (Some (match acc with Some a => a * radix + d | None => d end)%N) r
      | None => acc
      end
  end.

(** A leading sign: whether it is a minus, and what follows it. *)
Definition strip_sign (s : string) : bool * string :=
  match s with
  | String c r =>
      if Ascii.eqb c "-" then (true, r)
      else if Ascii.eqb c "+" then (false, r)
      else (false, s)
  | "" => (false, s)
  end.

(** A leading [0x] or [0X] makes the radix 16. *)
Definition strip_hex_prefix (s : string) : N * string :=
  match s with
  | String c (String x r) =>
      if Ascii.eqb c "0" && (Ascii.eqb x "x" || Ascii.eqb x "X")
      then (16%N, r) else (10%N, s)
  | _ => (10%N, s)
  end.

Definition parseInt (s : string) : number :=
  let '(neg, s2) := strip_sign (skip_spaces s) in
  let '(radix, s3) := strip_hex_prefix s2 in
  match read_digits radix None s3 with
  | None => NaN
  | Some n => Int (if neg then - Z.of_N n else Z.of_N n)
  end.

(** [parseInt(undefined)] reads the text "undefined". *)
Definition parseInt_opt (s : option string) : number :=
  match s with
  | Some t => parseInt t
  | None => NaN
  end.

Definition number_succ (x : number) : number :=
  match x with
  | NaN => NaN
  | Int z => Int (z + 1)
  end.

Definition number_toString (x : number) : string :=
  match x with
  | NaN => "NaN"
  | Int z => Z_toString z
  end.

(** *** ASCII case folding *)

Definition lower_char (c : ascii) : ascii :=
  let n := N_of_ascii c in
  if ((65 <=? n) && (n <=? 90))%N then ascii_of_N (n + 32) else c.

Fixpoint lower (s : string) : string :=
  match s with
  | "" => ""
  | String c r => String (lower_char c) (lower r)
  end.

(** *** [encodeURIComponent], byte by byte *)

Definition hex_char (d : N) : ascii :=
  if (d <? 10)%N then ascii_of_N (48 + d) else ascii_of_N (55 + d).

Definition uri_unreserved (c : ascii) : bool :=
  let n := N_of_ascii c in
  (((48 <=? n) && (n <=? 57)) || ((65 <=? n) && (n <=? 90))
   || ((97 <=? n) && (n <=? 122)))%N
  || existsb (Ascii.eqb c) ["-"; "_"; "."; "!"; "~"; "*"; "'"; "("; ")"]%char.

Fixpoint encodeURIComponent (s : string) : string :=
  match s with
  | "" => ""
  | String c r =>
      if uri_unreserved c then String c (encodeURIComponent r)
      else
        let n := N_of_ascii c in
        String "%" (String (hex_char (n / 16)) (String (hex_char (n mod 16))
          (encodeURIComponent r)))
  end.

End Js.

(** ** SQL pattern matching and ordering *)

Module Sql.

(** A [LIKE] pattern: [%] stands for any run of characters, [_] for any
    one character, and a backslash makes the character after it stand
    for itself.  PostgreSQL refuses a pattern that ends in a lone
    backslash once matching reaches it; every pattern the handlers
    build ends in a [%] they appended, so this reading, which takes such
    a backslash for itself, is never asked about one. *)
Inductive like_token : Type :=
| AnyRun
| AnyOne
| Exactly (c : ascii).

Fixpoint like_tokens (p : string) : list like_token :=
  match p with
  | "" => []
  | String c r =>
      if Ascii.eqb c "\" then
        match r with
        | "" => [Exactly c]
        | String d r' => Exactly d :: like_tokens r'
        end
      else if Ascii.eqb c "%" then AnyRun :: like_tokens r
      else if Ascii.eqb c "_" then AnyOne :: like_tokens r
      else Exactly c :: like_tokens r
  end.

(** The text is UTF-8.  A byte [10xxxxxx] continues the character begun
    before it; a character is a byte which continues none, with the
    bytes which continue it. *)
Definition continues (c : ascii) : bool :=
  let n := N_of_ascii c in ((128 <=? n) && (n <? 192))%N.

(** Whether a character begins here (or the text ends). *)
Definition at_char (s : string) : bool :=
  match s with
  | "" => true
  | String c _ => negb (continues c)
  end.

(** [s] from the next beginning of a character on. *)
Fixpoint next_char (s : string) : string :=
  match s with
  | "" => ""
  | String c r => if continues c then next_char r else s
  end.

(** [rest] holds of [u] from some beginning of a character on; [here]
    tells whether one begins at the head of [u]. *)
Fixpoint any_run (rest : string -> bool) (here : bool) (u : string) : bool :=
  (here && rest u)
  || match u with
     | String _ u' => any_run rest (at_char u') u'
     | "" => false
     end.

(** The matcher compares literal bytes one by one; [_] takes one
    character, and [%] lets the rest of the pattern begin where the text
    stands or at any later character. *)
Fixpoint like_match (ts : list like_token) (s : string) : bool :=
  match ts with
  | [] => match s with "" => true | _ => false end
  | Exactly c :: ts' =>
      match s with
      | String d s' => Ascii.eqb c d && like_match ts' s'
      | "" => false
      end
  | AnyOne :: ts' =>
      match s with
      | String _ s' => like_match ts' (next_char s')
      | "" => false
      end
  | AnyRun :: ts' => any_run (like_match ts') true s
  end.

(** [s LIKE p] *)
Definition like (p s : string) : bool :=
  like_match (like_tokens p) s.

(** [s ILIKE p]: the pattern and the text are both put in lower case by
    the [lower()] of the database, whose rules are those of its locale,
    and then matched. *)
Definition ilike (pg_lower : string -> string) (p s : string) : bool :=
  like_match (like_tokens (pg_lower p)) (pg_lower s).

(** [ORDER BY x DESC LIMIT 1] over strings: the greatest one, in the
    byte order of [String.leb].  The strings ordered here are codes with
    one beginning, which differ in their digits only; on these a
    collation which orders digits by value agrees with the byte order. *)
Fixpoint greatest (l : list string) : option string :=
  match l with
  | [] => None
  | x :: r =>
      match greatest r with
      | None => Some x
      | Some y => Some (if String.leb x y then y else x)
      end
  end.

(** [ORDER BY]: insertion sort under a boolean [le]. *)
Section OrderBy.
Context {A : Type} (le : A -> A -> bool).

Fixpoint insert_sorted (x : A) (l : list A) : list A :=
  match l with
  | [] => [x]
  | y :: r => if le x y then x :: l else y :: insert_sorted x r
  end.

Fixpoint order_by (l : list A) : list A :=
  match l with
  | [] => []
  | x :: r => insert_sorted x (order_by r)
  end.
End OrderBy.

(** [INSERT ... ON CONFLICT (key) DO UPDATE SET ... RETURNING *] on a
    table: [hit] tells the rows which hold the key of the new row; they
    are changed by [set] when there are any, and [row] is added after
    the others when there is none.  The second component is the row
    returned. *)
Definition upsert {A : Type} (hit : A -> bool) (set : A -> A) (row : A)
    (l : list A) : list A * A :=
  match find hit l with
  | Some old => (map (fun x => if hit x then set x else x) l, set old)
  | None => ((l ++ [row])%list, row)
  end.

(** [COUNT FILTER (WHERE p)]: how many rows satisfy [p]. *)
Definition count_where {A : Type} (p : A -> bool) (l : list A) : nat :=
  List.length (filter p l).

(** [GROUP BY k] with a row count: one row per distinct key, in the order
    of first appearance. *)
Section GroupBy.
Context {K : Type} (eqb : K -> K -> bool).

Fixpoint distinct (l : list K) : list K :=
  match l with
  | [] => []
  | k :: r => k :: filter (fun k' => negb (eqb k k')) (distinct r)
  end.

Definition group_count (l : list K) : list (K * nat) :=
  map (fun k => (k, count_where (eqb k) l)) (distinct l).
End GroupBy.

End Sql.

(** ** Values of a JSON request body *)

Module Body.

(** The scalar values a body field can take; [Undefined] is a field that
    is not there. *)
Inductive value : Type :=
| Undefined
| Null
| Bool (b : bool)
| Num (z : Z)
| Str (s : string).

(** [!!v] *)
Definition truthy (v : value) : bool :=
  match v with
  | Undefined | Null => false
  | Bool b => b
  | Num z => negb (z =? 0)%Z
  | Str s => negb (s =? "")
  end.

(** [a || b] *)
Definition or_else (a b : value) : value :=
  if truthy a then a else b.

(** The text [pg] sends for a statement parameter: SQL [NULL] for
    [null] and [undefined]. *)
Definition prepareValue (v : value) : option string :=
  match v with
  | Undefined | Null => None
  | Bool b => Some (if b then "true" else "false")
  | Num z => Some (Js.Z_toString z)
  | Str s => Some s
  end.

(** [list.includes(v)] for a list of string literals. *)
Definition includes (l : list string) (v : value) : bool :=
  match v with
  | Str s => existsb (String.eqb s) l
  | _ => false
  end.

(** A checklist, as any JSON value.  An object lists its fields in the
    order in which a JSON text of it writes them. *)
#[warnings="-register-all"]
Inductive json : Type :=
| JNull
| JBool (b : bool)
| JNum (z : Z)
| JStr (s : string)
| JArr (items : list json)
| JObj (fields : list (string * json)).

(** A key which is an array index: a decimal writing, without a leading
    zero, of an integer below 2^32 - 1. *)
Fixpoint index_value (acc : N) (s : string) : option N :=
  match s with
  | "" => Some acc
  | String c r =>
      if Js.is_digit c then index_value (acc * 10 + (N_of_ascii c - 48)) r
      else None
  end.

Definition array_index (k : string) : option N :=
  match k with
  | "" => None
  | String c r =>
      if Ascii.eqb c "0" && negb (r =? "") then None
      else if (10 <? String.length k)%nat then None
      else match index_value 0 k with
           | Some n => if (n <? 4294967295)%N then Some n else None
           | None => None
           end
  end.

(** Setting a property of an object: a key it has keeps its place and
    takes the value, another key comes last. *)
Fixpoint set_property (k : string) (v : json) (l : list (string * json))
    : list (string * json) :=
  match l with
  | [] => [(k, v)]
  | (k', v') :: r =>
      if k =? k' then (k, v) :: r else (k', v') :: set_property k v r
  end.

Fixpoint insert_index (n : N) (kv : string * json)
    (l : list (N * (string * json))) : list (N * (string * json)) :=
  match l with
  | [] => [(n, kv)]
  | (n', kv') :: r =>
      if (n <=? n')%N then (n, kv) :: l else (n', kv') :: insert_index n kv r
  end.

Fixpoint indices (l : list (string * json)) : list (N * (string * json)) :=
  match l with
  | [] => []
  | kv :: r =>
      match array_index (fst kv) with
      | Some n => insert_index n kv (indices r)
      | None => indices r
      end
  end.

(** The own keys of an object as JavaScript lists them: the array
    indices by rising value, then the other keys in the order in which
    they were set. *)
Definition own_keys (l : list (string * json)) : list (string * json) :=
  (map snd (indices l)
   ++ filter (fun kv => match array_index (fst kv) with
                        | Some _ => false
                        | None => true
                        end) l)%list.

(** [JSON.parse] of a text of the value, as the driver does with a JSON
    column it reads: the value again, each object with its keys as
    JavaScript lists them. *)
Fixpoint parsed (j : json) : json :=
  match j with
  | JArr items => JArr (map parsed items)
  | JObj fields =>
      JObj (own_keys
              (fold_left (fun acc kv => set_property (fst kv) (parsed (snd kv)) acc)
                         fields []))
  | _ => j
  end.

End Body.

(** ** What PostgreSQL makes of a value it is sent *)

Module Pg.

(** An [INTEGER] has 32 bits. *)
Definition int4 (z : Z) : bool :=
  ((-2147483648 <=? z) && (z <=? 2147483647))%Z.

(** A text holds no zero byte: a parameter which has one is refused. *)
Fixpoint text (s : string) : bool :=
  match s with
  | "" => true
  | String c r => negb (Ascii.eqb c Ascii.zero) && text r
  end.

Definition text_param (x : option string) : bool :=
  match x with
  | Some s => text s
  | None => true
  end.


(** The first [n] characters of a text, and what follows them. *)
Fixpoint clip (n : nat) (s : string) {struct s} : string * string :=
  match s with
  | "" => ("", "")
  | String c r =>
      if Sql.continues c then
        let '(a, b) := clip n r in (String c a, b)
      else
        match n with
        | O => ("", s)
        | S k => let '(a, b) := clip k r in (String c a, b)
        end
  end.

Fixpoint spaces (s : string) : bool :=
  match s with
  | "" => true
  | String c r => Ascii.eqb c " " && spaces r
  end.

(** A text stored in a [VARCHAR(n)] column: the text itself when it has
    [n] characters at most; its first [n] characters when those which
    follow are all spaces; refused otherwise. *)
Definition varchar (n : nat) (s : string) : option string :=
  let '(a, b) := clip n s in
  if spaces b then Some a else None.

(** The order in which a [JSONB] object keeps its keys: the shorter
    first, and those of one length byte by byte. *)
Definition key_before (a b : string) : bool :=
  (String.length a <? String.length b)%nat
  || ((String.length a =? String.length b)%nat && String.leb a b).

(** A field put into a [JSONB] object: a key it has takes the value, a
    new key takes its place in the order. *)
Fixpoint put (k : string) (v : Body.json) (l : list (string * Body.json))
    : list (string * Body.json) :=
  match l with
  | [] => [(k, v)]
  | (k', v') :: r =>
      if k =? k' then (k, v) :: r
      else if key_before k k' then (k, v) :: l
      else (k', v') :: put k v r
  end.

(** A JSON value as a [JSONB] column keeps it and gives it back: each
    object with one value per key, the last one written, and its keys in
    the order of the column. *)
Fixpoint jsonb (j : Body.json) : Body.json :=
  match j with
  | Body.JArr items => Body.JArr (map jsonb items)
  | Body.JObj fields =>
      Body.JObj
        (fold_left (fun acc kv => put (fst kv) (jsonb (snd kv)) acc) fields [])
  | _ => j
  end.



End Pg.

Import Js.

(** ** The tables of [initDatabase] *)

(** A [TIMESTAMP], in microseconds. *)
Definition Timestamp : Type := Z.

(** A nullable column holding the text [pg] sent for it. *)
Definition sqltext : Type := option string.

(** The two servers: [server.js], and the enhanced one. *)
Inductive Variant : Type :=
| Basic
| Enhanced.

Module Mission.
(** A row of [missions].  The four columns [fuel_level],
    [interior_condition], [exterior_condition] and [mission_type] exist
    in the enhanced schema only and stay [None] in the basic one. *)
Record t : Type := mk {
  id : Z;
  mission_code : string;
  vehicle_brand : string;
  vehicle_model : string;
  vehicle_year : sqltext;
  license_plate : sqltext;
  vin : sqltext;
  mileage : sqltext;
  fuel_level : sqltext;
  interior_condition : sqltext;
  exterior_condition : sqltext;
  mission_type : sqltext;
  pickup_location : string;
  delivery_location : string;
  pickup_date : sqltext;
  delivery_date : sqltext;
  urgency : sqltext;
  client_name : string;
  client_email : string;
  client_phone : sqltext;
  client_company : sqltext;
  provider_name : sqltext;
  provider_email : sqltext;
  provider_phone : sqltext;
  status : string;
  created_at : Timestamp;
  updated_at : Timestamp;
  started_at : option Timestamp;
  completed_at : option Timestamp;
  observations : sqltext;
  internal_notes : sqltext;
  client_signature : sqltext;
  signature_timestamp : option Timestamp;
  created_by : option Z;
  assigned_to : option Z
}.
End Mission.

Module Photo.
(** A row of [mission_photos]. *)
Record t : Type := mk {
  id : Z;
  mission_id : Z;
  photo_type : string;
  filename : string;
  original_name : sqltext;
  file_size : option Z;
  mime_type : sqltext;
  storage_url : string;
  uploaded_at : Timestamp;
  gps_latitude : sqltext;
  gps_longitude : sqltext;
  device_info : sqltext
}.
End Photo.

Module Inspection.
(** A row of [inspections] (enhanced schema). *)
Record t : Type := mk {
  id : Z;
  mission_id : Z;
  observations : sqltext;
  signature : sqltext;
  checklist : option Body.json;
  key_count : sqltext;
  optional_photos_count : sqltext;
  created_at : Timestamp;
  updated_at : Timestamp
}.
End Inspection.

(** The database: the three tables and the last value drawn from each
    [SERIAL] sequence. *)
Record Store : Type := mkStore {
  missions : list Mission.t;
  missions_id_seq : Z;
  mission_photos : list Photo.t;
  mission_photos_id_seq : Z;
  inspections : list Inspection.t;
  inspections_id_seq : Z
}.

Definition empty_store : Store :=
  mkStore [] 0 [] 0 [] 0.

Definition with_missions (s : Store) (l : list Mission.t) (seq : Z) : Store :=
  mkStore l seq (mission_photos s) (mission_photos_id_seq s)
          (inspections s) (inspections_id_seq s).

Definition with_photos (s : Store) (l : list Photo.t) (seq : Z) : Store :=
  mkStore (missions s) (missions_id_seq s) l seq
          (inspections s) (inspections_id_seq s).

Definition with_inspections (s : Store) (l : list Inspection.t) (seq : Z) : Store :=
  mkStore (missions s) (missions_id_seq s)
          (mission_photos s) (mission_photos_id_seq s) l seq.

Definition mission_codes (s : Store) : list string :=
  map Mission.mission_code (missions s).

Definition mission_exists (s : Store) (id : Z) : bool :=
  existsb (fun m => (Mission.id m =? id)%Z) (missions s).

(** ** Responses *)

Record PhotoSummary : Type := mkSummary {
  ps_id : Z;
  ps_type : string;
  ps_url : string;
  ps_filename : string;
  ps_uploaded_at : Timestamp
}.

(** The row returned by the single-mission query: the mission's columns,
    the three inspection columns (selected by the enhanced server only)
    and the photo summaries. *)
Record MissionView : Type := mkView {
  view_mission : Mission.t;
  view_inspection : option (option Body.json * sqltext * sqltext);
  view_photos : list PhotoSummary
}.

Record BasicStats : Type := mkStats {
  total : nat;
  pending : nat;
  in_progress : nat;
  completed : nat;
  cancelled : nat
}.

Inductive Data : Type :=
| MissionRow (m : Mission.t)
| MissionRows (l : list Mission.t)
| MissionAggregate (v : MissionView)
| InspectionRow (i : Inspection.t)
| PhotoRow (p : Photo.t) (url : string)
| StatsRow (b : BasicStats)
| AdvancedStats (basic : BasicStats) (monthly : list (Timestamp * nat))
    (topVehicles : list (string * nat)) (avgProcessingHours : Q).

Record Response : Type := mkResponse {
  http_status : nat;
  success : bool;
  data : option Data;
  message : option string
}.

(** [res.json({success: true, data})] *)
Definition ok (d : Data) (msg : option string) : Response :=
  mkResponse 200 true (Some d) msg.

(** [res.status(c).json({success: false, message})] *)
Definition failure (c : nat) (msg : string) : Response :=
  mkResponse c false None (Some msg).

(** The error classes of the specification, by their HTTP status. *)
Definition ValidationError (r : Response) : Prop :=
  http_status r = 400 /\ success r = false.

Definition NotFoundError (r : Response) : Prop :=
  http_status r = 404 /\ success r = false.

(** ** Mission code generator *)

(** The UTC calendar date read by [new Date()]. *)
Record Date : Type := mkDate {
  year : Z;
  month : N;
  day : N
}.

Definition valid_date (d : Date) : Prop :=
  (0 <= year d <= 9999)%Z /\ (1 <= month d <= 12)%N /\ (1 <= day d <= 31)%N.

(** [now.toISOString()] up to its [T]; the time of day follows and lies
    beyond the ten characters [generateMissionCode] keeps.  Years outside
    0..9999 are written with a sign and six digits. *)
Definition toISOString (d : Date) : string :=
  (if ((0 <=? year d) && (year d <=? 9999))%Z
   then padStart 4 "0" (Z_toString (year d))
   else String (if (year d <? 0)%Z then "-" else "+")%char
               (padStart 6 "0" (N_toString (Z.abs_N (year d)))))
  ++ "-" ++ padStart 2 "0" (N_toString (month d))
  ++ "-" ++ padStart 2 "0" (N_toString (day d)) ++ "T".

(** [now.toISOString().slice(0, 10).replace(/-/g, '')] *)
Definition date_stamp (now : Date) : string :=
  remove_char "-" (slice0 10 (toISOString now)).

(** [SELECT mission_code FROM missions WHERE mission_code LIKE $1
     ORDER BY mission_code DESC LIMIT 1] *)
Definition last_code (s : Store) (pattern : string) : option string :=
  Sql.greatest (filter (Sql.like pattern) (mission_codes s)).

(** [generateMissionCode]: [lookup_ok] tells whether the query went
    through, [rnd] is the value of [Math.floor(Math.random() * 1000)]. *)
Definition generateMissionCode (s : Store) (now : Date) (lookup_ok : bool)
    (rnd : N) : string :=
  let date := date_stamp now in
  if lookup_ok then
    let sequence :=
      match last_code s ("FA-" ++ date ++ "-%") with
      | Some lastCode =>
          let lastSequence := parseInt_opt (nth_error (split "-" lastCode) 2) in
          number_succ lastSequence
      | None => Int 1
      end in
    "FA-" ++ date ++ "-" ++ padStart 3 "0" (number_toString sequence)
  else
    "FA-" ++ date ++ "-" ++ padStart 3 "0" (N_toString rnd).

(** ** [GET /api/stats] *)

Definition has_status (st : string) (m : Mission.t) : bool :=
  Mission.status m =? st.

Definition count_by_status (s : Store) : BasicStats :=
  mkStats (List.length (missions s))
          (Sql.count_where (has_status "pending") (missions s))
          (Sql.count_where (has_status "in_progress") (missions s))
          (Sql.count_where (has_status "completed") (missions s))
          (Sql.count_where (has_status "cancelled") (missions s)).

Definition basicStats (s : Store) (query_ok : bool) : Response :=
  if query_ok then ok (StatsRow (count_by_status s)) None
  else ok (StatsRow (mkStats 0 0 0 0 0)) None.

(** ** [GET /api/missions] *)

Definition newest_first (a b : Mission.t) : bool :=
  (Mission.created_at b <=? Mission.created_at a)%Z.

Definition list_missions (s : Store) (query_ok : bool) : Response :=
  if query_ok then ok (MissionRows (Sql.order_by newest_first (missions s))) None
  else failure 500 "Erreur lors de la récupération des missions".

(** ** [POST /api/missions] *)

Module CreateBody.
Import Body.
Record t : Type := mk {
  vehicleBrand : value;
  vehicleModel : value;
  vehicleYear : value;
  licensePlate : value;
  vin : value;
  mileage : value;
  fuelLevel : value;
  interiorCondition : value;
  exteriorCondition : value;
  missionType : value;
  pickupLocation : value;
  deliveryLocation : value;
  pickupDate : value;
  deliveryDate : value;
  urgency : value;
  clientName : value;
  clientEmail : value;
  clientPhone : value;
  clientCompany : value;
  providerName : value;
  providerEmail : value;
  providerPhone : value;
  observations : value;
  internalNotes : value
}.
End CreateBody.

(** The six fields the validation of [POST /api/missions] looks at. *)
Definition required_fields (b : CreateBody.t) : list Body.value :=
  [CreateBody.vehicleBrand b; CreateBody.vehicleModel b;
   CreateBody.pickupLocation b; CreateBody.deliveryLocation b;
   CreateBody.clientName b; CreateBody.clientEmail b].

(** Columns the enhanced [INSERT] lists and the basic one does not. *)
Definition enhanced_only (v : Variant) (x : sqltext) : sqltext :=
  match v with
  | Basic => None
  | Enhanced => x
  end.

(** [INSERT INTO missions (...) VALUES (...) RETURNING *].  The row is
    refused when one of the [NOT NULL] columns would be [NULL] or when
    [mission_code] is already taken ([UNIQUE]); the sequence value drawn
    for [id] is spent all the same. *)
Definition insert_mission (v : Variant) (s : Store) (now : Timestamp)
    (missionCode : string) (b : CreateBody.t) : Store * option Mission.t :=
  let next := (missions_id_seq s + 1)%Z in
  let pv := Body.prepareValue in
  match pv (CreateBody.vehicleBrand b), pv (CreateBody.vehicleModel b),
        pv (CreateBody.pickupLocation b), pv (CreateBody.deliveryLocation b),
        pv (CreateBody.clientName b), pv (CreateBody.clientEmail b) with
  | Some brand, Some model, Some pickup, Some delivery, Some name, Some email =>
      if existsb (String.eqb missionCode) (mission_codes s)
      then (with_missions s (missions s) next, None)
      else
        let row := Mission.mk
          next missionCode brand model
          (pv (CreateBody.vehicleYear b)) (pv (CreateBody.licensePlate b))
          (pv (CreateBody.vin b)) (pv (CreateBody.mileage b))
          (enhanced_only v (pv (CreateBody.fuelLevel b)))
          (enhanced_only v (pv (CreateBody.interiorCondition b)))
          (enhanced_only v (pv (CreateBody.exteriorCondition b)))
          (enhanced_only v
             (pv (Body.or_else (CreateBody.missionType b) (Body.Str "inspection"))))
          pickup delivery
          (pv (CreateBody.pickupDate b)) (pv (CreateBody.deliveryDate b))
          (pv (Body.or_else (CreateBody.urgency b) (Body.Str "normal")))
          name email
          (pv (CreateBody.clientPhone b)) (pv (CreateBody.clientCompany b))
          (pv (CreateBody.providerName b)) (pv (CreateBody.providerEmail b))
          (pv (CreateBody.providerPhone b))
          "pending" now now None None
          (pv (CreateBody.observations b)) (pv (CreateBody.internalNotes b))
          None None None None in
        (with_missions s (missions s ++ [row]) next, Some row)
  | _, _, _, _, _, _ => (with_missions s (missions s) next, None)
  end.

(** The handler.  [now_js] is [new Date()], [now] is [CURRENT_TIMESTAMP];
    [lookup_ok] and [insert_ok] tell whether each of the two statements
    went through. *)
Definition create (v : Variant) (s : Store) (now_js : Date) (now : Timestamp)
    (rnd : N) (lookup_ok insert_ok : bool) (b : CreateBody.t)
    : Store * Response :=
  if existsb (fun x => negb (Body.truthy x)) (required_fields b) then
    (s, failure 400 "Champs requis manquants")
  else
    let missionCode := generateMissionCode s now_js lookup_ok rnd in
    if insert_ok then
      match insert_mission v s now missionCode b with
      | (s', Some row) =>
          (s', mkResponse 201 true (Some (MissionRow row))
                          (Some "Mission créée avec succès"))
      | (s', None) =>
          (s', failure 500 "Erreur lors de la création de la mission")
      end
    else (s, failure 500 "Erreur lors de la création de la mission").

(** ** [POST /api/missions/:id/inspection] (enhanced server) *)

Module InspectionBody.
Import Body.
Record t : Type := mk {
  observations : value;
  signature : value;
  checklist : option json;
  keyCount : value;
  optionalPhotos : value
}.
End InspectionBody.

(** The [DO UPDATE SET] clause of the inspection upsert: the five payload
    columns and [updated_at].  The checklist is sent as the text
    [JSON.stringify] writes and kept as the [JSONB] column keeps it.  The
    column keeps of a text one value per key, the last one, in its own
    order, wherever the text lists the keys: so what it keeps of the text
    written for the parsed body is what it keeps of the body. *)
Definition overwrite_inspection (now : Timestamp) (b : InspectionBody.t)
    (i : Inspection.t) : Inspection.t :=
  Inspection.mk (Inspection.id i) (Inspection.mission_id i)
    (Body.prepareValue (InspectionBody.observations b))
    (Body.prepareValue (InspectionBody.signature b))
    (option_map Pg.jsonb (InspectionBody.checklist b))
    (Body.prepareValue (InspectionBody.keyCount b))
    (Body.prepareValue (InspectionBody.optionalPhotos b))
    (Inspection.created_at i) now.

Definition inspection_of (s : Store) (id : Z) : option Inspection.t :=
  find (fun i => (Inspection.mission_id i =? id)%Z) (inspections s).

(** A row of [inspections] as the driver hands it to the handler: the
    checklist is parsed from the text the column gives. *)
Definition read_inspection (i : Inspection.t) : Inspection.t :=
  Inspection.mk (Inspection.id i) (Inspection.mission_id i)
    (Inspection.observations i) (Inspection.signature i)
    (option_map Body.parsed (Inspection.checklist i))
    (Inspection.key_count i) (Inspection.optional_photos_count i)
    (Inspection.created_at i) (Inspection.updated_at i).

(** [INSERT INTO inspections ... ON CONFLICT (mission_id) DO UPDATE SET ...
    RETURNING *].  The checklist stays [NULL] for [undefined].  The row
    is refused when [mission_id] names no mission ([REFERENCES
    missions(id)]); the sequence value drawn for [id] is spent all the
    same. *)
Definition upsert_inspection (s : Store) (now : Timestamp) (id : Z)
    (b : InspectionBody.t) : Store * option Inspection.t :=
  let next := (inspections_id_seq s + 1)%Z in
  if negb (mission_exists s id) then
    (with_inspections s (inspections s) next, None)
  else
    let fresh := Inspection.mk next id None None None None None now now in
    let '(rows, row) :=
      Sql.upsert (fun i => (Inspection.mission_id i =? id)%Z)
                 (overwrite_inspection now b)
                 (overwrite_inspection now b fresh)
                 (inspections s) in
    (with_inspections s rows next, Some row).

(** The columns an [UPDATE missions] of the handlers may set; the row
    keeps every other column. *)
Definition set_columns (m : Mission.t) (status : string)
    (updated_at : Timestamp) (started_at completed_at : option Timestamp)
    (observations client_signature : sqltext)
    (signature_timestamp : option Timestamp) : Mission.t :=
  Mission.mk
    (Mission.id m) (Mission.mission_code m)
    (Mission.vehicle_brand m) (Mission.vehicle_model m)
    (Mission.vehicle_year m) (Mission.license_plate m) (Mission.vin m)
    (Mission.mileage m) (Mission.fuel_level m)
    (Mission.interior_condition m) (Mission.exterior_condition m)
    (Mission.mission_type m)
    (Mission.pickup_location m) (Mission.delivery_location m)
    (Mission.pickup_date m) (Mission.delivery_date m) (Mission.urgency m)
    (Mission.client_name m) (Mission.client_email m)
    (Mission.client_phone m) (Mission.client_company m)
    (Mission.provider_name m) (Mission.provider_email m)
    (Mission.provider_phone m)
    status (Mission.created_at m) updated_at started_at completed_at
    observations (Mission.internal_notes m) client_signature
    signature_timestamp (Mission.created_by m) (Mission.assigned_to m).

(** [updated_at = CURRENT_TIMESTAMP], which the [UPDATE] statements of the
    enhanced server carry and those of the basic server do not. *)
Definition touch (v : Variant) (now : Timestamp) (m : Mission.t) : Timestamp :=
  match v with
  | Basic => Mission.updated_at m
  | Enhanced => now
  end.

(** [UPDATE missions SET observations = $2, client_signature = $3,
    updated_at = CURRENT_TIMESTAMP WHERE id = $1] on one row. *)
Definition sync_mission (now : Timestamp) (obs sig : sqltext)
    (m : Mission.t) : Mission.t :=
  set_columns m (Mission.status m) now
    (Mission.started_at m) (Mission.completed_at m)
    obs sig (Mission.signature_timestamp m).

(** [UPDATE missions SET ... WHERE id = $1]: the rows named by [id]
    changed by [f], the others kept. *)
Definition update_missions (id : Z) (f : Mission.t -> Mission.t)
    (l : list Mission.t) : list Mission.t :=
  map (fun m => if (Mission.id m =? id)%Z then f m else m) l.

(** [RETURNING *] of that statement. *)
Definition updated_rows (id : Z) (f : Mission.t -> Mission.t)
    (l : list Mission.t) : list Mission.t :=
  map f (filter (fun m => (Mission.id m =? id)%Z) l).

Definition saveInspection (s : Store) (now : Timestamp)
    (upsert_ok update_ok : bool) (id : Z) (b : InspectionBody.t)
    : Store * Response :=
  let err := failure 500 "Erreur lors de la sauvegarde de l'inspection" in
  if upsert_ok then
    match upsert_inspection s now id b with
    | (s1, Some row) =>
        if update_ok then
          let obs := Body.prepareValue (InspectionBody.observations b) in
          let sig := Body.prepareValue (InspectionBody.signature b) in
          (with_missions s1
             (update_missions id (sync_mission now obs sig) (missions s1))
             (missions_id_seq s1),
           ok (InspectionRow (read_inspection row))
              (Some "Inspection sauvegardée avec succès"))
        else (s1, err)
    | (s1, None) => (s1, err)
    end
  else (s, err).

(** ** [GET /api/missions/:code] *)

Definition summary (p : Photo.t) : PhotoSummary :=
  mkSummary (Photo.id p) (Photo.photo_type p) (Photo.storage_url p)
            (Photo.filename p) (Photo.uploaded_at p).

Definition oldest_upload_first (a b : Photo.t) : bool :=
  (Photo.uploaded_at a <=? Photo.uploaded_at b)%Z.

(** [json_agg(x ORDER BY ...)] is [NULL] over no rows. *)
Definition json_agg {A : Type} (l : list A) : option (list A) :=
  match l with
  | [] => None
  | _ => Some l
  end.

(** [COALESCE(x, d)] *)
Definition coalesce {A : Type} (x : option A) (d : A) : A :=
  match x with
  | Some a => a
  | None => d
  end.

Definition photos_of (s : Store) (m : Mission.t) : list Photo.t :=
  filter (fun p => (Photo.mission_id p =? Mission.id m)%Z) (mission_photos s).

(** The [photos] column: the summaries of the joined photo rows, by upload
    time, or the empty array. *)
Definition photos_column (s : Store) (m : Mission.t) : list PhotoSummary :=
  coalesce
    (json_agg (map summary (Sql.order_by oldest_upload_first (photos_of s m))))
    [].

(** The columns [i.checklist, i.key_count, i.optional_photos_count] of the
    [LEFT JOIN]: all [NULL] when the mission has no inspection; the
    checklist as the driver parses it. *)
Definition inspection_columns (s : Store) (m : Mission.t)
    : option Body.json * sqltext * sqltext :=
  match inspection_of s (Mission.id m) with
  | Some i => (option_map Body.parsed (Inspection.checklist i),
               Inspection.key_count i, Inspection.optional_photos_count i)
  | None => (None, None, None)
  end.

Definition aggregate (v : Variant) (s : Store) (m : Mission.t) : MissionView :=
  mkView m
    (match v with
     | Basic => None
     | Enhanced => Some (inspection_columns s m)
     end)
    (photos_column s m).

(** [WHERE m.mission_code = $1 OR m.id::text = $1] *)
Definition matches_token (code : string) (m : Mission.t) : bool :=
  (Mission.mission_code m =? code) || (Z_toString (Mission.id m) =? code).

Definition getMission (v : Variant) (s : Store) (query_ok : bool)
    (code : string) : Response :=
  if query_ok then
    match filter (matches_token code) (missions s) with
    | [] => failure 404 "Mission introuvable"
    | m :: _ => ok (MissionAggregate (aggregate v s m)) None
    end
  else failure 500 "Erreur lors de la récupération de la mission".

(** ** [PUT /api/missions/:id/status] *)

(** The statuses each server accepts. *)
Definition recognized (v : Variant) : list string :=
  match v with
  | Basic => ["pending"; "in_progress"; "completed"; "cancelled"]
  | Enhanced => ["pending"; "assigned"; "in_progress"; "photos_taken";
                 "completed"; "cancelled"]
  end.

(** The [SET] clause the handler assembles: [status = $2]; in the enhanced
    server [updated_at = CURRENT_TIMESTAMP]; then [started_at] or
    [completed_at] for the two statuses that carry a time. *)
Definition apply_status (v : Variant) (now : Timestamp) (st : string)
    (m : Mission.t) : Mission.t :=
  set_columns m st (touch v now m)
    (if st =? "in_progress" then Some now else Mission.started_at m)
    (if st =? "in_progress" then Mission.completed_at m
     else if st =? "completed" then Some now
     else Mission.completed_at m)
    (Mission.observations m) (Mission.client_signature m)
    (Mission.signature_timestamp m).

Definition setStatus (v : Variant) (s : Store) (now : Timestamp)
    (query_ok : bool) (id : Z) (status : Body.value) : Store * Response :=
  if negb (Body.includes (recognized v) status) then
    (s, failure 400 "Statut invalide")
  else
    match status with
    | Body.Str st =>
        if query_ok then
          match updated_rows id (apply_status v now st) (missions s) with
          | [] => (s, failure 404 "Mission introuvable")
          | row :: _ =>
              (with_missions s
                 (update_missions id (apply_status v now st) (missions s))
                 (missions_id_seq s),
               ok (MissionRow row) (Some "Statut mis à jour avec succès"))
          end
        else (s, failure 500 "Erreur lors de la mise à jour du statut")
    | _ => (s, failure 400 "Statut invalide")
    end.

(** ** [POST /api/uploads/photos/:missionId] *)

(** [req.files.photo] *)
Record UploadedFile : Type := mkFile {
  name : string;
  size : Z;
  mimetype : string
}.

Definition allowedTypes : list string :=
  ["image/jpeg"; "image/jpg"; "image/png"; "image/webp"].

Definition mockUrl (v : Variant) (photoType : option string) : string :=
  (match v with
   | Basic => "https://via.placeholder.com/400x300/3b82f6/ffffff?text="
   | Enhanced => "https://via.placeholder.com/400x300/007bff/ffffff?text="
   end)
  ++ encodeURIComponent (match photoType with
                         | Some t => t
                         | None => "undefined"
                         end).

Definition same_slot (missionId : Z) (photoType : string) (p : Photo.t) : bool :=
  (Photo.mission_id p =? missionId)%Z && (Photo.photo_type p =? photoType).

(** The [DO UPDATE SET] clause of the photo upsert. *)
Definition overwrite_photo (now : Timestamp) (filename : string)
    (f : UploadedFile) (url : string) (p : Photo.t) : Photo.t :=
  Photo.mk (Photo.id p) (Photo.mission_id p) (Photo.photo_type p)
    filename (Some (name f)) (Some (size f)) (Some (mimetype f)) url now
    (Photo.gps_latitude p) (Photo.gps_longitude p) (Photo.device_info p).

(** [INSERT INTO mission_photos ... ON CONFLICT (mission_id, photo_type)
    DO UPDATE SET ... RETURNING *].  The row is refused when [photo_type]
    is [NULL] or [mission_id] names no mission. *)
Definition upsert_photo (s : Store) (now : Timestamp) (missionId : Z)
    (photoType : option string) (filename : string) (f : UploadedFile)
    (url : string) : Store * option Photo.t :=
  let next := (mission_photos_id_seq s + 1)%Z in
  match photoType with
  | None => (with_photos s (mission_photos s) next, None)
  | Some t =>
      if negb (mission_exists s missionId) then
        (with_photos s (mission_photos s) next, None)
      else
        let fresh := Photo.mk next missionId t filename (Some (name f))
                       (Some (size f)) (Some (mimetype f)) url now
                       None None None in
        let '(rows, row) :=
          Sql.upsert (same_slot missionId t)
                     (overwrite_photo now filename f url) fresh
                     (mission_photos s) in
        (with_photos s rows next, Some row)
  end.

(** The handler.  [now_ms] is [Date.now()], [now] is [CURRENT_TIMESTAMP];
    [photo] is [req.files.photo] when there is one. *)
Definition uploadPhoto (v : Variant) (s : Store) (now_ms : Z) (now : Timestamp)
    (check_ok upsert_ok : bool) (missionId : Z) (photoType : option string)
    (photo : option UploadedFile) : Store * Response :=
  let err := failure 500 "Erreur lors du téléchargement de la photo" in
  match photo with
  | None => (s, failure 400 "Aucun fichier téléchargé")
  | Some f =>
      if negb (existsb (String.eqb (mimetype f)) allowedTypes) then
        (s, failure 400 "Type de fichier non autorisé")
      else if negb check_ok then (s, err)
      else if negb (mission_exists s missionId) then
        (s, failure 404 "Mission introuvable")
      else
        let filename := Z_toString now_ms ++ "_" ++ name f in
        let url := mockUrl v photoType in
        if upsert_ok then
          match upsert_photo s now missionId photoType filename f url with
          | (s', Some row) =>
              (s', ok (PhotoRow row url) (Some "Photo téléchargée avec succès"))
          | (s', None) => (s', err)
          end
        else (s, err)
  end.

(** ** [PUT /api/missions/:id/observations] and
       [POST /api/missions/:id/signature] *)

(** [UPDATE missions SET observations = $2 WHERE id = $1], with
    [updated_at] in the enhanced server. *)
Definition write_observations (v : Variant) (now : Timestamp) (obs : sqltext)
    (m : Mission.t) : Mission.t :=
  set_columns m (Mission.status m) (touch v now m)
    (Mission.started_at m) (Mission.completed_at m)
    obs (Mission.client_signature m) (Mission.signature_timestamp m).

Definition updateObservations (v : Variant) (s : Store) (now : Timestamp)
    (query_ok : bool) (id : Z) (observations : Body.value) : Store * Response :=
  if query_ok then
    let f := write_observations v now (Body.prepareValue observations) in
    match updated_rows id f (missions s) with
    | [] => (s, failure 404 "Mission introuvable")
    | row :: _ =>
        (with_missions s (update_missions id f (missions s)) (missions_id_seq s),
         ok (MissionRow row) (Some "Observations mises à jour avec succès"))
    end
  else (s, failure 500 "Erreur lors de la mise à jour des observations").

(** [UPDATE missions SET client_signature = $2, signature_timestamp =
    CURRENT_TIMESTAMP WHERE id = $1], with [updated_at] in the enhanced
    server. *)
Definition write_signature (v : Variant) (now : Timestamp) (sig : sqltext)
    (m : Mission.t) : Mission.t :=
  set_columns m (Mission.status m) (touch v now m)
    (Mission.started_at m) (Mission.completed_at m)
    (Mission.observations m) sig (Some now).

Definition setSignature (v : Variant) (s : Store) (now : Timestamp)
    (query_ok : bool) (id : Z) (signature : Body.value) : Store * Response :=
  if negb (Body.truthy signature) then (s, failure 400 "Signature requise")
  else if query_ok then
    let f := write_signature v now (Body.prepareValue signature) in
    match updated_rows id f (missions s) with
    | [] => (s, failure 404 "Mission introuvable")
    | row :: _ =>
        (with_missions s (update_missions id f (missions s)) (missions_id_seq s),
         ok (MissionRow row) (Some "Signature ajoutée avec succès"))
    end
  else (s, failure 500 "Erreur lors de l'ajout de la signature").

(** ** Statistics and search (enhanced server) *)

Section CalendarQueries.

(** PostgreSQL's calendar: [DATE_TRUNC('month', t)], [t - INTERVAL
    '12 months'], and the reading of a text as a timestamp ([None] when
    the text is refused); and its [lower()], which follows the locale of
    the database. *)
Variable date_trunc_month : Timestamp -> Timestamp.
Variable minus_12_months : Timestamp -> Timestamp.
Variable pg_lower : string -> string.
Variable timestamp_in : string -> option Timestamp.

(** [SELECT DATE_TRUNC('month', created_at) as month, COUNT ... WHERE
    created_at >= NOW() - INTERVAL '12 months' GROUP BY 1 ORDER BY month] *)
Definition monthly_counts (s : Store) (now : Timestamp)
    : list (Timestamp * nat) :=
  Sql.order_by (fun a b => (fst a <=? fst b)%Z)
    (Sql.group_count Z.eqb
       (map (fun m => date_trunc_month (Mission.created_at m))
            (filter (fun m => (minus_12_months now <=? Mission.created_at m)%Z)
                    (missions s)))).

Definition same_vehicle (a b : string * string) : bool :=
  (fst a =? fst b) && (snd a =? snd b).

(** [SELECT CONCAT(vehicle_brand, ' ', vehicle_model), COUNT ... GROUP BY
    vehicle_brand, vehicle_model ORDER BY count DESC LIMIT 10] *)
Definition top_vehicles (s : Store) : list (string * nat) :=
  firstn 10
    (Sql.order_by (fun a b => (snd b <=? snd a)%nat)
       (map (fun g => (fst (fst g) ++ " " ++ snd (fst g), snd g))
            (Sql.group_count same_vehicle
               (map (fun m => (Mission.vehicle_brand m, Mission.vehicle_model m))
                    (missions s))))).

(** The intervals [completed_at - created_at] of the missions whose
    [completed_at] is set. *)
Fixpoint processing_times (l : list Mission.t) : list Z :=
  match l with
  | [] => []
  | m :: r =>
      match Mission.completed_at m with
      | Some c => (c - Mission.created_at m)%Z :: processing_times r
      | None => processing_times r
      end
  end.

(** [AVG(EXTRACT(EPOCH FROM (completed_at - created_at))/3600)]: [NULL]
    over no rows, otherwise the mean in hours as an exact fraction. *)
Definition avg_hours (s : Store) : option Q :=
  match processing_times (missions s) with
  | [] => None
  | ts =>
      Some (Qmake (fold_right Z.add 0%Z ts)
                  (Pos.of_nat (List.length ts) * 3600000000))
  end.

(** The handler: four queries under [Promise.all], each of which may
    fail. *)
Definition advancedStats (s : Store) (now : Timestamp)
    (basic_ok monthly_ok top_ok avg_ok : bool) : Response :=
  if basic_ok && monthly_ok && top_ok && avg_ok then
    ok (AdvancedStats (count_by_status s) (monthly_counts s now)
          (top_vehicles s) (coalesce (avg_hours s) 0%Q)) None
  else failure 500 "Erreur lors du calcul des statistiques".

(** [req.query] of the search route. *)
Record SearchQuery : Type := mkQuery {
  q : option string;
  status : option string;
  dateFrom : option string;
  dateTo : option string;
  vehicleBrand : option string
}.

(** [if (x)] on a query parameter: there, and not the empty string. *)
Definition supplied (x : option string) : option string :=
  match x with
  | Some t => if t =? "" then None else Some t
  | None => None
  end.

(** One [AND ...] clause per supplied filter. *)
Definition free_text_clause (x : option string) (m : Mission.t) : bool :=
  match supplied x with
  | Some t =>
      let p := "%" ++ t ++ "%" in
      Sql.ilike pg_lower p (Mission.mission_code m)
      || Sql.ilike pg_lower p (Mission.client_name m)
      || Sql.ilike pg_lower p (Mission.vehicle_brand m)
      || Sql.ilike pg_lower p (Mission.vehicle_model m)
  | None => true
  end.

Definition status_clause (x : option string) (m : Mission.t) : bool :=
  match supplied x with
  | Some t => Mission.status m =? t
  | None => true
  end.

Definition brand_clause (x : option string) (m : Mission.t) : bool :=
  match supplied x with
  | Some t => Sql.ilike pg_lower ("%" ++ t ++ "%") (Mission.vehicle_brand m)
  | None => true
  end.

(** A date parameter as the store reads it: [Some None] when it is not
    supplied, [None] when its text is refused. *)
Definition date_bound (x : option string) : option (option Timestamp) :=
  match supplied x with
  | Some t =>
      match timestamp_in t with
      | Some ts => Some (Some ts)
      | None => None
      end
  | None => Some None
  end.

Definition from_clause (b : option Timestamp) (m : Mission.t) : bool :=
  match b with
  | Some ts => (ts <=? Mission.created_at m)%Z
  | None => true
  end.

Definition to_clause (b : option Timestamp) (m : Mission.t) : bool :=
  match b with
  | Some ts => (Mission.created_at m <=? ts)%Z
  | None => true
  end.

Definition search_where (f : SearchQuery) (lo hi : option Timestamp)
    (m : Mission.t) : bool :=
  free_text_clause (q f) m && status_clause (status f) m
  && from_clause lo m && to_clause hi m
  && brand_clause (vehicleBrand f) m.

Definition search (s : Store) (query_ok : bool) (f : SearchQuery) : Response :=
  let err := failure 500 "Erreur lors de la recherche" in
  if query_ok then
    match date_bound (dateFrom f), date_bound (dateTo f) with
    | Some lo, Some hi =>
        ok (MissionRows
              (firstn 100
                 (Sql.order_by newest_first
                    (filter (search_where f lo hi) (missions s))))) None
    | _, _ => err
    end
  else err.

End CalendarQueries.

(** ** [GET /api/reports/:missionId/pdf] *)

(** What the report route sends: a redirection, or a JSON answer. *)
Inductive ReportAnswer : Type :=
| Redirect (url : string)
| Answer (r : Response).

Definition reportPdf (s : Store) (query_ok : bool) (missionId : Z)
    : ReportAnswer :=
  if query_ok then
    match filter (fun m => (Mission.id m =? missionId)%Z) (missions s) with
    | [] => Answer (failure 404 "Mission introuvable")
    | m :: _ =>
        if negb (Mission.status m =? "completed") then
          Answer (failure 400
            "Le rapport n'est disponible que pour les missions terminées")
        else
          Redirect
            "https://www.w3.org/WAI/ER/tests/xhtml/testfiles/resources/pdf/dummy.pdf"
    end
  else Answer (failure 500 "Erreur lors de la génération du rapport").

(** ** The handlers and a store which can be reached *)

(** The handlers above take for an input whether the store carried each
    statement out.  When the store can be reached, the parameters settle
    it: a key compared with the [INTEGER] column [id] is refused when it
    is no integer of 32 bits, a text when it holds a zero byte, and a
    text too long for its [VARCHAR] column when the row is written.  In
    what follows [up] tells whether the store can be reached. *)

Definition setStatus_served (v : Variant) (s : Store) (now : Timestamp)
    (up : bool) (id : Z) (status : Body.value) : Store * Response :=
  setStatus v s now (up && Pg.int4 id) id status.

Definition updateObservations_served (v : Variant) (s : Store)
    (now : Timestamp) (up : bool) (id : Z) (observations : Body.value)
    : Store * Response :=
  updateObservations v s now
    (up && Pg.int4 id && Pg.text_param (Body.prepareValue observations))
    id observations.


Definition reportPdf_served (s : Store) (up : bool) (missionId : Z)
    : ReportAnswer :=
  reportPdf s (up && Pg.int4 missionId) missionId.

Definition getMission_served (v : Variant) (s : Store) (up : bool)
    (code : string) : Response :=
  getMission v s (up && Pg.text code) code.

(** The search sends the filters which are supplied. *)
Definition search_served (pg_lower : string -> string)
    (timestamp_in : string -> option Timestamp) (s : Store) (up : bool)
    (f : SearchQuery) : Response :=
  search pg_lower timestamp_in s
    (up && Pg.text_param (supplied (q f))
     && Pg.text_param (supplied (status f))
     && Pg.text_param (supplied (dateFrom f))
     && Pg.text_param (supplied (dateTo f))
     && Pg.text_param (supplied (vehicleBrand f))) f.




(** The upload.  The lookup of the mission is refused for a key which is
    no integer of 32 bits.  The row is refused when its parameters are
    read if a text holds a zero byte or the size is no integer of 32
    bits, and when it is written if the photo type, the file name or the
    original name is too long for its column; what the columns store is
    what [Pg.varchar] makes of the texts, while the locator is built from
    the photo type as it was sent. *)
Definition uploadPhoto_served (v : Variant) (s : Store) (now_ms : Z)
    (now : Timestamp) (up_check up_upsert : bool) (missionId : Z)
    (photoType : option string) (photo : option UploadedFile)
    : Store * Response :=
  let err := failure 500 "Erreur lors du téléchargement de la photo" in
  match photo with
  | None => (s, failure 400 "Aucun fichier téléchargé")
  | Some f =>
      if negb (existsb (String.eqb (mimetype f)) allowedTypes) then
        (s, failure 400 "Type de fichier non autorisé")
      else if negb (up_check && Pg.int4 missionId) then (s, err)
      else if negb (mission_exists s missionId) then
        (s, failure 404 "Mission introuvable")
      else
        let filename := Z_toString now_ms ++ "_" ++ name f in
        let url := mockUrl v photoType in
        if negb (up_upsert && Pg.text_param photoType && Pg.text filename
                 && Pg.text (name f) && Pg.int4 (size f)) then (s, err)
        else
          let refused :=
            (with_photos s (mission_photos s) (mission_photos_id_seq s + 1),
             err) in
          match photoType with
          | None =>
              match upsert_photo s now missionId None filename f url with
              | (s', Some row) =>
                  (s', ok (PhotoRow row url)
                          (Some "Photo téléchargée avec succès"))
              | (s', None) => (s', err)
              end
          | Some t =>
              match Pg.varchar 50 t, Pg.varchar 255 filename,
                    Pg.varchar 255 (name f), Pg.varchar 100 (mimetype f) with
              | Some t', Some filename', Some name', Some mimetype' =>
                  match upsert_photo s now missionId (Some t') filename'
                          (mkFile name' (size f) mimetype') url with
                  | (s', Some row) =>
                      (s', ok (PhotoRow row url)
                              (Some "Photo téléchargée avec succès"))
                  | (s', None) => (s', err)
                  end
              | _, _, _, _ => refused
              end
          end
  end.

(** ** The route table of the enhanced server *)

Inductive Method : Type :=
| GET
| POST
| PUT
| DELETE.

(** A piece of a route path: a literal, or a named parameter. *)
Inductive Segment : Type :=
| Fixed (text : string)
| Named (param : string).

Inductive Handler : Type :=
| Health
| Stats
| ListMissions
| CreateMission
| SaveInspection
| GetMission
| SetStatus
| UploadPhoto
| SetObservations
| SetSignature
| AdvancedStatistics
| SearchMissions
| ReportPdf
| Root.

(** The [app.get], [app.post] and [app.put] calls, in the order the file
    makes them. *)
Definition route_table : list (Method * list Segment * Handler) :=
  [ (GET, [Fixed "api"; Fixed "health"], Health);
    (GET, [Fixed "api"; Fixed "stats"], Stats);
    (GET, [Fixed "api"; Fixed "missions"], ListMissions);
    (POST, [Fixed "api"; Fixed "missions"], CreateMission);
    (POST, [Fixed "api"; Fixed "missions"; Named "id"; Fixed "inspection"],
     SaveInspection);
    (GET, [Fixed "api"; Fixed "missions"; Named "code"], GetMission);
    (PUT, [Fixed "api"; Fixed "missions"; Named "id"; Fixed "status"],
     SetStatus);
    (POST, [Fixed "api"; Fixed "uploads"; Fixed "photos"; Named "missionId"],
     UploadPhoto);
    (PUT, [Fixed "api"; Fixed "missions"; Named "id"; Fixed "observations"],
     SetObservations);
    (POST, [Fixed "api"; Fixed "missions"; Named "id"; Fixed "signature"],
     SetSignature);
    (GET, [Fixed "api"; Fixed "stats"; Fixed "advanced"], AdvancedStatistics);
    (GET, [Fixed "api"; Fixed "missions"; Fixed "search"], SearchMissions);
    (GET, [Fixed "api"; Fixed "reports"; Named "missionId"; Fixed "pdf"],
     ReportPdf);
    (GET, [], Root) ].

Definition method_eqb (a b : Method) : bool :=
  match a, b with
  | GET, GET | POST, POST | PUT, PUT | DELETE, DELETE => true
  | _, _ => false
  end.

(** The pieces of a request path between its slashes; one trailing slash
    is overlooked. *)
Fixpoint drop_last_empty (l : list string) : list string :=
  match l with
  | [] => []
  | [x] => if x =? "" then [] else [x]
  | x :: r => x :: drop_last_empty r
  end.

Definition path_segments (path : string) : list string :=
  match split "/" path with
  | "" :: rest => drop_last_empty rest
  | pieces => pieces
  end.

(** Express matches a literal without regard to case and lets a named
    parameter take any non-empty piece; the result is [req.params]. *)
Fixpoint match_path (pat : list Segment) (path : list string)
    : option (list (string * string)) :=
  match pat, path with
  | [], [] => Some []
  | Fixed t :: pat', x :: path' =>
      if lower t =? lower x then match_path pat' path' else None
  | Named n :: pat', x :: path' =>
      if x =? "" then None
      else option_map (cons (n, x)) (match_path pat' path')
  | _, _ => None
  end.

(** The first route of the table which fits the request runs, and it
    alone: no handler passes the request on. *)
Fixpoint first_match (table : list (Method * list Segment * Handler))
    (m : Method) (path : list string)
    : option (Handler * list (string * string)) :=
  match table with
  | [] => None
  | (m', pat, h) :: rest =>
      if method_eqb m m' then
        match match_path pat path with
        | Some params => Some (h, params)
        | None => first_match rest m path
        end
      else first_match rest m path
  end.

(** [None] is the catch-all, which answers 404. *)
Definition dispatch (m : Method) (path : string)
    : option (Handler * list (string * string)) :=
  first_match route_table m (path_segments path).

(** *** The routes of the basic server *)

(** The [app.get], [app.post] and [app.put] calls of the basic server, in
    the order the file makes them. *)
Definition basic_route_table : list (Method * list Segment * Handler) :=
  [ (GET, [Fixed "api"; Fixed "health"], Health);
    (GET, [Fixed "api"; Fixed "stats"], Stats);
    (POST, [Fixed "api"; Fixed "missions"], CreateMission);
    (GET, [Fixed "api"; Fixed "missions"; Named "code"], GetMission);
    (PUT, [Fixed "api"; Fixed "missions"; Named "id"; Fixed "status"],
     SetStatus);
    (POST, [Fixed "api"; Fixed "uploads"; Fixed "photos"; Named "missionId"],
     UploadPhoto);
    (POST, [Fixed "api"; Fixed "missions"; Named "id"; Fixed "signature"],
     SetSignature);
    (PUT, [Fixed "api"; Fixed "missions"; Named "id"; Fixed "observations"],
     SetObservations);
    (GET, [Fixed "api"; Fixed "reports"; Named "missionId"; Fixed "pdf"],
     ReportPdf) ].

(** What no route of the table takes goes on to the static files and to
    the catch-all. *)
Definition basic_dispatch (m : Method) (path : string)
    : option (Handler * list (string * string)) :=
  first_match basic_route_table m (path_segments path).

(** ** Notions used by the statements *)

Fixpoint all_digits (s : string) : bool :=
  match s with
  | "" => true
  | String c r => is_digit c && all_digits r
  end.

(** The number a run of decimal digits writes. *)
Fixpoint decimal_from (acc : N) (s : string) : N :=
  match s with
  | "" => acc
  | String c r => decimal_from (acc * 10 + (N_of_ascii c - 48)) r
  end.

Definition decimal_value (s : string) : N :=
  decimal_from 0 s.

(** No character that [LIKE] reads as a wildcard or an escape. *)
Fixpoint plain_text (s : string) : bool :=
  match s with
  | "" => true
  | String c r =>
      negb (Ascii.eqb c "%" || Ascii.eqb c "_" || Ascii.eqb c "\")
      && plain_text r
  end.

(** [c] does not occur in [s]. *)
Fixpoint free_of (c : ascii) (s : string) : bool :=
  match s with
  | "" => true
  | String d r => negb (Ascii.eqb c d) && free_of c r
  end.

(** [s] begins with [p]. *)
Fixpoint starts_with (p s : string) : bool :=
  match p, s with
  | "", _ => true
  | String a p', String b s' => Ascii.eqb a b && starts_with p' s'
  | _, _ => false
  end.

(** [q] occurs in [s] as a run of consecutive characters. *)
Fixpoint contains (q s : string) : bool :=
  starts_with q s
  || match s with
     | String _ r => contains q r
     | "" => false
     end.

(** [q] occurs in [s] when the case of the letters A to Z is
    overlooked. *)
Definition contains_ci (q s : string) : bool :=
  contains (lower q) (lower s).

(** [q] occurs in [s] and begins where a character of [s] begins: [here]
    tells whether one begins at the head of [s]. *)
Fixpoint occurs_from (here : bool) (q s : string) : bool :=
  (here && starts_with q s)
  || match s with
     | String _ r => occurs_from (Sql.at_char r) q r
     | "" => false
     end.

Definition occurs (q s : string) : bool :=
  occurs_from true q s.

(** [FA-<8 digits>-<3 digits>] *)
Definition code_pattern (c : string) : bool :=
  match split "-" c with
  | [fa; stamp; seq] =>
      (fa =? "FA")
      && (String.length stamp =? 8)%nat && all_digits stamp
      && (String.length seq =? 3)%nat && all_digits seq
  | _ => false
  end.

(** [c] is the code of the date [stamp] whose sequence is the number [k]
    on three digits. *)
Definition sequence_code (stamp : string) (k : N) (c : string) : Prop :=
  exists ds,
    c = "FA-" ++ stamp ++ "-" ++ ds
    /\ String.length ds = 3 /\ all_digits ds = true /\ decimal_value ds = k.

(** [ds] writes the number [n] as the generator does: on three digits
    below 1000, and beyond without a zero at its head. *)
Definition writes_sequence (n : N) (ds : string) : Prop :=
  all_digits ds = true /\ decimal_value ds = n
  /\ ((n < 1000)%N -> String.length ds = 3)
  /\ ((1000 <= n)%N -> starts_with "0" ds = false).

(** The codes of the date [stamp] have sequences of three digits, and
    [n] is the highest of them, or 0 when the date has no code. *)
Definition day_codes_within (s : Store) (stamp : string) (n : N) : Prop :=
  (forall c, In c (mission_codes s) ->
     starts_with ("FA-" ++ stamp ++ "-") c = true ->
     exists k, (k <= n)%N /\ sequence_code stamp k c)
  /\ (n = 0%N \/ exists c, In c (mission_codes s) /\ sequence_code stamp n c).

(** The code of a date and a sequence number, as the generator writes it. *)
Definition code_of (stamp : string) (n : N) : string :=
  "FA-" ++ stamp ++ "-" ++ padStart 3 "0" (N_toString n).

Definition find_mission (s : Store) (id : Z) : option Mission.t :=
  find (fun m => (Mission.id m =? id)%Z) (missions s).

(** The pair which [UNIQUE(mission_id, photo_type)] is about. *)
Definition slot_of (p : Photo.t) : Z * string :=
  (Photo.mission_id p, Photo.photo_type p).

(** [UNIQUE(mission_id, photo_type)] *)
Definition unique_slots (s : Store) : Prop :=
  NoDup (map slot_of (mission_photos s)).

(** [mission_id INTEGER UNIQUE] of [inspections] *)
Definition unique_inspections (s : Store) : Prop :=
  NoDup (map Inspection.mission_id (inspections s)).

(** [id SERIAL PRIMARY KEY] of [missions]: the keys differ and were drawn
    from the sequence. *)
Definition unique_ids (s : Store) : Prop :=
  NoDup (map Mission.id (missions s))
  /\ Forall (fun i => (i <= missions_id_seq s)%Z) (map Mission.id (missions s)).

(** [mission_code VARCHAR(20) UNIQUE] *)
Definition unique_codes (s : Store) : Prop :=
  NoDup (mission_codes s).

(** [REFERENCES missions(id)] of the two dependent tables. *)
Definition references_hold (s : Store) : Prop :=
  Forall (fun p => In (Photo.mission_id p) (map Mission.id (missions s)))
         (mission_photos s)
  /\ Forall (fun i => In (Inspection.mission_id i) (map Mission.id (missions s)))
            (inspections s).

(** The constraints of the schema between rows. *)
Definition constraints_hold (s : Store) : Prop :=
  unique_ids s /\ unique_codes s /\ unique_slots s /\ unique_inspections s
  /\ references_hold s.

(** One request served by a handler which writes.  The last case is an
    upload as the store answers it, which may keep a photo type or a file
    name cut to the length of its column; the other handlers, as the
    store answers them, do what the handlers above do with some answer of
    the store. *)
Inductive step (s : Store) : Store -> Prop :=
| step_create v now_js now rnd lookup_ok insert_ok b :
    step s (fst (create v s now_js now rnd lookup_ok insert_ok b))
| step_status v now query_ok id st :
    step s (fst (setStatus v s now query_ok id st))
| step_inspection now upsert_ok update_ok id b :
    step s (fst (saveInspection s now upsert_ok update_ok id b))
| step_upload v now_ms now check_ok upsert_ok missionId photoType photo :
    step s (fst (uploadPhoto v s now_ms now check_ok upsert_ok missionId
                   photoType photo))
| step_observations v now query_ok id obs :
    step s (fst (updateObservations v s now query_ok id obs))
| step_signature v now query_ok id sig :
    step s (fst (setSignature v s now query_ok id sig))
| step_upload_served v now_ms now up_check up_upsert missionId photoType photo :
    step s (fst (uploadPhoto_served v s now_ms now up_check up_upsert missionId
                   photoType photo)).

(** The stores the handlers can bring the empty database to. *)
Inductive reachable : Store -> Prop :=
| reachable_empty : reachable empty_store
| reachable_step s s' : reachable s -> step s s' -> reachable s'.

(** Oldest upload first. *)
Definition by_upload_time (a b : PhotoSummary) : Prop :=
  (ps_uploaded_at a <= ps_uploaded_at b)%Z.

(** [a] was created no earlier than [b]. *)
Definition newer_or_same (a b : Mission.t) : Prop :=
  (Mission.created_at b <= Mission.created_at a)%Z.

(** What a search asks of a mission, filter by filter: the free text, as
    the pattern [%text%], matches the code, the client name, the brand or
    the model, whatever the case; the status is the one asked for; the
    creation time lies within the bounds, themselves included; the brand
    filter, as the pattern [%text%], matches the brand. *)
Definition matched (pg_lower : string -> string) (f : SearchQuery)
    (lo hi : option Timestamp) (m : Mission.t) : Prop :=
  (forall t, supplied (q f) = Some t ->
     Sql.ilike pg_lower ("%" ++ t ++ "%") (Mission.mission_code m) = true
     \/ Sql.ilike pg_lower ("%" ++ t ++ "%") (Mission.client_name m) = true
     \/ Sql.ilike pg_lower ("%" ++ t ++ "%") (Mission.vehicle_brand m) = true
     \/ Sql.ilike pg_lower ("%" ++ t ++ "%") (Mission.vehicle_model m) = true)
  /\ (forall t, supplied (status f) = Some t -> Mission.status m = t)
  /\ (forall ts, lo = Some ts -> (ts <= Mission.created_at m)%Z)
  /\ (forall ts, hi = Some ts -> (Mission.created_at m <= ts)%Z)
  /\ (forall t, supplied (vehicleBrand f) = Some t ->
        Sql.ilike pg_lower ("%" ++ t ++ "%") (Mission.vehicle_brand m) = true).

(** What the specification asks of a mission returned by a search: every
    supplied filter holds.  The free text occurs, once the database has
    put both in lower case, in the code, the client name, the brand or
    the model; the status is the one asked for; the creation time lies
    within the bounds, themselves included; the brand filter occurs in
    the brand. *)
Definition wanted (pg_lower : string -> string) (f : SearchQuery)
    (lo hi : option Timestamp) (m : Mission.t) : Prop :=
  (forall t, supplied (q f) = Some t ->
     occurs (pg_lower t) (pg_lower (Mission.mission_code m)) = true
     \/ occurs (pg_lower t) (pg_lower (Mission.client_name m)) = true
     \/ occurs (pg_lower t) (pg_lower (Mission.vehicle_brand m)) = true
     \/ occurs (pg_lower t) (pg_lower (Mission.vehicle_model m)) = true)
  /\ (forall t, supplied (status f) = Some t -> Mission.status m = t)
  /\ (forall ts, lo = Some ts -> (ts <= Mission.created_at m)%Z)
  /\ (forall ts, hi = Some ts -> (Mission.created_at m <= ts)%Z)
  /\ (forall t, supplied (vehicleBrand f) = Some t ->
        occurs (pg_lower t) (pg_lower (Mission.vehicle_brand m)) = true).

(** The store takes the filters of a search: no text supplied holds a
    zero byte. *)
Definition filters_taken (f : SearchQuery) : Prop :=
  forall x, In x [q f; status f; dateFrom f; dateTo f; vehicleBrand f] ->
    forall t, supplied x = Some t -> Pg.text t = true.

(** A filter text which holds none of [%], [_] and backslash, and which
    the database puts in lower case as such a text is put, whatever the
    locale: the text in lower case holds none of them either, and the
    pattern [%text%] in lower case is [%], the text in lower case and
    [%]. *)
Definition plain_filter (pg_lower : string -> string) (x : option string)
    : Prop :=
  forall t, supplied x = Some t ->
    plain_text t = true
    /\ plain_text (pg_lower t) = true
    /\ pg_lower ("%" ++ t ++ "%") = "%" ++ pg_lower t ++ "%".



(** A number which JavaScript holds exactly and writes with all its
    digits: at most 2^53 - 1 in size. *)
Definition exact_number (v : Body.value) : Prop :=
  match v with
  | Body.Num z => (-9007199254740991 <= z <= 9007199254740991)%Z
  | _ => True
  end.





(** What the handlers keep true of a mission: its status is one of the
    six the enhanced server accepts, a completed mission has a completion
    time, a mission in progress has a start time, and its code begins
    with FA-. *)
Definition mission_sound (m : Mission.t) : Prop :=
  In (Mission.status m) (recognized Enhanced)
  /\ (Mission.status m = "completed" -> Mission.completed_at m <> None)
  /\ (Mission.status m = "in_progress" -> Mission.started_at m <> None)
  /\ starts_with "FA-" (Mission.mission_code m) = true.

(** A character a URL component may hold as it is, or the escape sign. *)
Definition url_safe (c : ascii) : bool :=
  uri_unreserved c || Ascii.eqb c "%".

Fixpoint every_char (p : ascii -> bool) (s : string) : bool :=
  match s with
  | "" => true
  | String c r => p c && every_char p r
  end.

(** How many missions are in the given status. *)
Definition in_status (s : Store) (st : string) : nat :=
  count_occ string_dec (map Mission.status (missions s)) st.

(** The columns of a mission which no [UPDATE] of the handlers sets: the
    row with the columns they may set blanked out. *)
Definition fixed_columns (m : Mission.t) : Mission.t :=
  set_columns m "" 0%Z None None None None None.

(** What identifies a photo and an inspection, and is never rewritten. *)
Definition photo_identity (p : Photo.t) : Z * (Z * string) :=
  (Photo.id p, slot_of p).

Definition inspection_identity (i : Inspection.t) : Z * Z * Timestamp :=
  (Inspection.id i, Inspection.mission_id i, Inspection.created_at i).

(** [l'] is [l] with at most one element added at its end. *)
Definition extends {A : Type} (l l' : list A) : Prop :=
  exists extra, l' = (l ++ extra)%list /\ (List.length extra <= 1)%nat.

(** From [s] to [s'] no row was deleted or given another identity, one
    row at most was added, and no sequence went back. *)
Definition only_adds (s s' : Store) : Prop :=
  extends (map fixed_columns (missions s)) (map fixed_columns (missions s'))
  /\ extends (map photo_identity (mission_photos s))
             (map photo_identity (mission_photos s'))
  /\ extends (map inspection_identity (inspections s))
             (map inspection_identity (inspections s'))
  /\ (List.length (missions s') + List.length (mission_photos s')
      + List.length (inspections s')
      <= 1 + (List.length (missions s) + List.length (mission_photos s)
              + List.length (inspections s)))%nat
  /\ (missions_id_seq s <= missions_id_seq s')%Z
  /\ (mission_photos_id_seq s <= mission_photos_id_seq s')%Z
  /\ (inspections_id_seq s <= inspections_id_seq s')%Z.

(** The required columns are filled and the urgency is set. *)
Definition mission_filled (m : Mission.t) : Prop :=
  Mission.vehicle_brand m <> "" /\ Mission.vehicle_model m <> ""
  /\ Mission.pickup_location m <> "" /\ Mission.delivery_location m <> ""
  /\ Mission.client_name m <> "" /\ Mission.client_email m <> ""
  /\ Mission.urgency m <> None.

(** A change of a row which keeps its key and its fixed columns and
    clears none of its three times. *)
Definition keeps_times (f : Mission.t -> Mission.t) : Prop :=
  forall m,
    Mission.id (f m) = Mission.id m
    /\ fixed_columns (f m) = fixed_columns m
    /\ (Mission.started_at m <> None -> Mission.started_at (f m) <> None)
    /\ (Mission.completed_at m <> None -> Mission.completed_at (f m) <> None)
    /\ (Mission.signature_timestamp m <> None ->
        Mission.signature_timestamp (f m) <> None).

(** How many missions have this brand and this model. *)
Definition vehicles_like (s : Store) (brand model : string) : nat :=
  Sql.count_where
    (fun m => (Mission.vehicle_brand m =? brand)
              && (Mission.vehicle_model m =? model))
    (missions s).

(** The missions created since [from] whose creation time [month] maps to
    [mo]. *)
Definition created_in (month : Timestamp -> Timestamp) (from : Timestamp)
    (s : Store) (mo : Timestamp) : nat :=
  Sql.count_where
    (fun m => (from <=? Mission.created_at m)%Z
              && (month (Mission.created_at m) =? mo)%Z)
    (missions s).

(** ** Sample data *)

(** A mission with the given key, code, vehicle, client, status and times,
    and nothing else filled in. *)
Definition sample_mission (id : Z) (code brand model client st : string)
    (created : Timestamp) (done : option Timestamp) : Mission.t :=
  Mission.mk id code brand model None None None None None None None None
    "Paris" "Lyon" None None (Some "normal") client "a@x.com"
    None None None None None st created created None done
    None None None None None None.

(** The store with these missions and nothing else. *)
Definition store_of (l : list Mission.t) : Store :=
  mkStore l (Z.of_nat (List.length l)) [] 0 [] 0.

Definition march_first : Date := mkDate 2024 3 1.

(** A completed Renault Clio, and the store which holds it alone. *)
Definition renault : Mission.t :=
  sample_mission 1 "FA-20240301-001" "Renault" "Clio" "A" "completed"
    10%Z (Some 20%Z).

Definition renault_store : Store := store_of [renault].

(** A reading of timestamps which refuses every text. *)
Definition no_timestamp (t : string) : option Timestamp := None.

(** A store whose only mission has the given code. *)
Definition store_with_code (code : string) : Store :=
  store_of [sample_mission 1 code "Renault" "Clio" "A" "pending" 0%Z None].

(** The creation input of the scenario of the specification. *)
Definition clio_body : CreateBody.t :=
  let u := Body.Undefined in
  CreateBody.mk (Body.Str "Renault") (Body.Str "Clio") u u u u u u u u
    (Body.Str "Paris") (Body.Str "Lyon") u u u
    (Body.Str "A") (Body.Str "a@x.com") u u u u u u u.

(** The codes of the date [stamp] are exactly those of the sequences
    1 to [n]. *)
Definition day_codes_upto (s : Store) (stamp : string) (n : N) : Prop :=
  (forall c, In c (mission_codes s) ->
     starts_with ("FA-" ++ stamp ++ "-") c = true ->
     exists k, (1 <= k <= n)%N /\ c = code_of stamp k)
  /\ (forall k, (1 <= k <= n)%N -> In (code_of stamp k) (mission_codes s)).

(** The store after [n] missions were created through the basic server on
    2024-03-01, one per microsecond. *)
Fixpoint created_on_march_first (n : nat) : Store :=
  match n with
  | O => empty_store
  | S k =>
      fst (create Basic (created_on_march_first k) march_first
             (Z.of_nat (S k)) 0 true true clio_body)
  end.

(** The mission of sequence [i] of 2024-03-01, created at time [i]. *)
Definition day_mission (i : nat) : Mission.t :=
  sample_mission (Z.of_nat i) (code_of "20240301" (N.of_nat i))
    "Renault" "Clio" "A" "pending" (Z.of_nat i) None.

(** The store which holds the missions of the sequences 1 to [n] of
    2024-03-01. *)
Definition day_store (n : nat) : Store :=
  store_of (map day_mission (seq 1 n)).

(** The store after 999 missions were created on 2024-03-01. *)
Definition full_day_store : Store := day_store 999.

(** A store which holds the missions of the sequences 1 and 5 of
    2024-03-01 and no other. *)
Definition gap_day_store : Store :=
  store_of [day_mission 1; day_mission 5].

(** A store whose only mission is in progress, last updated at time 10. *)
Definition finished_store : Store :=
  store_of [sample_mission 1 "FA-20240301-001" "Renault" "Clio" "A"
              "in_progress" 10%Z None].


(** Two uploaded files. *)
Definition front_jpeg : UploadedFile := mkFile "a.jpg" 1200 "image/jpeg".







(** The store after 1000 missions were created on 2024-03-01. *)
Definition busy_day_store : Store := day_store 1000.

(** The Renault with an inspection and two photos, the later upload
    stored first. *)
Definition rear_photo : Photo.t :=
  Photo.mk 1 1 "rear" "30_r.jpg" (Some "r.jpg") (Some 1200%Z)
    (Some "image/jpeg") "https://photos.example/rear" 30%Z None None None.

Definition front_photo : Photo.t :=
  Photo.mk 2 1 "front" "20_f.jpg" (Some "f.jpg") (Some 3400%Z)
    (Some "image/jpeg") "https://photos.example/front" 20%Z None None None.

Definition renault_inspection : Inspection.t :=
  Inspection.mk 1 1 (Some "rayure") (Some "sig-1")
    (Some (Body.JObj [("b", Body.JNull); ("10", Body.JNum 4)]))
    (Some "2") None 15%Z 15%Z.

Definition inspected_store : Store :=
  mkStore [renault] 1 [rear_photo; front_photo] 2 [renault_inspection] 1.

(** ** Facts about strings *)

Lemma append_assoc (a b c : string) : (a ++ b) ++ c = a ++ (b ++ c).
Proof.
  induction a as [|x a IH]; simpl; [reflexivity | now rewrite IH].
Qed.

Lemma append_empty_r (a : string) : a ++ "" = a.
Proof.
  induction a as [|x a IH]; simpl; [reflexivity | now rewrite IH].
Qed.

Lemma length_append (a b : string) :
  String.length (a ++ b) = (String.length a + String.length b)%nat.
Proof.
  induction a as [|x a IH]; simpl; [reflexivity | now rewrite IH].
Qed.

Lemma append_inv_head (a b c : string) : a ++ b = a ++ c -> b = c.
Proof.
  induction a as [|x a IH]; simpl; intros H; [exact H|].
  injection H as H. auto.
Qed.

Lemma all_digits_append (a b : string) :
  all_digits (a ++ b) = all_digits a && all_digits b.
Proof.
  induction a as [|x a IH]; simpl; [reflexivity|].
  now rewrite IH, andb_assoc.
Qed.

(** ** Decimal rendering *)

Section Decimal.

Local Open Scope N_scope.

Lemma is_digit_digit_char d : d < 10 -> is_digit (digit_char d) = true.
Proof.
  intros H. unfold is_digit, digit_char.
  rewrite N_ascii_embedding by lia.
  apply andb_true_intro; split; apply N.leb_le; lia.
Qed.

Lemma digit_value_digit_char d :
  d < 10 -> digit_value 10 (digit_char d) = Some d.
Proof.
  intros H. unfold digit_value, digit_char.
  rewrite N_ascii_embedding by lia.
  replace ((48 <=? 48 + d) && (48 + d <=? 57))%bool with true.
  - replace (48 + d - 48) with d by lia.
    apply N.ltb_lt in H. now rewrite H.
  - symmetry. apply andb_true_intro; split; apply N.leb_le; lia.
Qed.

Lemma dec_digits_acc fuel : forall n acc,
  dec_digits fuel n acc = (dec_digits fuel n "" ++ acc)%string.
Proof.
  induction fuel as [|f IH]; intros n acc; simpl.
  - reflexivity.
  - destruct (n / 10 =? 0).
    + reflexivity.
    + rewrite IH. rewrite (IH _ (String _ "")).
      now rewrite append_assoc.
Qed.

Lemma dec_digits_fuel f1 : forall f2 n acc,
  n < 2 ^ N.of_nat f1 -> n < 2 ^ N.of_nat f2 ->
  dec_digits f1 n acc = dec_digits f2 n acc.
Proof.
  induction f1 as [|f IH]; intros f2 n acc H1 H2.
  - assert (n = 0) by (simpl in H1; lia). subst n.
    destruct f2; reflexivity.
  - destruct f2 as [|f'].
    + assert (n = 0) by (simpl in H2; lia). subst n. reflexivity.
    + simpl. destruct (n / 10 =? 0) eqn:E; [reflexivity|].
      apply IH.
      * rewrite Nat2N.inj_succ, N.pow_succ_r' in H1.
        apply N.Div0.div_lt_upper_bound. lia.
      * rewrite Nat2N.inj_succ, N.pow_succ_r' in H2.
        apply N.Div0.div_lt_upper_bound. lia.
Qed.

Lemma size_bound n : n < 2 ^ N.of_nat (N.to_nat (N.size n)).
Proof.
  rewrite N2Nat.id. apply N.size_gt.
Qed.

(** The rendering of [n], digit by digit from the right. *)
Lemma N_toString_small n :
  n < 10 -> N_toString n = String (digit_char n) "".
Proof.
  intros H. unfold N_toString.
  assert (E : n / 10 = 0) by (apply N.div_small; exact H).
  assert (M : n mod 10 = n) by (apply N.mod_small; exact H).
  destruct (N.to_nat (N.size n)); simpl; rewrite ?E, M; reflexivity.
Qed.

Lemma N_toString_large n :
  10 <= n ->
  N_toString n
  = (N_toString (n / 10) ++ String (digit_char (n mod 10)) "")%string.
Proof.
  intros H. unfold N_toString.
  pose proof (size_bound n) as B.
  destruct (N.to_nat (N.size n)) as [|f] eqn:Ef.
  - simpl in B. lia.
  - simpl.
    assert (E : (n / 10 =? 0) = false).
    { apply N.eqb_neq. intros C.
      apply N.div_small_iff in C; lia. }
    rewrite E, dec_digits_acc. f_equal.
    apply dec_digits_fuel.
    + rewrite Nat2N.inj_succ, N.pow_succ_r' in B.
      apply N.Div0.div_lt_upper_bound. lia.
    + apply size_bound.
Qed.

Lemma N_toString_digits n : all_digits (N_toString n) = true.
Proof.
  induction n as [n IH] using (well_founded_induction N.lt_wf_0).
  destruct (N.lt_ge_cases n 10) as [H|H].
  - rewrite N_toString_small by exact H. simpl.
    now rewrite is_digit_digit_char.
  - rewrite N_toString_large by exact H.
    rewrite all_digits_append, IH.
    + simpl. rewrite is_digit_digit_char; [reflexivity|].
      apply N.mod_lt. lia.
    + apply N.div_lt; lia.
Qed.

Lemma N_toString_length k : forall n,
  n < 10 ^ N.of_nat (S k) -> (String.length (N_toString n) <= S k)%nat.
Proof.
  induction k as [|k IH]; intros n H.
  - rewrite N_toString_small by (simpl in H; lia). simpl. lia.
  - destruct (N.lt_ge_cases n 10) as [L|L].
    + rewrite N_toString_small by exact L. simpl. lia.
    + rewrite N_toString_large by exact L.
      rewrite length_append. simpl.
      assert (n / 10 < 10 ^ N.of_nat (S k)).
      { rewrite (Nat2N.inj_succ (S k)), N.pow_succ_r' in H.
        apply N.Div0.div_lt_upper_bound. lia. }
      specialize (IH _ H0). lia.
Qed.

Lemma N_toString_nonempty n : N_toString n <> "".
Proof.
  destruct (N.lt_ge_cases n 10) as [H|H].
  - now rewrite N_toString_small.
  - rewrite N_toString_large by exact H.
    destruct (N_toString (n / 10)); discriminate.
Qed.

(** Reading digits goes through a run of digits and carries on. *)
Lemma read_digits_append a : forall acc b,
  all_digits a = true ->
  read_digits 10 acc (a ++ b) = read_digits 10 (read_digits 10 acc a) b.
Proof.
  induction a as [|c a IH]; intros acc b H; simpl in *.
  - reflexivity.
  - apply andb_prop in H as [Hc Ha].
    assert (exists d, digit_value 10 c = Some d) as [d Hd].
    { unfold digit_value. unfold is_digit in Hc. rewrite Hc.
      apply andb_prop in Hc as [H1 H2].
      apply N.leb_le in H1, H2.
      assert (L : (N_of_ascii c - 48 <? 10) = true) by (apply N.ltb_lt; lia).
      rewrite L. eauto. }
    rewrite Hd. now apply IH.
Qed.

(** Reading back what was rendered gives the number, also after zeros. *)
Lemma read_digits_N_toString acc n :
  acc = None \/ acc = Some 0 ->
  read_digits 10 acc (N_toString n) = Some n.
Proof.
  intros Hacc.
  induction n as [n IH] using (well_founded_induction N.lt_wf_0).
  destruct (N.lt_ge_cases n 10) as [H|H].
  - rewrite N_toString_small by exact H. simpl.
    rewrite digit_value_digit_char by exact H.
    destruct Hacc; subst; reflexivity.
  - rewrite N_toString_large by exact H.
    rewrite read_digits_append by apply N_toString_digits.
    rewrite IH by (apply N.div_lt; lia).
    simpl. rewrite digit_value_digit_char by (apply N.mod_lt; lia).
    f_equal. rewrite (N.div_mod n 10) at 3 by lia. lia.
Qed.

Lemma read_digits_zeros k : forall acc,
  acc = None \/ acc = Some 0 ->
  let r := read_digits 10 acc (repeat_char "0" k) in
  r = None \/ r = Some 0.
Proof.
  induction k as [|k IH]; intros acc H; simpl.
  - exact H.
  - apply IH. right. destruct H; subst; reflexivity.
Qed.

Lemma all_digits_zeros k : all_digits (repeat_char "0" k) = true.
Proof.
  induction k; simpl; auto.
Qed.

Lemma read_digits_padded k n :
  read_digits 10 None (repeat_char "0" k ++ N_toString n) = Some n.
Proof.
  rewrite read_digits_append by apply all_digits_zeros.
  apply read_digits_N_toString.
  apply (read_digits_zeros k None). now left.
Qed.

End Decimal.

(** ** [parseInt] on a run of digits *)

Lemma digit_not_space c : is_digit c = true -> is_space c = false.
Proof.
  unfold is_digit, is_space. intros H.
  apply andb_prop in H as [H1 H2]. apply N.leb_le in H1, H2.
  apply orb_false_intro.
  - apply N.eqb_neq. lia.
  - apply andb_false_intro2. apply N.leb_gt. lia.
Qed.

Lemma digit_is_not c x :
  is_digit c = true -> is_digit x = false -> Ascii.eqb c x = false.
Proof.
  intros H1 H2. apply Ascii.eqb_neq. intros E. subst. congruence.
Qed.

Lemma parseInt_digits s :
  all_digits s = true ->
  parseInt s = match read_digits 10 None s with
               | Some n => Int (Z.of_N n)
               | None => NaN
               end.
Proof.
  intros H. unfold parseInt.
  destruct s as [|c r]; [reflexivity|].
  simpl in H. apply andb_prop in H as [Hc Hr].
  simpl skip_spaces. rewrite (digit_not_space c Hc).
  unfold strip_sign.
  rewrite (digit_is_not c "-" Hc eq_refl), (digit_is_not c "+" Hc eq_refl).
  assert (E : strip_hex_prefix (String c r) = (10%N, String c r)).
  { destruct r as [|x r']; [reflexivity|]. simpl in Hr.
    apply andb_prop in Hr as [Hx _]. unfold strip_hex_prefix.
    rewrite (digit_is_not x "x" Hx eq_refl), (digit_is_not x "X" Hx eq_refl).
    now rewrite andb_false_r. }
  rewrite E. reflexivity.
Qed.

(** The sequence of a code the generator wrote is read back as written. *)
Lemma parseInt_padded k n :
  parseInt (repeat_char "0" k ++ N_toString n) = Int (Z.of_N n).
Proof.
  rewrite parseInt_digits.
  - now rewrite read_digits_padded.
  - now rewrite all_digits_append, all_digits_zeros, N_toString_digits.
Qed.

Lemma digit_value_decimal c :
  is_digit c = true -> digit_value 10 c = Some (N_of_ascii c - 48)%N.
Proof.
  intros H. unfold digit_value. unfold is_digit in H. rewrite H.
  apply andb_prop in H as [H1 H2]. apply N.leb_le in H1, H2.
  assert (L : (N_of_ascii c - 48 <? 10)%N = true) by (apply N.ltb_lt; lia).
  now rewrite L.
Qed.

Lemma read_digits_decimal s : forall acc,
  all_digits s = true ->
  read_digits 10 (Some acc) s = Some (decimal_from acc s).
Proof.
  induction s as [|c r IH]; intros acc H; [reflexivity|].
  simpl in H. apply andb_prop in H as [Hc Hr].
  cbn [read_digits decimal_from]. rewrite (digit_value_decimal c Hc).
  now apply IH.
Qed.

(** [parseInt] of a run of digits is the number they write. *)
Lemma parseInt_decimal s :
  all_digits s = true -> s <> "" ->
  parseInt s = Int (Z.of_N (decimal_value s)).
Proof.
  intros H N. rewrite (parseInt_digits s H).
  destruct s as [|c r]; [contradiction|].
  simpl in H. apply andb_prop in H as [Hc Hr].
  cbn [read_digits]. rewrite (digit_value_decimal c Hc).
  rewrite (read_digits_decimal r _ Hr). reflexivity.
Qed.

Lemma decimal_value_padded k n :
  decimal_value (repeat_char "0" k ++ N_toString n) = n.
Proof.
  pose proof (parseInt_padded k n) as P.
  rewrite parseInt_decimal in P.
  - injection P as P. lia.
  - now rewrite all_digits_append, all_digits_zeros, N_toString_digits.
  - destruct k; [apply N_toString_nonempty | discriminate].
Qed.

(** *** The number a run of digits writes *)

Lemma decimal_from_acc s : forall acc,
  decimal_from acc s
  = (acc * 10 ^ N.of_nat (String.length s) + decimal_value s)%N.
Proof.
  unfold decimal_value.
  induction s as [|c r IH]; intros acc.
  - simpl. lia.
  - cbn [decimal_from String.length]. rewrite IH, (IH (0 * 10 + _)%N).
    rewrite Nat2N.inj_succ, N.pow_succ_r'. lia.
Qed.

Lemma decimal_value_cons c r :
  decimal_value (String c r)
  = ((N_of_ascii c - 48) * 10 ^ N.of_nat (String.length r)
     + decimal_value r)%N.
Proof.
  unfold decimal_value at 1. cbn [decimal_from]. rewrite decimal_from_acc.
  lia.
Qed.

Lemma digit_below_ten c : is_digit c = true -> (N_of_ascii c - 48 < 10)%N.
Proof.
  unfold is_digit. intros H. apply andb_prop in H as [H1 H2].
  apply N.leb_le in H1, H2. lia.
Qed.

Lemma decimal_value_bound s :
  all_digits s = true ->
  (decimal_value s < 10 ^ N.of_nat (String.length s))%N.
Proof.
  induction s as [|c r IH]; intros H.
  - simpl. unfold decimal_value. simpl. lia.
  - simpl in H. apply andb_prop in H as [Hc Hr].
    rewrite decimal_value_cons. cbn [String.length].
    rewrite Nat2N.inj_succ, N.pow_succ_r'.
    pose proof (digit_below_ten c Hc). specialize (IH Hr). nia.
Qed.

Lemma decimal_value_append a b :
  decimal_value (a ++ b)
  = (decimal_value a * 10 ^ N.of_nat (String.length b) + decimal_value b)%N.
Proof.
  unfold decimal_value at 1 2. generalize 0%N as acc.
  induction a as [|c a IH]; intros acc.
  - simpl. apply decimal_from_acc.
  - cbn [append decimal_from]. apply IH.
Qed.

Lemma decimal_value_padStart k n :
  decimal_value (padStart k "0" (N_toString n)) = n.
Proof.
  unfold padStart. apply decimal_value_padded.
Qed.

Lemma digit_same c d :
  is_digit c = true -> is_digit d = true ->
  (N_of_ascii c - 48 = N_of_ascii d - 48)%N -> c = d.
Proof.
  unfold is_digit. intros Hc Hd E.
  apply andb_prop in Hc as [C1 C2]. apply andb_prop in Hd as [D1 D2].
  apply N.leb_le in C1, C2, D1, D2.
  rewrite <- (ascii_N_embedding c), <- (ascii_N_embedding d). f_equal. lia.
Qed.

(** Two runs of digits of one length which write one number are one run. *)
Lemma decimal_value_same a : forall b,
  all_digits a = true -> all_digits b = true ->
  String.length a = String.length b ->
  decimal_value a = decimal_value b -> a = b.
Proof.
  induction a as [|c a IH]; intros [|d b] Ha Hb L E; try discriminate L.
  - reflexivity.
  - simpl in Ha, Hb. apply andb_prop in Ha as [Hc Ha].
    apply andb_prop in Hb as [Hd Hb]. injection L as L.
    rewrite !decimal_value_cons, L in E.
    pose proof (decimal_value_bound a Ha) as Ba. rewrite L in Ba.
    pose proof (decimal_value_bound b Hb) as Bb.
    set (p := (10 ^ N.of_nat (String.length b))%N) in *.
    assert (X : (N_of_ascii c - 48 = N_of_ascii d - 48)%N) by nia.
    rewrite (digit_same c d Hc Hd X). f_equal.
    apply IH; auto. nia.
Qed.

Lemma N_toString_no_zero_head n :
  (0 < n)%N -> starts_with "0" (N_toString n) = false.
Proof.
  induction n as [n IH] using (well_founded_induction N.lt_wf_0).
  intros P. destruct (N.lt_ge_cases n 10) as [H|H].
  - rewrite N_toString_small by exact H.
    assert (A : forallb (fun i => negb (starts_with "0"
                                   (String (digit_char (N.of_nat i)) "")))
                  (seq 1 9) = true) by reflexivity.
    rewrite forallb_forall in A.
    pose proof (A (N.to_nat n) ltac:(apply in_seq; lia)) as Q.
    rewrite N2Nat.id in Q. now apply negb_true_iff in Q.
  - rewrite N_toString_large by exact H.
    assert (Q : (0 < n / 10)%N).
    { apply N.div_str_pos. lia. }
    specialize (IH (n / 10)%N ltac:(apply N.div_lt; lia) Q).
    destruct (N_toString (n / 10)) as [|c r] eqn:E.
    + now destruct (N_toString_nonempty (n / 10)).
    + simpl in *. exact IH.
Qed.

(** ** Splitting, padding and trimming *)

Lemma split_free c a : free_of c a = true -> split c a = [a].
Proof.
  induction a as [|d r IH]; simpl; intros H; [reflexivity|].
  apply andb_prop in H as [H1 H2]. apply negb_true_iff in H1.
  now rewrite H1, IH.
Qed.

Lemma split_append c a b :
  free_of c a = true -> split c (a ++ String c b) = a :: split c b.
Proof.
  induction a as [|d r IH]; simpl; intros H.
  - now rewrite Ascii.eqb_refl.
  - apply andb_prop in H as [H1 H2]. apply negb_true_iff in H1.
    now rewrite H1, IH.
Qed.

Lemma digits_free_of c s :
  is_digit c = false -> all_digits s = true -> free_of c s = true.
Proof.
  intros Hc. induction s as [|d r IH]; simpl; intros H; [reflexivity|].
  apply andb_prop in H as [H1 H2]. rewrite IH by exact H2.
  rewrite Ascii.eqb_sym, (digit_is_not d c H1 Hc). reflexivity.
Qed.

Lemma digits_plain s : all_digits s = true -> plain_text s = true.
Proof.
  induction s as [|d r IH]; simpl; intros H; [reflexivity|].
  apply andb_prop in H as [H1 H2]. rewrite IH by exact H2.
  rewrite (digit_is_not d "%" H1 eq_refl), (digit_is_not d "_" H1 eq_refl),
    (digit_is_not d "\" H1 eq_refl). reflexivity.
Qed.

Lemma plain_text_append a b :
  plain_text (a ++ b) = plain_text a && plain_text b.
Proof.
  induction a as [|x a IH]; simpl; [reflexivity|].
  now rewrite IH, andb_assoc.
Qed.

Lemma split_code stamp ds :
  free_of "-" stamp = true -> free_of "-" ds = true ->
  split "-" ("FA-" ++ stamp ++ "-" ++ ds) = ["FA"; stamp; ds].
Proof.
  intros H1 H2.
  change ("FA-" ++ stamp ++ "-" ++ ds)
    with ("FA" ++ String "-" (stamp ++ String "-" ds)).
  rewrite split_append by reflexivity.
  rewrite split_append by exact H1.
  now rewrite split_free.
Qed.

Lemma length_repeat_char c k : String.length (repeat_char c k) = k.
Proof.
  induction k; simpl; auto.
Qed.

Lemma length_padStart k c s :
  (String.length s <= k)%nat -> String.length (padStart k c s) = k.
Proof.
  intros H. unfold padStart. rewrite length_append, length_repeat_char. lia.
Qed.

Lemma all_digits_padStart k s :
  all_digits s = true -> all_digits (padStart k "0" s) = true.
Proof.
  intros H. unfold padStart.
  now rewrite all_digits_append, all_digits_zeros, H.
Qed.

Lemma slice0_append a b : slice0 (String.length a) (a ++ b) = a.
Proof.
  induction a as [|x a IH]; simpl.
  - destruct b; reflexivity.
  - now rewrite IH.
Qed.

Lemma remove_char_append c a b :
  remove_char c (a ++ b) = remove_char c a ++ remove_char c b.
Proof.
  induction a as [|x a IH]; simpl; [reflexivity|].
  destruct (Ascii.eqb c x); simpl; now rewrite IH.
Qed.

Lemma remove_char_free c s : free_of c s = true -> remove_char c s = s.
Proof.
  induction s as [|x s IH]; simpl; intros H; [reflexivity|].
  apply andb_prop in H as [H1 H2]. apply negb_true_iff in H1.
  now rewrite H1, IH.
Qed.

Lemma free_of_remove_char c s : free_of c (remove_char c s) = true.
Proof.
  induction s as [|x s IH]; simpl; [reflexivity|].
  destruct (Ascii.eqb c x) eqn:E; simpl; [exact IH|].
  now rewrite E, IH.
Qed.

(** ** The date stamp *)

Lemma date_stamp_free_of_dash d : free_of "-" (date_stamp d) = true.
Proof.
  apply free_of_remove_char.
Qed.

(** For a date whose year has four digits the stamp is year, month and
    day, which is eight digits. *)
Lemma date_stamp_valid d :
  valid_date d ->
  date_stamp d
  = padStart 4 "0" (N_toString (Z.to_N (year d)))
    ++ padStart 2 "0" (N_toString (month d))
    ++ padStart 2 "0" (N_toString (day d))
  /\ String.length (date_stamp d) = 8
  /\ all_digits (date_stamp d) = true.
Proof.
  intros (Hy & Hm & Hd).
  set (Y := padStart 4 "0" (N_toString (Z.to_N (year d)))).
  set (M := padStart 2 "0" (N_toString (month d))).
  set (D := padStart 2 "0" (N_toString (day d))).
  assert (LY : String.length Y = 4).
  { apply length_padStart, (N_toString_length 3). simpl. lia. }
  assert (LM : String.length M = 2).
  { apply length_padStart, (N_toString_length 1). simpl. lia. }
  assert (LD : String.length D = 2).
  { apply length_padStart, (N_toString_length 1). simpl. lia. }
  assert (DY : all_digits Y = true) by apply all_digits_padStart, N_toString_digits.
  assert (DM : all_digits M = true) by apply all_digits_padStart, N_toString_digits.
  assert (DD : all_digits D = true) by apply all_digits_padStart, N_toString_digits.
  assert (E : toISOString d = (Y ++ "-" ++ M ++ "-" ++ D) ++ "T").
  { unfold toISOString.
    replace ((0 <=? year d)%Z && (year d <=? 9999)%Z) with true
      by (symmetry; apply andb_true_intro; split; apply Z.leb_le; lia).
    replace (Z_toString (year d)) with (N_toString (Z.to_N (year d)))
      by (destruct (year d); [reflexivity | reflexivity | lia]).
    fold Y M D. now rewrite !append_assoc. }
  assert (S : date_stamp d = Y ++ M ++ D).
  { unfold date_stamp. rewrite E.
    replace 10%nat with (String.length (Y ++ "-" ++ M ++ "-" ++ D))
      by (rewrite !length_append, LY, LM, LD; reflexivity).
    rewrite slice0_append, !remove_char_append.
    rewrite (remove_char_free "-" Y), (remove_char_free "-" M),
      (remove_char_free "-" D) by (apply digits_free_of; auto).
    reflexivity. }
  rewrite S. repeat split.
  - rewrite !length_append, LY, LM, LD. reflexivity.
  - now rewrite !all_digits_append, DY, DM, DD.
Qed.

(** The stamp writes the year, the month and the day. *)
Lemma date_stamp_value d :
  valid_date d ->
  decimal_value (date_stamp d)
  = (Z.to_N (year d) * 10000 + month d * 100 + day d)%N.
Proof.
  intros V. destruct (date_stamp_valid d V) as (E & _ & _).
  destruct V as (Hy & Hm & Hd). rewrite E.
  assert (LM : String.length (padStart 2 "0" (N_toString (month d))) = 2%nat).
  { apply length_padStart, (N_toString_length 1). simpl. lia. }
  assert (LD : String.length (padStart 2 "0" (N_toString (day d))) = 2%nat).
  { apply length_padStart, (N_toString_length 1). simpl. lia. }
  rewrite !decimal_value_append, length_append, LM, LD, !decimal_value_padStart.
  simpl N.of_nat. lia.
Qed.

(** ** [LIKE] on patterns built around plain text *)

Lemma starts_with_iff p : forall s,
  starts_with p s = true <-> exists r, s = p ++ r.
Proof.
  induction p as [|a p IH]; intros s; simpl.
  - split; eauto.
  - destruct s as [|b s].
    + split; [discriminate | intros [r H]; discriminate].
    + rewrite andb_true_iff, Ascii.eqb_eq, IH. split.
      * intros [-> [r ->]]. eauto.
      * intros [r H]. injection H as -> ->. eauto.
Qed.

Lemma contains_iff q : forall s,
  contains q s = true <-> exists a b, s = a ++ q ++ b.
Proof.
  induction s as [|c s IH]; simpl.
  - rewrite orb_false_r, starts_with_iff. split.
    + intros [r H]. exists "", r. exact H.
    + intros (a & b & H). destruct a; [|discriminate]. eauto.
  - rewrite orb_true_iff, starts_with_iff, IH. split.
    + intros [[r H] | (a & b & H)].
      * exists "", r. exact H.
      * exists (String c a), b. simpl. now rewrite H.
    + intros (a & b & H). destruct a as [|x a]; simpl in H.
      * left. eauto.
      * right. injection H as _ H. eauto.
Qed.

Lemma any_run_ext f g :
  (forall s, f s = g s) ->
  forall s here, Sql.any_run f here s = Sql.any_run g here s.
Proof.
  intros E. induction s as [|c s IH]; intros here; simpl.
  - now rewrite E.
  - now rewrite E, IH.
Qed.

Lemma any_run_always : forall s here,
  (s = "" -> here = true) ->
  Sql.any_run (fun u => match u with "" => true | _ => false end) here s
  = true.
Proof.
  induction s as [|c s IH]; intros here H; simpl.
  - now rewrite H.
  - rewrite IH; [apply orb_true_r|]. now intros ->.
Qed.

Lemma like_any_run_last s : Sql.like_match [Sql.AnyRun] s = true.
Proof.
  simpl. now apply any_run_always.
Qed.

Lemma like_tokens_plain c r :
  negb (Ascii.eqb c "%" || Ascii.eqb c "_" || Ascii.eqb c "\") = true ->
  Sql.like_tokens (String c r) = Sql.Exactly c :: Sql.like_tokens r.
Proof.
  intros H. apply negb_true_iff in H.
  apply orb_false_elim in H as [H H3]. apply orb_false_elim in H as [H1 H2].
  simpl. now rewrite H1, H2, H3.
Qed.

(** A plain text followed by [%] asks for a beginning. *)
Lemma like_plain_prefix lit : forall s,
  plain_text lit = true ->
  Sql.like (lit ++ "%") s = starts_with lit s.
Proof.
  unfold Sql.like.
  induction lit as [|c lit IH]; intros s H.
  - change (Sql.like_tokens ("" ++ "%")) with [Sql.AnyRun].
    rewrite like_any_run_last. now destruct s.
  - simpl in H. apply andb_prop in H as [Hc Hl].
    change (String c lit ++ "%") with (String c (lit ++ "%")).
    rewrite like_tokens_plain by exact Hc.
    destruct s as [|d s]; simpl; [reflexivity|].
    now rewrite IH.
Qed.

Lemma any_run_occurs q : forall s here,
  Sql.any_run (starts_with q) here s = occurs_from here q s.
Proof.
  induction s as [|c s IH]; intros here; simpl; [reflexivity|].
  now rewrite IH.
Qed.

(** A plain text between two [%] asks for an occurrence which begins
    where a character begins. *)
Lemma like_plain_occurs q s :
  plain_text q = true ->
  Sql.like ("%" ++ q ++ "%") s = occurs q s.
Proof.
  intros H. unfold Sql.like, occurs.
  change (Sql.like_tokens ("%" ++ q ++ "%"))
    with (Sql.AnyRun :: Sql.like_tokens (q ++ "%")).
  simpl Sql.like_match.
  rewrite <- any_run_occurs. apply any_run_ext.
  intros u. now apply like_plain_prefix.
Qed.

Lemma lower_append a b : lower (a ++ b) = lower a ++ lower b.
Proof.
  induction a as [|x a IH]; simpl; [reflexivity | now rewrite IH].
Qed.

Lemma plain_lower_char c :
  negb (Ascii.eqb (lower_char c) "%" || Ascii.eqb (lower_char c) "_"
        || Ascii.eqb (lower_char c) "\")
  = negb (Ascii.eqb c "%" || Ascii.eqb c "_" || Ascii.eqb c "\").
Proof.
  destruct c as [[] [] [] [] [] [] [] []]; reflexivity.
Qed.

Lemma plain_text_lower s : plain_text (lower s) = plain_text s.
Proof.
  induction s as [|c s IH]; simpl; [reflexivity|].
  now rewrite plain_lower_char, IH.
Qed.

(** [ILIKE '%q%'], when the pattern in lower case is [%], the text in
    lower case and [%], and that text is plain, is an occurrence of the
    one text in lower case in the other. *)
Lemma ilike_plain_occurs pg_lower q s :
  pg_lower ("%" ++ q ++ "%") = "%" ++ pg_lower q ++ "%" ->
  plain_text (pg_lower q) = true ->
  Sql.ilike pg_lower ("%" ++ q ++ "%") s = occurs (pg_lower q) (pg_lower s).
Proof.
  intros E H. unfold Sql.ilike. rewrite E.
  now apply like_plain_occurs.
Qed.

(** ** The order of strings *)

Lemma leb_iff a b : String.leb a b = true <-> a = b \/ String_as_OT.lt a b.
Proof.
  unfold String.leb.
  pose proof (String_as_OT.cmp_eq a b) as He.
  pose proof (String_as_OT.cmp_lt a b) as Hl.
  unfold String_as_OT.cmp in *.
  destruct (String.compare a b) eqn:E.
  - split; auto. intros _. left. now apply He.
  - split; auto. intros _. right. now apply Hl.
  - split; [discriminate|]. intros [H|H].
    + apply He in H. discriminate.
    + apply Hl in H. discriminate.
Qed.

Lemma leb_refl a : String.leb a a = true.
Proof.
  apply leb_iff. now left.
Qed.

Lemma leb_trans a b c :
  String.leb a b = true -> String.leb b c = true -> String.leb a c = true.
Proof.
  rewrite !leb_iff. intros [->|H1] [->|H2]; auto.
  right. eapply String_as_OT.lt_trans; eauto.
Qed.

Lemma compare_append_head p a b :
  String.compare (p ++ a) (p ++ b) = String.compare a b.
Proof.
  induction p as [|c p IH]; simpl; [reflexivity|].
  assert (E : Ascii.compare c c = Eq) by (unfold Ascii.compare; apply N.compare_refl).
  now rewrite E.
Qed.

Lemma leb_append_head p a b :
  String.leb (p ++ a) (p ++ b) = String.leb a b.
Proof.
  unfold String.leb. now rewrite compare_append_head.
Qed.

Lemma greatest_none l : Sql.greatest l = None <-> l = [].
Proof.
  destruct l as [|x r]; simpl; [tauto|].
  destruct (Sql.greatest r); split; discriminate.
Qed.

(** [greatest] returns a member which no member exceeds. *)
Lemma greatest_some l : forall x,
  Sql.greatest l = Some x ->
  In x l /\ forall y, In y l -> String.leb y x = true.
Proof.
  induction l as [|a r IH]; simpl; intros x H; [discriminate|].
  destruct (Sql.greatest r) as [g|] eqn:G.
  - destruct (IH g eq_refl) as [Hin Hmax].
    injection H as H. destruct (String.leb a g) eqn:L; subst x.
    + split; [now right|]. intros y [->|Hy]; auto.
    + assert (La : String.leb g a = true).
      { destruct (String.leb_total a g) as [T|T]; congruence. }
      split; [now left|]. intros y [->|Hy]; [apply leb_refl|].
      eapply leb_trans; eauto.
  - injection H as ->. apply greatest_none in G. subst r.
    split; [now left|]. intros y [->|[]]. apply leb_refl.
Qed.

(** ** Statistics *)

Lemma count_where_status st l :
  Sql.count_where (has_status st) l
  = count_occ string_dec (map Mission.status l) st.
Proof.
  unfold Sql.count_where, has_status.
  induction l as [|m l IH]; simpl; [reflexivity|].
  destruct (string_dec (Mission.status m) st) as [E|E].
  - apply String.eqb_eq in E. rewrite E. simpl. now rewrite IH.
  - apply String.eqb_neq in E. now rewrite E.
Qed.

(** C9: the basic statistics are the number of missions and the number of
    missions in each of the statuses pending, in_progress, completed and
    cancelled; when the query fails the answer is still a success, with
    every count 0; the advanced statistics of a store without missions
    are all-zero basic counts, no monthly row, no top vehicle and an
    average processing time of 0. *)
Theorem C9_stats_counts_and_defaults
    (date_trunc_month minus_12_months : Timestamp -> Timestamp)
    (s : Store) (now : Timestamp) :
  let statuses := map Mission.status (missions s) in
  basicStats s true
  = ok (StatsRow
          (mkStats (List.length (missions s))
                   (count_occ string_dec statuses "pending")
                   (count_occ string_dec statuses "in_progress")
                   (count_occ string_dec statuses "completed")
                   (count_occ string_dec statuses "cancelled"))) None
  /\ basicStats s false = ok (StatsRow (mkStats 0 0 0 0 0)) None
  /\ http_status (basicStats s false) = 200
  /\ success (basicStats s false) = true
  /\ (missions s = [] ->
      advancedStats date_trunc_month minus_12_months s now true true true true
      = ok (AdvancedStats (mkStats 0 0 0 0 0) [] [] 0%Q) None).
Proof.
  cbv zeta. repeat split.
  - unfold basicStats, count_by_status.
    now rewrite !count_where_status.
  - intros E. unfold advancedStats, count_by_status, monthly_counts,
      top_vehicles, avg_hours.
    rewrite E. reflexivity.
Qed.

Lemma C9_stats_witness :
  advancedStats (fun t => t) (fun t => t) empty_store 0%Z true true true true
  = ok (AdvancedStats (mkStats 0 0 0 0 0) [] [] 0%Q) None.
Proof.
  apply (C9_stats_counts_and_defaults (fun t => t) (fun t => t) empty_store 0%Z).
  reflexivity.
Defined.

(** ** Routing *)

(** Whatever fits the search route fits the single-mission route, which
    comes first. *)
Lemma search_path_is_code_path path :
  match_path [Fixed "api"; Fixed "missions"; Fixed "search"] path <> None ->
  match_path [Fixed "api"; Fixed "missions"; Named "code"] path <> None.
Proof.
  destruct path as [|a [|b [|c [|d r]]]]; cbn [match_path]; try congruence.
  - destruct (lower "api" =? lower a); [|congruence].
    destruct (lower "missions" =? lower b); [|congruence].
    destruct (c =? "") eqn:E; [|intros _; discriminate].
    apply String.eqb_eq in E. subst c.
    change (lower "search" =? lower "") with false. congruence.
  - destruct (lower "api" =? lower a); [|congruence].
    destruct (lower "missions" =? lower b); [|congruence].
    destruct (lower "search" =? lower c); congruence.
Qed.

Lemma search_never_first m path params :
  first_match route_table m path <> Some (SearchMissions, params).
Proof.
  pose proof (search_path_is_code_path path) as S.
  unfold route_table.
  destruct m; cbn [first_match method_eqb];
    repeat match goal with
      | |- context [match match_path ?p path with _ => _ end] =>
          destruct (match_path p path) eqn:?
      end;
    try congruence.
  exfalso. apply S; congruence.
Qed.

(** C10: a GET of /api/missions/search goes to the single-mission handler
    with the token search; no request reaches the search handler; and when
    no mission has search for its code or its id, the answer is 404. *)
Theorem C10_search_route_shadowed (s : Store) :
  dispatch GET "/api/missions/search" = Some (GetMission, [("code", "search")])
  /\ (forall m path params, dispatch m path <> Some (SearchMissions, params))
  /\ ((forall m, In m (missions s) ->
         Mission.mission_code m <> "search"
         /\ Z_toString (Mission.id m) <> "search") ->
      NotFoundError (getMission Enhanced s true "search")
      /\ getMission Enhanced s true "search" = failure 404 "Mission introuvable").
Proof.
  split; [reflexivity|]. split.
  - intros m path params. apply search_never_first.
  - intros H. unfold getMission.
    assert (E : filter (matches_token "search") (missions s) = []).
    { induction (missions s) as [|m l IH]; [reflexivity|]. simpl.
      destruct (H m (or_introl eq_refl)) as [H1 H2].
      unfold matches_token.
      apply String.eqb_neq in H1, H2. rewrite H1, H2. simpl.
      apply IH. intros m' Hm'. apply H. now right. }
    rewrite E. split; [split|]; reflexivity.
Qed.

Lemma C10_search_route_witness :
  NotFoundError (getMission Enhanced empty_store true "search").
Proof.
  apply (C10_search_route_shadowed empty_store).
  intros m [].
Defined.

(** ** The mission code generator *)

Lemma code_prefix_plain stamp :
  all_digits stamp = true -> plain_text ("FA-" ++ stamp ++ "-") = true.
Proof.
  intros H. change ("FA-" ++ stamp ++ "-") with ("FA-" ++ (stamp ++ "-")).
  now rewrite !plain_text_append, (digits_plain stamp H).
Qed.

(** The lookup keeps the codes which begin with [FA-<stamp>-]. *)
Lemma last_code_filter s stamp :
  all_digits stamp = true ->
  last_code s ("FA-" ++ stamp ++ "-%")
  = Sql.greatest (filter (starts_with ("FA-" ++ stamp ++ "-")) (mission_codes s)).
Proof.
  intros H. unfold last_code. f_equal.
  apply filter_ext. intros c.
  replace ("FA-" ++ stamp ++ "-%") with (("FA-" ++ stamp ++ "-") ++ "%").
  - apply like_plain_prefix, code_prefix_plain, H.
  - simpl. now rewrite append_assoc.
Qed.

Lemma last_code_none s stamp :
  all_digits stamp = true ->
  (forall c, In c (mission_codes s) ->
             starts_with ("FA-" ++ stamp ++ "-") c = false) ->
  last_code s ("FA-" ++ stamp ++ "-%") = None.
Proof.
  intros H N. rewrite last_code_filter by exact H.
  apply greatest_none.
  induction (mission_codes s) as [|c l IH]; [reflexivity|]. cbn [filter].
  rewrite (N c (or_introl eq_refl)). apply IH.
  intros c' Hc'. apply N. now right.
Qed.

Lemma last_code_some s stamp :
  all_digits stamp = true ->
  (exists c, In c (mission_codes s)
             /\ starts_with ("FA-" ++ stamp ++ "-") c = true) ->
  exists last,
    last_code s ("FA-" ++ stamp ++ "-%") = Some last
    /\ In last (mission_codes s)
    /\ starts_with ("FA-" ++ stamp ++ "-") last = true
    /\ forall c, In c (mission_codes s) ->
                 starts_with ("FA-" ++ stamp ++ "-") c = true ->
                 String.leb c last = true.
Proof.
  intros H (c & Hc & Pc). rewrite last_code_filter by exact H.
  destruct (Sql.greatest (filter (starts_with ("FA-" ++ stamp ++ "-"))
                                 (mission_codes s))) as [last|] eqn:G.
  - exists last. split; [reflexivity|].
    apply greatest_some in G as [Hin Hmax].
    apply filter_In in Hin as [Hin Plast].
    repeat split; auto.
    intros c' Hc' Pc'. apply Hmax, filter_In. auto.
  - apply greatest_none in G.
    assert (In c (filter (starts_with ("FA-" ++ stamp ++ "-")) (mission_codes s)))
      as F by (apply filter_In; auto).
    rewrite G in F. destruct F.
Qed.

Lemma Z_toString_of_N n : Z_toString (Z.of_N n) = N_toString n.
Proof.
  destruct n; reflexivity.
Qed.

(** What the generator answers after a code whose sequence is the run of
    digits [ds]. *)
Lemma next_after_digits stamp ds :
  free_of "-" stamp = true ->
  all_digits ds = true -> ds <> "" ->
  number_toString
    (number_succ
       (parseInt_opt (nth_error (split "-" ("FA-" ++ stamp ++ "-" ++ ds)) 2)))
  = N_toString (decimal_value ds + 1).
Proof.
  intros H D N. rewrite split_code.
  - cbn [nth_error]. unfold parseInt_opt. rewrite (parseInt_decimal ds D N).
    cbn [number_succ number_toString].
    replace (Z.of_N (decimal_value ds) + 1)%Z
      with (Z.of_N (decimal_value ds + 1)) by lia.
    apply Z_toString_of_N.
  - exact H.
  - apply digits_free_of; [reflexivity | exact D].
Qed.

Lemma next_after_padded stamp k n :
  free_of "-" stamp = true ->
  number_toString
    (number_succ
       (parseInt_opt
          (nth_error
             (split "-" ("FA-" ++ stamp ++ "-" ++ repeat_char "0" k ++ N_toString n))
             2)))
  = N_toString (n + 1).
Proof.
  intros H. rewrite next_after_digits.
  - now rewrite decimal_value_padded.
  - exact H.
  - now rewrite all_digits_append, all_digits_zeros, N_toString_digits.
  - destruct k; [apply N_toString_nonempty | discriminate].
Qed.

(** What the generator writes for a sequence. *)
Lemma padded_writes n : writes_sequence n (padStart 3 "0" (N_toString n)).
Proof.
  unfold writes_sequence.
  split; [apply all_digits_padStart, N_toString_digits|].
  split; [apply decimal_value_padStart|]. split.
  - intros H. apply length_padStart, (N_toString_length 2). simpl. lia.
  - intros H. unfold padStart.
    assert (L : (3 < String.length (N_toString n))%nat).
    { destruct (le_lt_dec (String.length (N_toString n)) 3) as [L|L]; [|exact L].
      pose proof (decimal_value_bound (N_toString n) (N_toString_digits n)) as B.
      pose proof (decimal_value_padded 0 n) as E. simpl in E. rewrite E in B.
      assert (10 ^ N.of_nat (String.length (N_toString n)) <= 10 ^ 3)%N.
      { apply N.pow_le_mono_r; lia. }
      simpl in H0. lia. }
    replace (3 - String.length (N_toString n))%nat with O by lia.
    simpl. apply N_toString_no_zero_head. lia.
Qed.

(** C3: the generator computes the stamp of the date, eight digits which
    write the year, the month and the day; it looks up the highest code
    beginning with FA-stamp-, reads the sequence which follows that
    beginning (at most 15 digits, which JavaScript reads exactly) and
    answers FA-stamp- followed by the next sequence, on three digits below
    1000 and beyond without a zero at its head; it answers sequence 001
    when no code has that beginning; and when the lookup fails it answers
    the three digits of a number drawn at random instead of failing. *)
Theorem C3_generateMissionCode (s : Store) (now : Date) (rnd : N) :
  valid_date now ->
  (rnd < 1000)%N ->
  let stamp := date_stamp now in
  let head := "FA-" ++ stamp ++ "-" in
  String.length stamp = 8
  /\ all_digits stamp = true
  /\ decimal_value stamp
     = (Z.to_N (year now) * 10000 + month now * 100 + day now)%N
  /\ ((forall c, In c (mission_codes s) -> starts_with head c = false) ->
      generateMissionCode s now true rnd = head ++ "001")
  /\ ((exists c, In c (mission_codes s) /\ starts_with head c = true) ->
      exists last,
        In last (mission_codes s)
        /\ starts_with head last = true
        /\ (forall c, In c (mission_codes s) -> starts_with head c = true ->
                      String.leb c last = true)
        /\ forall ds,
             last = head ++ ds -> all_digits ds = true -> ds <> "" ->
             (String.length ds <= 15)%nat ->
             exists suffix,
               generateMissionCode s now true rnd = head ++ suffix
               /\ writes_sequence (decimal_value ds + 1) suffix)
  /\ exists suffix,
       generateMissionCode s now false rnd = head ++ suffix
       /\ writes_sequence rnd suffix.
Proof.
  intros V R stamp head.
  destruct (date_stamp_valid now V) as (_ & L & D).
  fold stamp in L, D.
  assert (A : forall x, "FA-" ++ stamp ++ "-" ++ x = head ++ x).
  { intros x. unfold head. simpl. now rewrite append_assoc. }
  split; [exact L|]. split; [exact D|].
  split; [now apply date_stamp_value|]. split; [|split].
  - intros N. unfold generateMissionCode. fold stamp.
    rewrite (last_code_none s stamp D N). apply A.
  - intros E. destruct (last_code_some s stamp D E) as (last & Q & I & P & M).
    exists last. repeat split; auto.
    intros ds F Dd Nd _.
    exists (padStart 3 "0" (N_toString (decimal_value ds + 1))).
    split; [|apply padded_writes].
    unfold generateMissionCode. fold stamp. rewrite Q.
    rewrite F, <- (A ds).
    rewrite next_after_digits
      by (try apply date_stamp_free_of_dash; assumption).
    apply A.
  - exists (padStart 3 "0" (N_toString rnd)).
    split; [|apply padded_writes].
    unfold generateMissionCode. fold stamp. apply A.
Qed.

Lemma C3_generateMissionCode_witness :
  decimal_value (date_stamp march_first) = 20240301%N
  /\ generateMissionCode (store_with_code "FA-20240301-007") march_first true 42
     = "FA-20240301-008"
  /\ exists suffix,
       generateMissionCode (store_with_code "FA-20240301-007") march_first
         true 42
       = "FA-20240301-" ++ suffix
       /\ String.length suffix = 3
       /\ decimal_value suffix = 8%N.
Proof.
  assert (V : valid_date march_first) by (unfold valid_date; simpl; lia).
  assert (R : (42 < 1000)%N) by lia.
  destruct (C3_generateMissionCode (store_with_code "FA-20240301-007")
              march_first 42 V R) as (_ & _ & S & _ & P & _).
  split; [exact S|]. split; [reflexivity|].
  destruct P as (last & I & _ & _ & F).
  - exists "FA-20240301-007". split; [now left | reflexivity].
  - destruct I as [<-|[]].
    destruct (F "007") as (suffix & G & _ & W & L & _).
    + reflexivity.
    + reflexivity.
    + discriminate.
    + simpl. lia.
    + exists suffix. split; [exact G|]. split; [apply L; simpl; lia | exact W].
Defined.

(** ** Updating missions by key *)

Section UpdateByKey.

Variable id : Z.
Variable f : Mission.t -> Mission.t.
Hypothesis f_keeps_id : forall m, Mission.id (f m) = Mission.id m.

Lemma find_update_same l :
  find (fun m => (Mission.id m =? id)%Z) (update_missions id f l)
  = option_map f (find (fun m => (Mission.id m =? id)%Z) l).
Proof.
  unfold update_missions.
  induction l as [|m l IH]; [reflexivity|]. cbn [map find].
  destruct (Mission.id m =? id)%Z eqn:E.
  - now rewrite f_keeps_id, E.
  - now rewrite E.
Qed.

Lemma find_update_other j l :
  j <> id ->
  find (fun m => (Mission.id m =? j)%Z) (update_missions id f l)
  = find (fun m => (Mission.id m =? j)%Z) l.
Proof.
  intros N. unfold update_missions.
  induction l as [|m l IH]; [reflexivity|]. cbn [map find].
  destruct (Mission.id m =? id)%Z eqn:E.
  - rewrite f_keeps_id. apply Z.eqb_eq in E.
    assert ((Mission.id m =? j)%Z = false) as -> by (apply Z.eqb_neq; lia).
    exact IH.
  - destruct (Mission.id m =? j)%Z; [reflexivity | exact IH].
Qed.

Lemma updated_rows_find l :
  updated_rows id f l
  = match find (fun m => (Mission.id m =? id)%Z) l with
    | Some m =>
        f m :: map f (filter (fun m => (Mission.id m =? id)%Z)
                             (tl (filter (fun m => (Mission.id m =? id)%Z) l)))
    | None => []
    end.
Proof.
  unfold updated_rows.
  induction l as [|m l IH]; [reflexivity|]. cbn [filter find].
  destruct (Mission.id m =? id)%Z eqn:E.
  - cbn [map tl]. f_equal. f_equal.
    clear. induction l as [|x l IH]; [reflexivity|]. cbn [filter].
    destruct (Mission.id x =? id)%Z eqn:E; cbn [filter]; rewrite ?E; congruence.
  - exact IH.
Qed.

End UpdateByKey.

Lemma includes_string l status :
  Body.includes l status = true ->
  exists st, status = Body.Str st /\ In st l.
Proof.
  destruct status; try discriminate. simpl. intros H.
  apply existsb_exists in H as (x & Hx & E).
  apply String.eqb_eq in E. subst. eauto.
Qed.

Lemma includes_member l st :
  In st l -> Body.includes l (Body.Str st) = true.
Proof.
  intros I. apply existsb_exists. exists st.
  split; [exact I | apply String.eqb_refl].
Qed.

Lemma find_mission_none s id :
  (forall m, In m (missions s) -> Mission.id m <> id) ->
  find_mission s id = None.
Proof.
  intros N. unfold find_mission.
  destruct (find _ (missions s)) as [m|] eqn:F; [|reflexivity].
  apply find_some in F as [I E]. apply Z.eqb_eq in E. now destruct (N m I).
Qed.

(** ** Keys which are integers of 32 bits *)

Lemma int4_range z :
  Pg.int4 z = true <-> (-2147483648 <= z <= 2147483647)%Z.
Proof.
  unfold Pg.int4. rewrite andb_true_iff, !Z.leb_le. tauto.
Qed.

Lemma not_int4 z :
  ~ (-2147483648 <= z <= 2147483647)%Z -> Pg.int4 z = false.
Proof.
  intros N. destruct (Pg.int4 z) eqn:E; [|reflexivity].
  apply int4_range in E. contradiction.
Qed.

(** ** Status changes *)

(** C1, as the two servers have it, [up] telling whether the store can be
    reached: the basic server knows four statuses and the enhanced one
    six; a status which is none of them is refused with 400 and nothing
    changes; for a recognized status, a key which is no integer of 32
    bits is answered 500 and nothing changes, and an integer of 32 bits
    which is the key of no mission is answered 404 and nothing changes;
    otherwise the mission takes the new status whatever the old one was,
    [started_at] becomes the current time exactly for in_progress,
    [completed_at] becomes the current time exactly for completed and is
    otherwise kept, so never cleared, the other missions are untouched,
    and [updated_at] becomes the current time in the enhanced server and
    is kept by the basic one. *)
Theorem C1_setStatus (v : Variant) (s : Store) (now : Timestamp)
    (up : bool) (id : Z) (status : Body.value) :
  (recognized Basic = ["pending"; "in_progress"; "completed"; "cancelled"]
   /\ recognized Enhanced = ["pending"; "assigned"; "in_progress";
                             "photos_taken"; "completed"; "cancelled"])
  /\ ((forall st, status = Body.Str st -> ~ In st (recognized v)) ->
      ValidationError (snd (setStatus_served v s now up id status))
      /\ fst (setStatus_served v s now up id status) = s)
  /\ (forall st,
        status = Body.Str st -> In st (recognized v) ->
        ~ (-2147483648 <= id <= 2147483647)%Z ->
        http_status (snd (setStatus_served v s now up id status)) = 500
        /\ success (snd (setStatus_served v s now up id status)) = false
        /\ fst (setStatus_served v s now up id status) = s)
  /\ (forall st,
        status = Body.Str st -> In st (recognized v) ->
        (-2147483648 <= id <= 2147483647)%Z ->
        (forall m, In m (missions s) -> Mission.id m <> id) ->
        NotFoundError (snd (setStatus_served v s now true id status))
        /\ fst (setStatus_served v s now true id status) = s)
  /\ (forall st m,
        status = Body.Str st -> In st (recognized v) ->
        (-2147483648 <= id <= 2147483647)%Z ->
        find_mission s id = Some m ->
        let s' := fst (setStatus_served v s now true id status) in
        let r := snd (setStatus_served v s now true id status) in
        http_status r = 200
        /\ exists m',
             find_mission s' id = Some m'
             /\ data r = Some (MissionRow m')
             /\ Mission.status m' = st
             /\ Mission.started_at m'
                = (if st =? "in_progress" then Some now else Mission.started_at m)
             /\ Mission.completed_at m'
                = (if st =? "completed" then Some now else Mission.completed_at m)
             /\ (Mission.completed_at m <> None -> Mission.completed_at m' <> None)
             /\ Mission.updated_at m'
                = match v with
                  | Enhanced => now
                  | Basic => Mission.updated_at m
                  end
             /\ Mission.mission_code m' = Mission.mission_code m
             /\ Mission.created_at m' = Mission.created_at m
             /\ forall j, j <> id -> find_mission s' j = find_mission s j).
Proof.
  unfold setStatus_served.
  split; [now split|]. split; [|split; [|split]].
  - intros N.
    assert (H : Body.includes (recognized v) status = false).
    { destruct (Body.includes (recognized v) status) eqn:H; [|reflexivity].
      destruct (includes_string _ _ H) as (st & E & I). now destruct (N st E). }
    unfold setStatus. rewrite H. split; [split|]; reflexivity.
  - intros st -> I N. rewrite (not_int4 _ N), andb_false_r.
    unfold setStatus. rewrite (includes_member _ _ I). now repeat split.
  - intros st -> I R N. apply int4_range in R. rewrite R. cbn [andb].
    unfold setStatus. rewrite (includes_member _ _ I). cbn [negb].
    rewrite updated_rows_find.
    pose proof (find_mission_none s id N) as F. unfold find_mission in F.
    rewrite F. split; [split|]; reflexivity.
  - intros st m -> I R F. cbv zeta. apply int4_range in R. rewrite R.
    cbn [andb]. unfold setStatus. rewrite (includes_member _ _ I). cbn [negb].
    rewrite updated_rows_find. pose proof F as F'. unfold find_mission in F'.
    rewrite F'. cbn [fst snd]. split; [reflexivity|].
    exists (apply_status v now st m).
    split; [|split; [reflexivity|]].
    { unfold find_mission. cbn [missions with_missions].
      rewrite find_update_same by reflexivity. now rewrite F'. }
    split; [reflexivity|]. split; [reflexivity|].
    assert (C : Mission.completed_at (apply_status v now st m)
                = (if st =? "completed" then Some now
                   else Mission.completed_at m)).
    { cbn [Mission.completed_at apply_status set_columns].
      destruct (st =? "in_progress") eqn:E; [|reflexivity].
      apply String.eqb_eq in E. subst st. reflexivity. }
    split; [exact C|]. split.
    { rewrite C. intros N. destruct (st =? "completed"); [discriminate | exact N]. }
    split; [destruct v; reflexivity|]. split; [reflexivity|].
    split; [reflexivity|].
    intros j N. unfold find_mission. cbn [missions with_missions].
    now apply find_update_other.
Qed.

Lemma C1_setStatus_witness :
  exists m',
    find_mission
      (fst (setStatus_served Enhanced finished_store 50%Z true 1
              (Body.Str "completed"))) 1
    = Some m'
    /\ Mission.status m' = "completed"
    /\ Mission.completed_at m' = Some 50%Z
    /\ Mission.updated_at m' = 50%Z.
Proof.
  destruct (C1_setStatus Enhanced finished_store 50%Z true 1
              (Body.Str "completed")) as (_ & _ & _ & _ & H).
  destruct (H "completed"
              (sample_mission 1 "FA-20240301-001" "Renault" "Clio" "A"
                 "in_progress" 10%Z None))
    as (_ & m' & F & _ & S & _ & C & _ & U & _).
  - reflexivity.
  - simpl. tauto.
  - lia.
  - reflexivity.
  - exists m'. split; [exact F|]. split; [exact S|].
    split; [exact C | exact U].
Defined.

(** The basic server completes a mission without touching [updated_at];
    and a key beyond the integers of 32 bits, which no mission has, is
    answered 500 and not 404. *)
Lemma C1_basic_keeps_updated_at :
  (exists m',
     find_mission
       (fst (setStatus_served Basic finished_store 50%Z true 1
               (Body.Str "completed"))) 1
     = Some m'
     /\ Mission.status m' = "completed"
     /\ Mission.completed_at m' = Some 50%Z
     /\ Mission.updated_at m' = 10%Z
     /\ Mission.updated_at m' <> 50%Z)
  /\ find_mission finished_store 2147483648 = None
  /\ setStatus_served Enhanced finished_store 50%Z true 2147483648
       (Body.Str "completed")
     = (finished_store, failure 500 "Erreur lors de la mise à jour du statut").
Proof.
  split; [|split; reflexivity].
  eexists. split; [reflexivity|]. repeat split. discriminate.
Qed.

(** ** Creating missions *)

Lemma truthy_prepared x :
  Body.truthy x = true -> exists t, Body.prepareValue x = Some t.
Proof.
  destruct x; simpl; try discriminate; eauto.
Qed.

Lemma required_all_truthy b :
  (forall x, In x (required_fields b) -> Body.truthy x = true) ->
  existsb (fun x => negb (Body.truthy x)) (required_fields b) = false.
Proof.
  intros H. destruct (existsb _ _) eqn:E; [|reflexivity].
  apply existsb_exists in E as (x & Hx & N).
  rewrite (H x Hx) in N. discriminate.
Qed.


Lemma code_taken_false code s :
  ~ In code (mission_codes s) ->
  existsb (String.eqb code) (mission_codes s) = false.
Proof.
  intros N. destruct (existsb _ _) eqn:E; [|reflexivity].
  apply existsb_exists in E as (x & Hx & Q).
  apply String.eqb_eq in Q. subst. contradiction.
Qed.

(** The row a successful insert adds, and where. *)
Lemma insert_mission_accepts v s now code b :
  (forall x, In x (required_fields b) -> Body.truthy x = true) ->
  ~ In code (mission_codes s) ->
  exists row,
    insert_mission v s now code b
    = (with_missions s (missions s ++ [row]) (missions_id_seq s + 1), Some row)
    /\ Mission.mission_code row = code
    /\ Mission.status row = "pending"
    /\ Mission.created_at row = now
    /\ Body.prepareValue (CreateBody.vehicleBrand b) = Some (Mission.vehicle_brand row)
    /\ Body.prepareValue (CreateBody.vehicleModel b) = Some (Mission.vehicle_model row)
    /\ Body.prepareValue (CreateBody.pickupLocation b)
       = Some (Mission.pickup_location row)
    /\ Body.prepareValue (CreateBody.deliveryLocation b)
       = Some (Mission.delivery_location row)
    /\ Body.prepareValue (CreateBody.clientName b) = Some (Mission.client_name row)
    /\ Body.prepareValue (CreateBody.clientEmail b) = Some (Mission.client_email row).
Proof.
  intros T N. unfold insert_mission.
  destruct (truthy_prepared _ (T _ (or_introl eq_refl))) as [t1 ->].
  destruct (truthy_prepared _ (T _ (or_intror (or_introl eq_refl)))) as [t2 ->].
  destruct (truthy_prepared _
    (T _ (or_intror (or_intror (or_introl eq_refl))))) as [t3 ->].
  destruct (truthy_prepared _
    (T _ (or_intror (or_intror (or_intror (or_introl eq_refl)))))) as [t4 ->].
  destruct (truthy_prepared _
    (T _ (or_intror (or_intror (or_intror (or_intror (or_introl eq_refl)))))))
    as [t5 ->].
  destruct (truthy_prepared _
    (T _ (or_intror (or_intror (or_intror (or_intror (or_intror
            (or_introl eq_refl)))))))) as [t6 ->].
  rewrite (code_taken_false code s N).
  eexists. split; [reflexivity|]. repeat split.
Qed.

(** A code stored by [create] was not in the store before. *)
Lemma create_stores_fresh_code v s now_js now rnd lookup_ok insert_ok b :
  http_status (snd (create v s now_js now rnd lookup_ok insert_ok b)) = 201 ->
  exists row,
    missions (fst (create v s now_js now rnd lookup_ok insert_ok b))
    = (missions s ++ [row])%list
    /\ Mission.mission_code row = generateMissionCode s now_js lookup_ok rnd
    /\ ~ In (Mission.mission_code row) (mission_codes s).
Proof.
  unfold create.
  destruct (existsb _ (required_fields b)); [discriminate|].
  destruct insert_ok; [|discriminate].
  unfold insert_mission.
  destruct (Body.prepareValue (CreateBody.vehicleBrand b)); [|discriminate].
  destruct (Body.prepareValue (CreateBody.vehicleModel b)); [|discriminate].
  destruct (Body.prepareValue (CreateBody.pickupLocation b)); [|discriminate].
  destruct (Body.prepareValue (CreateBody.deliveryLocation b)); [|discriminate].
  destruct (Body.prepareValue (CreateBody.clientName b)); [|discriminate].
  destruct (Body.prepareValue (CreateBody.clientEmail b)); [|discriminate].
  destruct (existsb _ (mission_codes s)) eqn:E; [discriminate|].
  intros _. eexists. split; [reflexivity|]. split; [reflexivity|].
  cbn [Mission.mission_code]. intros I.
  assert (existsb (String.eqb (generateMissionCode s now_js lookup_ok rnd))
                  (mission_codes s) = true) as X.
  { apply existsb_exists. eexists. split; [exact I | apply String.eqb_refl]. }
  congruence.
Qed.




(** ** Sequences of a day *)

Lemma code_of_head stamp n :
  code_of stamp n
  = ("FA-" ++ stamp ++ "-")
    ++ repeat_char "0" (3 - String.length (N_toString n)) ++ N_toString n.
Proof.
  unfold code_of, padStart. simpl. now rewrite append_assoc.
Qed.

Lemma code_of_starts stamp n :
  starts_with ("FA-" ++ stamp ++ "-") (code_of stamp n) = true.
Proof.
  apply starts_with_iff. rewrite code_of_head. eauto.
Qed.

Lemma code_of_injective stamp a b : code_of stamp a = code_of stamp b -> a = b.
Proof.
  rewrite !code_of_head. intros H. apply append_inv_head in H.
  pose proof (read_digits_padded (3 - String.length (N_toString a)) a) as Ra.
  rewrite H, read_digits_padded in Ra. congruence.
Qed.

Lemma code_of_pattern stamp n :
  String.length stamp = 8 -> all_digits stamp = true -> (n < 1000)%N ->
  code_pattern (code_of stamp n) = true.
Proof.
  intros L D B. unfold code_pattern, code_of.
  rewrite split_code.
  - rewrite L, D, length_padStart, all_digits_padStart.
    + reflexivity.
    + apply N_toString_digits.
    + apply (N_toString_length 2). simpl. lia.
  - apply digits_free_of; [reflexivity | exact D].
  - apply digits_free_of; [reflexivity|].
    apply all_digits_padStart, N_toString_digits.
Qed.

(** Below 1000, padded sequences are ordered as the numbers are. *)
Lemma padded_step k :
  (k < 999)%N ->
  String.leb (padStart 3 "0" (N_toString k))
             (padStart 3 "0" (N_toString (k + 1))) = true.
Proof.
  intros H.
  assert (A : forallb
                (fun i => String.leb (padStart 3 "0" (N_toString (N.of_nat i)))
                            (padStart 3 "0" (N_toString (N.of_nat i + 1))))
                (seq 0 999) = true) by (vm_compute; reflexivity).
  rewrite forallb_forall in A.
  specialize (A (N.to_nat k)). rewrite N2Nat.id in A.
  apply A, in_seq. lia.
Qed.

Lemma padded_monotone d : forall k,
  (k + N.of_nat d < 1000)%N ->
  String.leb (padStart 3 "0" (N_toString k))
             (padStart 3 "0" (N_toString (k + N.of_nat d))) = true.
Proof.
  induction d as [|d IH]; intros k H.
  - rewrite N.add_0_r. apply leb_refl.
  - apply leb_trans with (padStart 3 "0" (N_toString (k + N.of_nat d))).
    + apply IH. lia.
    + replace (k + N.of_nat (S d))%N with (k + N.of_nat d + 1)%N by lia.
      apply padded_step. lia.
Qed.

Lemma code_of_monotone stamp k n :
  (k <= n)%N -> (n < 1000)%N ->
  String.leb (code_of stamp k) (code_of stamp n) = true.
Proof.
  intros H B. unfold code_of.
  change ("FA-" ++ stamp ++ "-" ++ padStart 3 "0" (N_toString k))
    with ("FA-" ++ (stamp ++ "-" ++ padStart 3 "0" (N_toString k))).
  change ("FA-" ++ stamp ++ "-" ++ padStart 3 "0" (N_toString n))
    with ("FA-" ++ (stamp ++ "-" ++ padStart 3 "0" (N_toString n))).
  rewrite leb_append_head, leb_append_head.
  change ("-" ++ padStart 3 "0" (N_toString k))
    with ("-" ++ (padStart 3 "0" (N_toString k))).
  rewrite (leb_append_head "-").
  replace n with (k + N.of_nat (N.to_nat (n - k)))%N by lia.
  apply padded_monotone. lia.
Qed.

(** With the sequences 1 to [n] taken, the generator answers [n + 1]. *)
Lemma generate_after_day s now rnd n :
  valid_date now -> (n < 1000)%N ->
  day_codes_upto s (date_stamp now) n ->
  generateMissionCode s now true rnd = code_of (date_stamp now) (n + 1).
Proof.
  intros V B [Only All].
  destruct (date_stamp_valid now V) as (_ & _ & D).
  unfold generateMissionCode.
  destruct (N.eq_dec n 0) as [->|NZ].
  - rewrite last_code_none; [reflexivity | exact D |].
    intros c I. destruct (starts_with _ c) eqn:P; [|reflexivity].
    destruct (Only c I P) as (k & K & _). lia.
  - destruct (last_code_some s (date_stamp now) D) as (last & -> & I & P & M).
    { exists (code_of (date_stamp now) n).
      split; [apply All; lia | apply code_of_starts]. }
    destruct (Only last I P) as (k & K & ->).
    assert (k = n) as ->.
    { apply (code_of_injective (date_stamp now)).
      apply String.leb_antisym.
      - apply code_of_monotone; lia.
      - apply M; [apply All; lia | apply code_of_starts]. }
    change (code_of (date_stamp now) n)
      with ("FA-" ++ date_stamp now ++ "-"
            ++ repeat_char "0" (3 - String.length (N_toString n))
            ++ N_toString n).
    rewrite next_after_padded by apply date_stamp_free_of_dash.
    reflexivity.
Qed.

(** A code with a sequence of three digits is the code the generator
    writes for that sequence. *)
Lemma sequence_code_iff stamp k c :
  (k < 1000)%N -> (sequence_code stamp k c <-> c = code_of stamp k).
Proof.
  intros B. destruct (padded_writes k) as (D & V & L & _).
  specialize (L B). split.
  - intros (ds & -> & Ld & Dd & Vd). unfold code_of. do 3 f_equal.
    apply decimal_value_same; congruence.
  - intros ->. exists (padStart 3 "0" (N_toString k)). now repeat split.
Qed.

(** With [n] the highest sequence of the date, the generator answers
    [n + 1]. *)
Lemma generate_after_highest s now rnd n :
  valid_date now -> (n < 1000)%N ->
  day_codes_within s (date_stamp now) n ->
  generateMissionCode s now true rnd = code_of (date_stamp now) (n + 1).
Proof.
  intros V B [Only Top].
  destruct (date_stamp_valid now V) as (_ & _ & D).
  unfold generateMissionCode.
  destruct (existsb (starts_with ("FA-" ++ date_stamp now ++ "-"))
              (mission_codes s)) eqn:X.
  - apply existsb_exists in X as (c0 & I0 & P0).
    destruct (last_code_some s (date_stamp now) D) as (last & -> & I & P & M).
    { eauto. }
    destruct (Only last I P) as (k & K & Sk).
    apply sequence_code_iff in Sk; [|lia]. subst last.
    assert (k = n) as ->.
    { destruct Top as [->|(c & Ic & Sc)]; [lia|].
      apply sequence_code_iff in Sc; [|lia]. subst c.
      apply (code_of_injective (date_stamp now)).
      apply String.leb_antisym.
      - apply code_of_monotone; lia.
      - apply M; [exact Ic | apply code_of_starts]. }
    change (code_of (date_stamp now) n)
      with ("FA-" ++ date_stamp now ++ "-"
            ++ repeat_char "0" (3 - String.length (N_toString n))
            ++ N_toString n).
    rewrite next_after_padded by apply date_stamp_free_of_dash.
    reflexivity.
  - assert (N : forall c, In c (mission_codes s) ->
                starts_with ("FA-" ++ date_stamp now ++ "-") c = false).
    { intros c I. destruct (starts_with _ c) eqn:P; [|reflexivity].
      assert (existsb (starts_with ("FA-" ++ date_stamp now ++ "-"))
                (mission_codes s) = true) as Y
        by (apply existsb_exists; eauto).
      congruence. }
    rewrite (last_code_none s _ D N).
    destruct Top as [->|(c & Ic & Sc)]; [reflexivity|].
    apply sequence_code_iff in Sc; [|lia]. subst c.
    pose proof (code_of_starts (date_stamp now) n) as Y.
    specialize (N _ Ic). congruence.
Qed.

(** C2, amended: a code stored by [create] was not in the store at that
    moment; its stamp is the eight digits which write the year, the month
    and the day of creation; when the codes of the creation date have
    sequences of three digits of which n is the highest (0 when the date
    has no code), with n below 999, the stored code is FA-stamp- followed
    by n + 1 on three digits, and when the sequences 1 to n are all in
    use, n + 1 is the smallest positive sequence not in use for that
    date; and a code made without the lookup has a sequence of three
    digits as well. *)
Theorem C2_mission_code_sequence (v : Variant) (s : Store) (now_js : Date)
    (now : Timestamp) (rnd : N) (lookup_ok insert_ok : bool)
    (b : CreateBody.t) (n : N) :
  let out := create v s now_js now rnd lookup_ok insert_ok b in
  let stamp := date_stamp now_js in
  (http_status (snd out) = 201 ->
   exists row,
     missions (fst out) = (missions s ++ [row])%list
     /\ Mission.mission_code row = generateMissionCode s now_js lookup_ok rnd
     /\ ~ In (Mission.mission_code row) (mission_codes s))
  /\ (valid_date now_js ->
      String.length stamp = 8 /\ all_digits stamp = true
      /\ decimal_value stamp
         = (Z.to_N (year now_js) * 10000 + month now_js * 100 + day now_js)%N)
  /\ (valid_date now_js -> (n < 999)%N ->
      day_codes_within s stamp n ->
      (forall x, In x (required_fields b) -> Body.truthy x = true) ->
      lookup_ok = true -> insert_ok = true ->
      http_status (snd out) = 201
      /\ exists row,
           missions (fst out) = (missions s ++ [row])%list
           /\ sequence_code stamp (n + 1) (Mission.mission_code row)
           /\ code_pattern (Mission.mission_code row) = true
           /\ ~ In (Mission.mission_code row) (mission_codes s)
           /\ ((forall k, (1 <= k <= n)%N ->
                  exists c, In c (mission_codes s) /\ sequence_code stamp k c) ->
               forall k, (1 <= k)%N ->
                 (forall c, In c (mission_codes s) ->
                            ~ sequence_code stamp k c) ->
                 (n + 1 <= k)%N))
  /\ (valid_date now_js -> (rnd < 1000)%N -> lookup_ok = false ->
      sequence_code stamp rnd (generateMissionCode s now_js lookup_ok rnd)
      /\ code_pattern (generateMissionCode s now_js lookup_ok rnd) = true).
Proof.
  cbv zeta. split; [|split; [|split]].
  - apply create_stores_fresh_code.
  - intros V. destruct (date_stamp_valid now_js V) as (_ & L & D).
    split; [exact L|]. split; [exact D|]. now apply date_stamp_value.
  - intros V B Day T -> ->.
    destruct (date_stamp_valid now_js V) as (_ & L & D).
    assert (B' : (n < 1000)%N) by lia.
    pose proof (generate_after_highest s now_js rnd n V B' Day) as G.
    assert (Fresh : ~ In (code_of (date_stamp now_js) (n + 1)) (mission_codes s)).
    { intros I. destruct Day as [Only _].
      destruct (Only _ I (code_of_starts _ _)) as (k & K & E).
      apply sequence_code_iff in E; [|lia].
      apply code_of_injective in E. lia. }
    unfold create. rewrite (required_all_truthy b T), G.
    destruct (insert_mission_accepts v s now _ b T Fresh)
      as (row & -> & C & _).
    cbn [fst snd http_status missions with_missions].
    split; [reflexivity|]. exists row.
    split; [reflexivity|]. rewrite C.
    split; [apply sequence_code_iff; [lia | reflexivity]|].
    split; [apply code_of_pattern; auto; lia|].
    split; [exact Fresh|].
    intros All k K U.
    destruct (N.lt_ge_cases k (n + 1)) as [Lt|Ge]; [|exact Ge].
    destruct (All k ltac:(lia)) as (c & Ic & Sc). now destruct (U c Ic).
  - intros V R ->.
    destruct (date_stamp_valid now_js V) as (_ & L & D).
    change (generateMissionCode s now_js false rnd)
      with (code_of (date_stamp now_js) rnd).
    split; [now apply sequence_code_iff | now apply code_of_pattern].
Qed.

Lemma gap_day_within : day_codes_within gap_day_store "20240301" 5.
Proof.
  split.
  - intros c [<-|[<-|[]]] _.
    + exists 1%N. split; [lia|]. exists "001". now repeat split.
    + exists 5%N. split; [lia|]. exists "005". now repeat split.
  - right. exists "FA-20240301-005". split; [right; now left|].
    exists "005". now repeat split.
Qed.

Lemma C2_mission_code_witness :
  exists row,
    missions (fst (create Enhanced gap_day_store march_first 0%Z 0 true true
                     clio_body))
    = (missions gap_day_store ++ [row])%list
    /\ Mission.mission_code row = "FA-20240301-006"
    /\ sequence_code "20240301" 6 (Mission.mission_code row)
    /\ code_pattern (Mission.mission_code row) = true.
Proof.
  destruct (C2_mission_code_sequence Enhanced gap_day_store march_first 0%Z 0
              true true clio_body 5) as (_ & _ & P & _).
  destruct P as (_ & row & M & C & Pat & _).
  - unfold valid_date. simpl. lia.
  - lia.
  - exact gap_day_within.
  - intros x Hx. simpl in Hx.
    repeat (destruct Hx as [<-|Hx]; [reflexivity|]). destruct Hx.
  - reflexivity.
  - reflexivity.
  - exists row. split; [exact M|]. split; [|split; [exact C | exact Pat]].
    apply (sequence_code_iff "20240301" 6) in C; [exact C | lia].
Defined.

(** After 999 missions on one date, the next code has a sequence of four
    digits; and on a date whose sequences are 1 and 5, the next code has
    sequence 6 although 2 is not in use. *)
Lemma C2_thousandth_code_has_four_digits :
  (let out := create Enhanced full_day_store march_first 0%Z 0 true true
                clio_body in
   http_status (snd out) = 201
   /\ exists row,
        In row (missions (fst out))
        /\ ~ In row (missions full_day_store)
        /\ Mission.mission_code row = "FA-20240301-1000"
        /\ code_pattern (Mission.mission_code row) = false)
  /\ (let out := create Enhanced gap_day_store march_first 0%Z 0 true true
                   clio_body in
      exists row,
        missions (fst out) = (missions gap_day_store ++ [row])%list
        /\ Mission.mission_code row = "FA-20240301-006"
        /\ mission_codes gap_day_store
           = ["FA-20240301-001"; "FA-20240301-005"]).
Proof.
  split.
  - cbv zeta.
    pose proof (create_stores_fresh_code Enhanced full_day_store march_first
                  0%Z 0 true true clio_body) as F.
    assert (G : generateMissionCode full_day_store march_first true 0
                = "FA-20240301-1000") by (vm_compute; reflexivity).
    assert (H : http_status
                  (snd (create Enhanced full_day_store march_first 0%Z 0 true
                          true clio_body)) = 201) by (vm_compute; reflexivity).
    split; [exact H|].
    destruct (F H) as (row & M & C & Fresh).
    exists row. rewrite M, C, G.
    split; [apply in_or_app; right; now left|].
    split.
    + intros I. apply Fresh. unfold mission_codes.
      apply in_map_iff. exists row. split; [reflexivity | exact I].
    + split; reflexivity.
  - cbv zeta. eexists. split; [reflexivity|]. split; reflexivity.
Qed.

(** ** Upserts *)

Section KeyedRows.

Context {A K : Type}.
Variable key : A -> K.
Variable hit : A -> bool.
Variable the_key : K.

Hypothesis hit_key : forall x, hit x = true <-> key x = the_key.

Lemma find_none_filter l : find hit l = None -> filter hit l = [].
Proof.
  induction l as [|x l IH]; [reflexivity|]. cbn [find filter].
  destruct (hit x); [discriminate | exact IH].
Qed.

Lemma find_none_key l : find hit l = None -> ~ In the_key (map key l).
Proof.
  intros F I. apply in_map_iff in I as (x & Kx & Ix).
  apply hit_key in Kx. apply (find_none _ _ F) in Ix. congruence.
Qed.

(** Under a unique key, the row found is the only one hit. *)
Lemma unique_hit l old :
  NoDup (map key l) -> find hit l = Some old -> filter hit l = [old].
Proof.
  induction l as [|x l IH]; [discriminate|]. cbn [map find filter].
  intros N F. inversion N as [|? ? Nx Nl]; subst.
  destruct (hit x) eqn:E.
  - injection F as ->. f_equal.
    destruct (filter hit l) as [|y r] eqn:Q; [reflexivity|].
    exfalso. apply Nx.
    assert (In y (filter hit l)) as I by (rewrite Q; now left).
    apply filter_In in I as [I Hy].
    apply hit_key in E, Hy. rewrite E, <- Hy. now apply in_map.
  - now apply IH.
Qed.

(** Under a unique key, a row with the key is the row found. *)
Lemma unique_found l x :
  NoDup (map key l) -> In x l -> key x = the_key -> find hit l = Some x.
Proof.
  intros N I Kx.
  assert (X : In x (filter hit l))
    by (apply filter_In; split; [exact I | now apply hit_key]).
  destruct (find hit l) as [y|] eqn:F.
  - rewrite (unique_hit l y N F) in X. destruct X as [->|[]]. reflexivity.
  - rewrite (find_none_filter l F) in X. destruct X.
Qed.

End KeyedRows.

Section Upsert.

Context {A K : Type}.
Variable key : A -> K.
Variable hit : A -> bool.
Variable the_key : K.
Variable set : A -> A.
Variable row : A.

Hypothesis hit_key : forall x, hit x = true <-> key x = the_key.
Hypothesis set_keeps_key : forall x, key (set x) = key x.
Hypothesis row_key : key row = the_key.

Lemma hit_set x : hit (set x) = hit x.
Proof.
  destruct (hit x) eqn:E.
  - apply hit_key. rewrite set_keeps_key. now apply hit_key.
  - destruct (hit (set x)) eqn:E'; [|reflexivity].
    apply hit_key in E'. rewrite set_keeps_key in E'.
    apply hit_key in E'. congruence.
Qed.

Lemma filter_hit_update l :
  filter hit (map (fun x => if hit x then set x else x) l)
  = map set (filter hit l).
Proof.
  induction l as [|x l IH]; [reflexivity|]. cbn [map filter].
  destruct (hit x) eqn:E.
  - rewrite hit_set, E. cbn [map]. now rewrite IH.
  - now rewrite E.
Qed.

Lemma keys_update l :
  map key (map (fun x => if hit x then set x else x) l) = map key l.
Proof.
  induction l as [|x l IH]; [reflexivity|]. cbn [map].
  rewrite IH. destruct (hit x); [now rewrite set_keeps_key | reflexivity].
Qed.

(** After an upsert exactly one row holds the key: the row returned. *)
Lemma upsert_one_row l :
  NoDup (map key l) ->
  filter hit (fst (Sql.upsert hit set row l)) = [snd (Sql.upsert hit set row l)]
  /\ NoDup (map key (fst (Sql.upsert hit set row l))).
Proof.
  intros N. unfold Sql.upsert.
  destruct (find hit l) as [old|] eqn:F; cbn [fst snd].
  - rewrite filter_hit_update, keys_update,
      (unique_hit key hit the_key hit_key l old N F).
    split; [reflexivity | exact N].
  - rewrite filter_app, (find_none_filter hit l F). cbn [filter].
    assert (hit row = true) as -> by now apply hit_key.
    split; [reflexivity|].
    rewrite map_app. cbn [map].
    apply Permutation_NoDup with (l := key row :: map key l).
    + apply Permutation_cons_append.
    + constructor; [|exact N].
      rewrite row_key. now apply (find_none_key key hit the_key hit_key).
Qed.




End Upsert.

(** ** Photo uploads *)

Lemma same_slot_key missionId t p :
  same_slot missionId t p = true <-> slot_of p = (missionId, t).
Proof.
  unfold same_slot, slot_of.
  rewrite andb_true_iff, Z.eqb_eq, String.eqb_eq.
  split; [intros [-> ->]; reflexivity | intros E; now injection E].
Qed.

Lemma allowed_mimetype f :
  In (mimetype f) allowedTypes ->
  existsb (String.eqb (mimetype f)) allowedTypes = true.
Proof.
  intros I. apply existsb_exists. exists (mimetype f).
  split; [exact I | apply String.eqb_refl].
Qed.


(** *** What the columns take *)












(** ** Inspections *)

Lemma inspection_key id i :
  (Inspection.mission_id i =? id)%Z = true <-> Inspection.mission_id i = id.
Proof.
  apply Z.eqb_eq.
Qed.




(** *** What the [JSONB] column keeps of an object *)












(** ** Ordering *)

Section OrderByFacts.

Context {A : Type}.
Variable le : A -> A -> bool.

Hypothesis le_total : forall a b, le a b = true \/ le b a = true.
Hypothesis le_trans :
  forall a b c, le a b = true -> le b c = true -> le a c = true.

Let R (a b : A) : Prop := le a b = true.

Lemma insert_sorted_perm x l :
  Permutation (Sql.insert_sorted le x l) (x :: l).
Proof.
  induction l as [|y r IH]; cbn [Sql.insert_sorted]; [reflexivity|].
  destruct (le x y); [reflexivity|].
  rewrite IH. apply perm_swap.
Qed.

Lemma order_by_perm l : Permutation (Sql.order_by le l) l.
Proof.
  induction l as [|x r IH]; cbn [Sql.order_by]; [reflexivity|].
  rewrite insert_sorted_perm. now constructor.
Qed.

Lemma insert_sorted_sorted x l :
  StronglySorted R l -> StronglySorted R (Sql.insert_sorted le x l).
Proof.
  induction l as [|y r IH]; cbn [Sql.insert_sorted]; intros S.
  - repeat constructor.
  - inversion S as [|? ? Sr Fy]; subst.
    destruct (le x y) eqn:E.
    + constructor; [exact S|]. constructor; [exact E|].
      eapply Forall_impl; [|exact Fy]. intros z Hz. unfold R in *. eauto.
    + constructor; [now apply IH|].
      assert (F : Forall (R y) (x :: r)).
      { constructor; [|exact Fy].
        destruct (le_total x y) as [T|T]; [congruence | exact T]. }
      rewrite Forall_forall in *. intros z Hz. apply F.
      eapply Permutation_in; [apply insert_sorted_perm | exact Hz].
Qed.

Lemma order_by_sorted l : StronglySorted R (Sql.order_by le l).
Proof.
  induction l as [|x r IH]; cbn [Sql.order_by]; [constructor|].
  now apply insert_sorted_sorted.
Qed.

End OrderByFacts.

Lemma sorted_split {A : Type} (R : A -> A -> Prop) a : forall b,
  StronglySorted R (a ++ b) ->
  forall x y, In x a -> In y b -> R x y.
Proof.
  induction a as [|h a IH]; intros b S x y Hx Hy; [destruct Hx|].
  cbn [app] in S. inversion S as [|? ? Sr Fh]; subst.
  destruct Hx as [<-|Hx].
  - rewrite Forall_forall in Fh. apply Fh, in_or_app. now right.
  - eapply IH; eauto.
Qed.

Lemma sorted_firstn {A : Type} (R : A -> A -> Prop) n l :
  StronglySorted R l -> StronglySorted R (firstn n l).
Proof.
  revert l. induction n as [|n IH]; intros l S; [constructor|].
  destruct l as [|x l]; [constructor|]. cbn [firstn].
  inversion S as [|? ? Sr Fx]; subst.
  constructor; [now apply IH|].
  rewrite Forall_forall in *. intros y Hy. apply Fx.
  rewrite <- (firstn_skipn n l). apply in_or_app. now left.
Qed.

Lemma sorted_impl {A : Type} (R Q : A -> A -> Prop) l :
  (forall a b, R a b -> Q a b) ->
  StronglySorted R l -> StronglySorted Q l.
Proof.
  intros H. induction 1 as [|x l S IH F]; constructor; auto.
  eapply Forall_impl; [|exact F]. auto.
Qed.

Lemma sorted_map {A B : Type} (f : A -> B) (R : A -> A -> Prop)
    (Q : B -> B -> Prop) l :
  (forall a b, R a b -> Q (f a) (f b)) ->
  StronglySorted R l -> StronglySorted Q (map f l).
Proof.
  intros H. induction 1 as [|x l S IH F]; cbn [map]; constructor; auto.
  rewrite Forall_forall in *. intros y Hy.
  apply in_map_iff in Hy as (a & <- & Ha). auto.
Qed.

Lemma oldest_upload_first_total a b :
  oldest_upload_first a b = true \/ oldest_upload_first b a = true.
Proof.
  unfold oldest_upload_first. rewrite !Z.leb_le. lia.
Qed.

Lemma oldest_upload_first_trans a b c :
  oldest_upload_first a b = true -> oldest_upload_first b c = true ->
  oldest_upload_first a c = true.
Proof.
  unfold oldest_upload_first. rewrite !Z.leb_le. lia.
Qed.

Lemma newest_first_total a b :
  newest_first a b = true \/ newest_first b a = true.
Proof.
  unfold newest_first. rewrite !Z.leb_le. lia.
Qed.

Lemma newest_first_trans a b c :
  newest_first a b = true -> newest_first b c = true -> newest_first a c = true.
Proof.
  unfold newest_first. rewrite !Z.leb_le. lia.
Qed.

(** ** The aggregated view *)

Lemma photos_column_sorted s m :
  Permutation (photos_column s m) (map summary (photos_of s m))
  /\ StronglySorted by_upload_time (photos_column s m).
Proof.
  unfold photos_column.
  assert (P : Permutation
                (map summary (Sql.order_by oldest_upload_first (photos_of s m)))
                (map summary (photos_of s m)))
    by apply Permutation_map, order_by_perm.
  assert (S : StronglySorted by_upload_time
                (map summary (Sql.order_by oldest_upload_first (photos_of s m)))).
  { apply sorted_map with (R := fun a b => oldest_upload_first a b = true).
    - intros a b H. unfold by_upload_time, oldest_upload_first in *.
      now apply Z.leb_le.
    - apply order_by_sorted.
      + apply oldest_upload_first_total.
      + apply oldest_upload_first_trans. }
  destruct (map summary (Sql.order_by oldest_upload_first (photos_of s m)))
    as [|x l] eqn:E; cbn [json_agg coalesce].
  - split; [exact P | constructor].
  - split; assumption.
Qed.

Lemma photos_column_empty s m : photos_of s m = [] -> photos_column s m = [].
Proof.
  intros E. unfold photos_column. now rewrite E.
Qed.

Lemma matches_token_iff code m :
  matches_token code m = true
  <-> Mission.mission_code m = code \/ Z_toString (Mission.id m) = code.
Proof.
  unfold matches_token. now rewrite orb_true_iff, !String.eqb_eq.
Qed.

Lemma filter_none {A : Type} (f : A -> bool) (l : list A) :
  (forall x, In x l -> f x = false) -> filter f l = [].
Proof.
  induction l as [|x l IH]; intros H; [reflexivity|]. cbn [filter].
  rewrite (H x (or_introl eq_refl)). apply IH. intros y Hy. apply H. now right.
Qed.

(** C6, amended: while the store can be reached, the single-mission
    lookup answers 500 for a token with a zero byte, which the store
    refuses; for any other token it answers 404 when no mission has the
    token for its code or for its id written in decimal, and otherwise
    the view of a mission which has it: the mission's own fields; the
    checklist (as the driver parses it), key count and optional-photo
    count of the inspection of the mission, all three null when it has
    none; and one summary (id, type, locator, file name, upload time) for
    each photo of the mission, oldest upload first, which is the empty
    sequence when the mission has no photo. *)
Theorem C6_getMission (s : Store) (code : string) :
  let r := getMission_served Enhanced s true code in
  (Pg.text code = false -> http_status r = 500 /\ success r = false)
  /\ (Pg.text code = true ->
      (forall m, In m (missions s) ->
         Mission.mission_code m <> code /\ Z_toString (Mission.id m) <> code) ->
      NotFoundError r)
  /\ (Pg.text code = true ->
      (exists m, In m (missions s)
                 /\ (Mission.mission_code m = code
                     \/ Z_toString (Mission.id m) = code)) ->
      exists m view,
        In m (missions s)
        /\ (Mission.mission_code m = code \/ Z_toString (Mission.id m) = code)
        /\ r = ok (MissionAggregate view) None
        /\ view_mission view = m
        /\ ((forall i, In i (inspections s) ->
               Inspection.mission_id i <> Mission.id m) ->
            view_inspection view = Some (None, None, None))
        /\ (forall i, unique_inspections s -> In i (inspections s) ->
              Inspection.mission_id i = Mission.id m ->
              view_inspection view
              = Some (option_map Body.parsed (Inspection.checklist i),
                      Inspection.key_count i,
                      Inspection.optional_photos_count i))
        /\ Permutation (view_photos view)
             (map (fun p => mkSummary (Photo.id p) (Photo.photo_type p)
                              (Photo.storage_url p) (Photo.filename p)
                              (Photo.uploaded_at p))
                  (filter (fun p => (Photo.mission_id p =? Mission.id m)%Z)
                          (mission_photos s)))
        /\ StronglySorted by_upload_time (view_photos view)
        /\ ((forall p, In p (mission_photos s) ->
               Photo.mission_id p <> Mission.id m) ->
            view_photos view = [])).
Proof.
  cbv zeta. unfold getMission_served, getMission. split; [|split].
  - intros ->. now split.
  - intros -> N. cbn [andb].
    rewrite filter_none; [split; reflexivity|].
    intros m I. destruct (N m I) as [N1 N2].
    destruct (matches_token code m) eqn:M; [|reflexivity].
    apply matches_token_iff in M. tauto.
  - intros -> (m0 & I0 & M0). cbn [andb].
    destruct (filter (matches_token code) (missions s)) as [|m l] eqn:E.
    + assert (In m0 (filter (matches_token code) (missions s))) as X
        by (apply filter_In; split; [exact I0 | now apply matches_token_iff]).
      rewrite E in X. destruct X.
    + assert (In m (filter (matches_token code) (missions s))) as X
        by (rewrite E; now left).
      apply filter_In in X as [I M]. apply matches_token_iff in M.
      exists m, (aggregate Enhanced s m).
      destruct (photos_column_sorted s m) as [P S].
      split; [exact I|]. split; [exact M|]. split; [reflexivity|].
      split; [reflexivity|]. split.
      { intros N. cbn. unfold inspection_columns, inspection_of.
        destruct (find _ (inspections s)) as [i|] eqn:F; [|reflexivity].
        apply find_some in F as [Fi Fk]. apply Z.eqb_eq in Fk.
        now destruct (N i Fi). }
      split.
      { intros i U Ii Ki. cbn. unfold inspection_columns, inspection_of.
        now rewrite (unique_found Inspection.mission_id _ (Mission.id m)
                       (inspection_key (Mission.id m)) _ i U Ii Ki). }
      split; [exact P|]. split; [exact S|].
      intros N. apply photos_column_empty. unfold photos_of.
      apply filter_none. intros p Ip. apply Z.eqb_neq. now apply N.
Qed.

Lemma C6_getMission_witness :
  exists view,
    getMission_served Enhanced inspected_store true "FA-20240301-001"
    = ok (MissionAggregate view) None
    /\ view_mission view = renault
    /\ view_inspection view
       = Some (Some (Body.JObj [("10", Body.JNum 4); ("b", Body.JNull)]),
               Some "2", None)
    /\ view_photos view
       = [mkSummary 2 "front" "https://photos.example/front" "20_f.jpg" 20%Z;
          mkSummary 1 "rear" "https://photos.example/rear" "30_r.jpg" 30%Z].
Proof.
  destruct (C6_getMission inspected_store "FA-20240301-001") as (_ & _ & H).
  destruct H as (m & view & I & _ & R & V & _ & J & P & S & _).
  - reflexivity.
  - exists renault. split; [now left | now left].
  - destruct I as [<-|[]].
    exists view. split; [exact R|]. split; [exact V|]. split.
    + apply (J renault_inspection).
      * repeat constructor. simpl. tauto.
      * now left.
      * reflexivity.
    + cbn [filter inspected_store mission_photos rear_photo front_photo
           Photo.mission_id Mission.id renault sample_mission Z.eqb Pos.eqb
           map Photo.id Photo.photo_type Photo.storage_url Photo.filename
           Photo.uploaded_at] in P.
      destruct view as [vm vi [|a [|b [|c l]]]]; cbn [view_photos] in *;
        try (apply Permutation_length in P; discriminate).
      inversion S as [|? ? S' F']; subst. inversion F' as [|? ? Hab _]; subst.
      apply Permutation_length_2_inv in P as [P|P]; injection P as <- <-.
      * unfold by_upload_time in Hab. simpl in Hab. lia.
      * reflexivity.
Defined.

(** A token with a zero byte, which is the code and the key of no
    mission: the answer is 500 and not 404. *)
Lemma C6_zero_byte_token_refused :
  let token := String Ascii.zero "" in
  getMission_served Enhanced inspected_store true token
  = failure 500 "Erreur lors de la récupération de la mission"
  /\ forall m, In m (missions inspected_store) ->
       Mission.mission_code m <> token /\ Z_toString (Mission.id m) <> token.
Proof.
  split; [reflexivity|].
  intros m [<-|[]]. split; discriminate.
Qed.

(** ** Search *)

Lemma free_text_clause_iff pg_lower x m :
  free_text_clause pg_lower x m = true
  <-> (forall t, supplied x = Some t ->
         Sql.ilike pg_lower ("%" ++ t ++ "%") (Mission.mission_code m) = true
         \/ Sql.ilike pg_lower ("%" ++ t ++ "%") (Mission.client_name m) = true
         \/ Sql.ilike pg_lower ("%" ++ t ++ "%") (Mission.vehicle_brand m) = true
         \/ Sql.ilike pg_lower ("%" ++ t ++ "%") (Mission.vehicle_model m)
            = true).
Proof.
  unfold free_text_clause.
  destruct (supplied x) as [t|].
  - cbv zeta. rewrite !orb_true_iff. split.
    + intros H u U. injection U as <-. tauto.
    + intros H. specialize (H t eq_refl). tauto.
  - split; [intros _ t U; discriminate | reflexivity].
Qed.

Lemma brand_clause_iff pg_lower x m :
  brand_clause pg_lower x m = true
  <-> (forall t, supplied x = Some t ->
         Sql.ilike pg_lower ("%" ++ t ++ "%") (Mission.vehicle_brand m) = true).
Proof.
  unfold brand_clause.
  destruct (supplied x) as [t|].
  - split.
    + intros H u U. now injection U as <-.
    + intros H. now apply H.
  - split; [intros _ t U; discriminate | reflexivity].
Qed.

Lemma status_clause_iff x m :
  status_clause x m = true
  <-> (forall t, supplied x = Some t -> Mission.status m = t).
Proof.
  unfold status_clause. destruct (supplied x) as [t|].
  - rewrite String.eqb_eq. split.
    + intros H u U. now injection U as <-.
    + intros H. now apply H.
  - split; [intros _ t U; discriminate | reflexivity].
Qed.

Lemma from_clause_iff lo m :
  from_clause lo m = true
  <-> (forall ts, lo = Some ts -> (ts <= Mission.created_at m)%Z).
Proof.
  unfold from_clause. destruct lo as [ts|].
  - rewrite Z.leb_le. split.
    + intros H u U. now injection U as <-.
    + intros H. now apply H.
  - split; [intros _ t U; discriminate | reflexivity].
Qed.

Lemma to_clause_iff hi m :
  to_clause hi m = true
  <-> (forall ts, hi = Some ts -> (Mission.created_at m <= ts)%Z).
Proof.
  unfold to_clause. destruct hi as [ts|].
  - rewrite Z.leb_le. split.
    + intros H u U. now injection U as <-.
    + intros H. now apply H.
  - split; [intros _ t U; discriminate | reflexivity].
Qed.

(** The [WHERE] clause built by the handler holds of the missions
    which match every supplied filter. *)
Lemma search_where_matched pg_lower f lo hi m :
  search_where pg_lower f lo hi m = true <-> matched pg_lower f lo hi m.
Proof.
  unfold search_where, matched.
  rewrite !andb_true_iff, free_text_clause_iff, brand_clause_iff,
    status_clause_iff, from_clause_iff, to_clause_iff.
  tauto.
Qed.

(** With plain filter texts, matching is what the specification asks. *)
Lemma matched_wanted pg_lower f lo hi m :
  plain_filter pg_lower (q f) ->
  plain_filter pg_lower (vehicleBrand f) ->
  matched pg_lower f lo hi m <-> wanted pg_lower f lo hi m.
Proof.
  intros Pq Pb. unfold matched, wanted.
  assert (Q : forall t x, supplied (q f) = Some t ->
                Sql.ilike pg_lower ("%" ++ t ++ "%") x
                = occurs (pg_lower t) (pg_lower x)).
  { intros t x U. destruct (Pq t U) as (_ & P & E).
    now apply ilike_plain_occurs. }
  assert (B : forall t x, supplied (vehicleBrand f) = Some t ->
                Sql.ilike pg_lower ("%" ++ t ++ "%") x
                = occurs (pg_lower t) (pg_lower x)).
  { intros t x U. destruct (Pb t U) as (_ & P & E).
    now apply ilike_plain_occurs. }
  split.
  - intros (H1 & H2 & H3 & H4 & H5). split.
    { intros t U. rewrite <- !(Q t _ U). now apply H1. }
    split; [exact H2|]. split; [exact H3|]. split; [exact H4|].
    intros t U. rewrite <- (B t _ U). now apply H5.
  - intros (H1 & H2 & H3 & H4 & H5). split.
    { intros t U. rewrite !(Q t _ U). now apply H1. }
    split; [exact H2|]. split; [exact H3|]. split; [exact H4|].
    intros t U. rewrite (B t _ U). now apply H5.
Qed.

Lemma firstn_length_le {A : Type} n (l : list A) :
  (List.length (firstn n l) <= n)%nat.
Proof.
  rewrite length_firstn. lia.
Qed.

(** The first [n] of a sorted list: whatever is left out comes after all
    of them, and then there are [n] of them. *)
Lemma firstn_keeps_first {A : Type} (R : A -> A -> Prop) n (l : list A) x :
  StronglySorted R l -> In x l ->
  In x (firstn n l)
  \/ (List.length (firstn n l) = n /\ forall r, In r (firstn n l) -> R r x).
Proof.
  intros S I. rewrite <- (firstn_skipn n l) in I, S.
  apply in_app_or in I as [I|I]; [now left | right]. split.
  - rewrite length_firstn. apply Nat.min_l.
    destruct (le_lt_dec n (List.length l)) as [L|L]; [exact L|].
    rewrite skipn_all2 in I by lia. destruct I.
  - intros r Hr. now apply (sorted_split R _ _ S).
Qed.

Lemma no_filter_keeps_all pg_lower l :
  filter (search_where pg_lower (mkQuery None None None None None) None None) l
  = l.
Proof.
  induction l as [|m l IH]; [reflexivity|].
  cbn [filter]. change (search_where _ _ None None m) with true.
  cbn iota. now rewrite IH.
Qed.

Lemma search_served_taken pg_lower timestamp_in s f :
  filters_taken f ->
  search_served pg_lower timestamp_in s true f
  = search pg_lower timestamp_in s true f.
Proof.
  intros T. unfold search_served.
  assert (A : forall x,
            In x [q f; status f; dateFrom f; dateTo f; vehicleBrand f] ->
            Pg.text_param (supplied x) = true).
  { intros x I. destruct (supplied x) as [u|] eqn:E; [|reflexivity].
    now apply (T x I). }
  rewrite !A by (simpl; tauto). reflexivity.
Qed.

(** C8, amended: while the store can be reached, for filter texts without
    a zero byte and whatever the lower case of the database is, the rows
    returned are missions of the store which match every supplied filter
    (the free text, as the pattern [%text%] in which [%] and [_] are
    wildcards, against the code, the client name, the brand or the model,
    both put in lower case; the status equal; the creation time within
    the bounds, themselves included; the brand filter, as a pattern too,
    against the brand); they are at most 100, newest first; a mission
    which matches and is not returned is no newer than any of the 100
    returned; without filters the rows are the 100 newest missions.  For
    filter texts without [%], [_] and backslash, a mission matches when
    and only when each text occurs, once both are in lower case, in one
    of the four fields, or in the brand.  When the lower case of Renault
    is renault and [%ren%] is left as it is, a completed Renault of the
    store matches the filters status completed, brand ren. *)
Theorem C8_search (pg_lower : string -> string)
    (timestamp_in : string -> option Timestamp) (s : Store)
    (f : SearchQuery) (lo hi : option Timestamp) :
  filters_taken f ->
  date_bound timestamp_in (dateFrom f) = Some lo ->
  date_bound timestamp_in (dateTo f) = Some hi ->
  exists rows,
    search_served pg_lower timestamp_in s true f = ok (MissionRows rows) None
    /\ (List.length rows <= 100)%nat
    /\ StronglySorted newer_or_same rows
    /\ (forall m, In m rows -> In m (missions s) /\ matched pg_lower f lo hi m)
    /\ (forall m, In m (missions s) -> matched pg_lower f lo hi m ->
          In m rows
          \/ (List.length rows = 100%nat
              /\ forall r, In r rows -> newer_or_same r m))
    /\ (plain_filter pg_lower (q f) ->
        plain_filter pg_lower (vehicleBrand f) ->
        forall m, matched pg_lower f lo hi m <-> wanted pg_lower f lo hi m)
    /\ (f = mkQuery None None None None None ->
        rows = firstn 100 (Sql.order_by newest_first (missions s))
        /\ forall m, In m (missions s) ->
             In m rows
             \/ (List.length rows = 100%nat
                 /\ forall r, In r rows -> newer_or_same r m))
    /\ (f = mkQuery None (Some "completed") None None (Some "ren") ->
        pg_lower "%ren%" = "%ren%" ->
        pg_lower "Renault" = "renault" ->
        forall m, In m (missions s) ->
          Mission.vehicle_brand m = "Renault" ->
          Mission.status m = "completed" ->
          In m rows
          \/ (List.length rows = 100%nat
              /\ forall r, In r rows -> newer_or_same r m)).
Proof.
  intros Taken Lo Hi. rewrite (search_served_taken _ _ _ _ Taken).
  set (found := filter (search_where pg_lower f lo hi) (missions s)).
  assert (S : StronglySorted newer_or_same (Sql.order_by newest_first found)).
  { apply sorted_impl with (R := fun a b => newest_first a b = true).
    - intros a b H. unfold newer_or_same, newest_first in *.
      now apply Z.leb_le.
    - apply order_by_sorted.
      + apply newest_first_total.
      + apply newest_first_trans. }
  assert (In_found : forall m,
            In m (Sql.order_by newest_first found)
            <-> In m (missions s) /\ matched pg_lower f lo hi m).
  { intros m. rewrite <- (search_where_matched pg_lower f lo hi m).
    unfold found. rewrite <- filter_In. split; intros H.
    - eapply Permutation_in; [apply order_by_perm | exact H].
    - eapply Permutation_in; [symmetry; apply order_by_perm | exact H]. }
  assert (Kept : forall m, In m (missions s) -> matched pg_lower f lo hi m ->
            In m (firstn 100 (Sql.order_by newest_first found))
            \/ (List.length (firstn 100 (Sql.order_by newest_first found))
                = 100%nat
                /\ forall r, In r (firstn 100 (Sql.order_by newest_first found))
                             -> newer_or_same r m)).
  { intros m I W. apply (firstn_keeps_first newer_or_same); [exact S|].
    apply In_found. auto. }
  exists (firstn 100 (Sql.order_by newest_first found)).
  split; [unfold search; now rewrite Lo, Hi|].
  split; [apply firstn_length_le|].
  split; [now apply sorted_firstn|].
  split.
  { intros m I. apply In_found.
    rewrite <- (firstn_skipn 100 (Sql.order_by newest_first found)).
    apply in_or_app. now left. }
  split; [exact Kept|].
  split; [intros Pq Pb m; now apply matched_wanted|].
  split.
  { intros F. split.
    - unfold found. rewrite F in *.
      cbn in Lo, Hi. injection Lo as <-. injection Hi as <-.
      now rewrite no_filter_keeps_all.
    - intros m I. apply Kept; [exact I|]. rewrite F.
      repeat split; intros t U; try discriminate.
      + cbn in Lo. rewrite F in Lo. cbn in Lo. congruence.
      + cbn in Hi. rewrite F in Hi. cbn in Hi. congruence. }
  intros F L1 L2 m I B St. apply Kept; [exact I|]. rewrite F.
  unfold matched. cbn [q status vehicleBrand supplied String.eqb Ascii.eqb].
  split; [intros t U; discriminate|].
  split; [intros t U; now injection U as <-|].
  split; [intros ts U; rewrite F in Lo; cbn in Lo; congruence|].
  split; [intros ts U; rewrite F in Hi; cbn in Hi; congruence|].
  intros t U. injection U as <-. unfold Sql.ilike.
  change ("%" ++ "ren" ++ "%") with "%ren%". rewrite L1, B, L2. reflexivity.
Qed.

Lemma C8_search_witness :
  search_served lower no_timestamp renault_store true
    (mkQuery None (Some "completed") None None (Some "ren"))
  = ok (MissionRows [renault]) None
  /\ exists rows,
       search_served lower no_timestamp renault_store true
         (mkQuery None (Some "completed") None None (Some "ren"))
       = ok (MissionRows rows) None
       /\ In renault rows
       /\ forall m, In m rows ->
            wanted lower (mkQuery None (Some "completed") None None (Some "ren"))
              None None m.
Proof.
  split; [reflexivity|].
  destruct (C8_search lower no_timestamp renault_store
              (mkQuery None (Some "completed") None None (Some "ren"))
              None None) as (rows & E & L & _ & M & _ & W & _ & Sc).
  - intros x I t U. simpl in I.
    repeat (destruct I as [<-|I]; [try discriminate U|]); try destruct I;
      cbn in U; injection U as <-; reflexivity.
  - reflexivity.
  - reflexivity.
  - exists rows. split; [exact E|]. split.
    + destruct (Sc eq_refl eq_refl eq_refl renault) as [I|[N _]].
      * now left.
      * reflexivity.
      * reflexivity.
      * exact I.
      * injection E as <-. discriminate N.
    + intros m I. apply W.
      * intros t U. discriminate.
      * intros t U. injection U as <-. repeat split.
      * now apply M.
Defined.

(** The free text r_n finds the Renault, in none of whose fields it
    occurs; and a free text with a zero byte is answered 500. *)
Lemma C8_wildcard_matches_without_occurrence :
  search_served lower no_timestamp renault_store true
    (mkQuery (Some "r_n") None None None None)
  = ok (MissionRows [renault]) None
  /\ contains_ci "r_n" (Mission.mission_code renault) = false
  /\ contains_ci "r_n" (Mission.client_name renault) = false
  /\ contains_ci "r_n" (Mission.vehicle_brand renault) = false
  /\ contains_ci "r_n" (Mission.vehicle_model renault) = false
  /\ ~ wanted lower (mkQuery (Some "r_n") None None None None) None None
         renault
  /\ search_served lower no_timestamp renault_store true
       (mkQuery (Some (String Ascii.zero "")) None None None None)
     = failure 500 "Erreur lors de la recherche".
Proof.
  repeat split.
  intros (H & _). destruct (H "r_n" eq_refl) as [X|[X|[X|X]]]; discriminate X.
Qed.

(** ** The constraints hold in every reachable store *)

Lemma update_missions_ids id f l :
  (forall m, Mission.id (f m) = Mission.id m) ->
  map Mission.id (update_missions id f l) = map Mission.id l.
Proof.
  intros H. unfold update_missions. rewrite map_map. apply map_ext.
  intros m. destruct (Mission.id m =? id)%Z; [apply H | reflexivity].
Qed.

Lemma update_missions_codes id f l :
  (forall m, Mission.mission_code (f m) = Mission.mission_code m) ->
  map Mission.mission_code (update_missions id f l)
  = map Mission.mission_code l.
Proof.
  intros H. unfold update_missions. rewrite map_map. apply map_ext.
  intros m. destruct (Mission.id m =? id)%Z; [apply H | reflexivity].
Qed.

Lemma mission_exists_ids s id :
  mission_exists s id = true <-> In id (map Mission.id (missions s)).
Proof.
  unfold mission_exists. rewrite existsb_exists, in_map_iff.
  split; intros (m & A & B).
  - apply Z.eqb_eq in B. eauto.
  - exists m. split; [exact B | now apply Z.eqb_eq].
Qed.

(** An [UPDATE] which keeps key and code keeps the constraints. *)
Lemma constraints_update s id f :
  (forall m, Mission.id (f m) = Mission.id m) ->
  (forall m, Mission.mission_code (f m) = Mission.mission_code m) ->
  constraints_hold s ->
  constraints_hold
    (with_missions s (update_missions id f (missions s)) (missions_id_seq s)).
Proof.
  intros Hi Hc (I & C & P & N & R).
  unfold constraints_hold, unique_ids, unique_codes, unique_slots,
    unique_inspections, references_hold, mission_codes in *.
  cbn [missions missions_id_seq mission_photos inspections with_missions].
  now rewrite update_missions_ids, update_missions_codes.
Qed.

(** Drawing from the sequence of [missions] keeps the constraints. *)
Lemma constraints_draw s :
  constraints_hold s ->
  constraints_hold (with_missions s (missions s) (missions_id_seq s + 1)).
Proof.
  intros ((I & B) & C & P & N & R).
  repeat split; try assumption; try apply R.
  cbn [missions missions_id_seq with_missions].
  eapply Forall_impl; [|exact B]. cbn beta. intros. lia.
Qed.

(** An accepted [INSERT] keeps the constraints. *)
Lemma constraints_insert s row :
  Mission.id row = (missions_id_seq s + 1)%Z ->
  ~ In (Mission.mission_code row) (mission_codes s) ->
  constraints_hold s ->
  constraints_hold
    (with_missions s (missions s ++ [row]) (missions_id_seq s + 1)).
Proof.
  intros Hid Hcode ((I & B) & C & P & N & (R1 & R2)).
  unfold constraints_hold, unique_ids, unique_codes, unique_slots,
    unique_inspections, references_hold, mission_codes in *.
  cbn [missions missions_id_seq mission_photos inspections with_missions].
  rewrite !map_app. cbn [map]. rewrite Hid.
  assert (Fresh : ~ In (missions_id_seq s + 1)%Z (map Mission.id (missions s))).
  { intros X. rewrite Forall_forall in B. apply B in X. lia. }
  assert (Add : forall {A : Type} (l : list A) x,
            NoDup l -> ~ In x l -> NoDup (l ++ [x])).
  { intros A l x Nl Nx. apply (Permutation_NoDup (l := x :: l)).
    - apply Permutation_cons_append.
    - now constructor. }
  repeat split; try assumption.
  - now apply Add.
  - apply Forall_app. split.
    + eapply Forall_impl; [|exact B]. cbn beta. intros. lia.
    + constructor; [lia | constructor].
  - now apply Add.
  - eapply Forall_impl; [|exact R1]. cbn beta. intros p Hp.
    apply in_or_app. now left.
  - eapply Forall_impl; [|exact R2]. cbn beta. intros i Hi.
    apply in_or_app. now left.
Qed.

Lemma upsert_forall {A : Type} (P : A -> Prop) hit set row (l : list A) :
  Forall P l -> (forall x, P x -> P (set x)) -> P row ->
  Forall P (fst (Sql.upsert hit set row l)).
Proof.
  intros F S R. unfold Sql.upsert. destruct (find hit l); cbn [fst].
  - induction F as [|x l Px F IH]; cbn [map]; constructor; auto.
    destruct (hit x); auto.
  - apply Forall_app. split; [exact F | now constructor].
Qed.

Lemma constraints_create v s now_js now rnd lookup_ok insert_ok b :
  constraints_hold s ->
  constraints_hold (fst (create v s now_js now rnd lookup_ok insert_ok b)).
Proof.
  intros H. unfold create.
  destruct (existsb _ (required_fields b)); [exact H|].
  destruct insert_ok; [|exact H].
  unfold insert_mission.
  destruct (Body.prepareValue (CreateBody.vehicleBrand b));
    [|now apply constraints_draw].
  destruct (Body.prepareValue (CreateBody.vehicleModel b));
    [|now apply constraints_draw].
  destruct (Body.prepareValue (CreateBody.pickupLocation b));
    [|now apply constraints_draw].
  destruct (Body.prepareValue (CreateBody.deliveryLocation b));
    [|now apply constraints_draw].
  destruct (Body.prepareValue (CreateBody.clientName b));
    [|now apply constraints_draw].
  destruct (Body.prepareValue (CreateBody.clientEmail b));
    [|now apply constraints_draw].
  destruct (existsb _ (mission_codes s)) eqn:E; [now apply constraints_draw|].
  cbn [fst]. apply constraints_insert; [reflexivity | | exact H].
  cbn [Mission.mission_code]. intros I.
  assert (existsb (String.eqb (generateMissionCode s now_js lookup_ok rnd))
                  (mission_codes s) = true) as X.
  { apply existsb_exists. eexists. split; [exact I | apply String.eqb_refl]. }
  congruence.
Qed.

Lemma constraints_setStatus v s now query_ok id st :
  constraints_hold s ->
  constraints_hold (fst (setStatus v s now query_ok id st)).
Proof.
  intros H. unfold setStatus.
  destruct (negb (Body.includes (recognized v) st)); [exact H|].
  destruct st; try exact H.
  destruct query_ok; [|exact H].
  destruct (updated_rows _ _ (missions s)); [exact H|].
  apply constraints_update; [reflexivity | reflexivity | exact H].
Qed.

Lemma constraints_updateObservations v s now query_ok id obs :
  constraints_hold s ->
  constraints_hold (fst (updateObservations v s now query_ok id obs)).
Proof.
  intros H. unfold updateObservations.
  destruct query_ok; [|exact H].
  destruct (updated_rows _ _ (missions s)); [exact H|].
  apply constraints_update; [reflexivity | reflexivity | exact H].
Qed.

Lemma constraints_setSignature v s now query_ok id sig :
  constraints_hold s ->
  constraints_hold (fst (setSignature v s now query_ok id sig)).
Proof.
  intros H. unfold setSignature.
  destruct (negb (Body.truthy sig)); [exact H|].
  destruct query_ok; [|exact H].
  destruct (updated_rows _ _ (missions s)); [exact H|].
  apply constraints_update; [reflexivity | reflexivity | exact H].
Qed.

Lemma constraints_upsert_inspection s now id b :
  constraints_hold s ->
  constraints_hold (fst (upsert_inspection s now id b)).
Proof.
  intros (I & C & P & N & (R1 & R2)). unfold upsert_inspection.
  destruct (mission_exists s id) eqn:E; cbn [negb].
  - set (fresh := Inspection.mk (inspections_id_seq s + 1) id
                    None None None None None now now).
    pose proof (upsert_one_row Inspection.mission_id
                  (fun i => (Inspection.mission_id i =? id)%Z) id
                  (overwrite_inspection now b)
                  (overwrite_inspection now b fresh)
                  (inspection_key id) (fun _ => eq_refl) eq_refl
                  (inspections s) N) as [_ Uniq].
    pose proof (upsert_forall
                  (fun i => In (Inspection.mission_id i)
                              (map Mission.id (missions s)))
                  (fun i => (Inspection.mission_id i =? id)%Z)
                  (overwrite_inspection now b)
                  (overwrite_inspection now b fresh) (inspections s) R2) as F.
    destruct (Sql.upsert _ _ _ (inspections s)) as [rows row].
    cbn [fst] in *. repeat split; try assumption; try apply I.
    apply F; [auto|]. now apply mission_exists_ids.
  - repeat split; try assumption; apply I.
Qed.

Lemma constraints_saveInspection s now upsert_ok update_ok id b :
  constraints_hold s ->
  constraints_hold (fst (saveInspection s now upsert_ok update_ok id b)).
Proof.
  intros H. unfold saveInspection.
  destruct upsert_ok; [|exact H].
  pose proof (constraints_upsert_inspection s now id b H) as H1.
  destruct (upsert_inspection s now id b) as [s1 [row|]]; cbn [fst] in *;
    [|exact H1].
  destruct update_ok; [|exact H1].
  now apply constraints_update.
Qed.

Lemma constraints_upsert_photo s now missionId photoType filename f url :
  constraints_hold s ->
  constraints_hold
    (fst (upsert_photo s now missionId photoType filename f url)).
Proof.
  intros (I & C & P & N & (R1 & R2)). unfold upsert_photo.
  destruct photoType as [t|]; [|repeat split; try assumption; apply I].
  destruct (mission_exists s missionId) eqn:E; cbn [negb].
  - set (fresh := Photo.mk (mission_photos_id_seq s + 1) missionId t filename
                    (Some (name f)) (Some (size f)) (Some (mimetype f)) url now
                    None None None).
    pose proof (upsert_one_row slot_of (same_slot missionId t) (missionId, t)
                  (overwrite_photo now filename f url) fresh
                  (same_slot_key missionId t) (fun _ => eq_refl) eq_refl
                  (mission_photos s) P) as [_ Uniq].
    pose proof (upsert_forall
                  (fun p => In (Photo.mission_id p) (map Mission.id (missions s)))
                  (same_slot missionId t)
                  (overwrite_photo now filename f url) fresh
                  (mission_photos s) R1) as F.
    destruct (Sql.upsert _ _ _ (mission_photos s)) as [rows row].
    cbn [fst] in *. repeat split; try assumption; try apply I.
    apply F; [auto|]. now apply mission_exists_ids.
  - repeat split; try assumption; apply I.
Qed.

Lemma constraints_uploadPhoto v s now_ms now check_ok upsert_ok missionId
    photoType photo :
  constraints_hold s ->
  constraints_hold
    (fst (uploadPhoto v s now_ms now check_ok upsert_ok missionId photoType
            photo)).
Proof.
  intros H. unfold uploadPhoto.
  destruct photo as [f|]; [|exact H].
  destruct (negb (existsb _ allowedTypes)); [exact H|].
  destruct check_ok; cbn [negb]; [|exact H].
  destruct (negb (mission_exists s missionId)); [exact H|].
  destruct upsert_ok; [|exact H].
  pose proof (constraints_upsert_photo s now missionId photoType
                (Z_toString now_ms ++ "_" ++ name f) f (mockUrl v photoType) H)
    as H1.
  now destruct (upsert_photo s now missionId photoType _ f _) as [s1 [row|]].
Qed.

(** The store after an upload, as the store answers it: as it was, or
    after the upsert of some row. *)
Lemma uploadPhoto_served_store v s now_ms now up_check up_upsert missionId
    photoType photo :
  fst (uploadPhoto_served v s now_ms now up_check up_upsert missionId photoType
         photo) = s
  \/ exists pt filename f url,
       fst (uploadPhoto_served v s now_ms now up_check up_upsert missionId
              photoType photo)
       = fst (upsert_photo s now missionId pt filename f url).
Proof.
  unfold uploadPhoto_served. destruct photo as [f|]; [|now left].
  destruct (negb (existsb _ allowedTypes)); [now left|].
  destruct (negb (up_check && _)); [now left|].
  destruct (negb (mission_exists s missionId)); [now left|].
  destruct (negb (up_upsert && _ && _ && _ && _)); [now left|].
  right. destruct photoType as [t|].
  - destruct (Pg.varchar 50 t) as [t'|];
      [|exists None, "", f, ""; reflexivity].
    destruct (Pg.varchar 255 _) as [filename'|];
      [|exists None, "", f, ""; reflexivity].
    destruct (Pg.varchar 255 (name f)) as [name'|];
      [|exists None, "", f, ""; reflexivity].
    destruct (Pg.varchar 100 _) as [mimetype'|];
      [|exists None, "", f, ""; reflexivity].
    exists (Some t'), filename', (mkFile name' (size f) mimetype'),
      (mockUrl v (Some t)).
    now destruct (upsert_photo s now missionId (Some t') filename' _ _)
      as [s1 [row|]].
  - exists None, (Z_toString now_ms ++ "_" ++ name f), f, (mockUrl v None).
    now destruct (upsert_photo s now missionId None _ f _) as [s1 [row|]].
Qed.

Lemma upsert_photo_missions s now missionId photoType filename f url :
  missions (fst (upsert_photo s now missionId photoType filename f url))
  = missions s.
Proof.
  unfold upsert_photo. destruct photoType as [t|]; [|reflexivity].
  destruct (negb (mission_exists s missionId)); [reflexivity|].
  now destruct (Sql.upsert _ _ _ (mission_photos s)).
Qed.

Lemma uploadPhoto_served_missions v s now_ms now up_check up_upsert missionId
    photoType photo :
  missions (fst (uploadPhoto_served v s now_ms now up_check up_upsert missionId
                   photoType photo))
  = missions s.
Proof.
  destruct (uploadPhoto_served_store v s now_ms now up_check up_upsert missionId
              photoType photo) as [->|(pt & fn & f & url & ->)];
    [reflexivity | apply upsert_photo_missions].
Qed.

Lemma constraints_step s s' : constraints_hold s -> step s s' -> constraints_hold s'.
Proof.
  intros H [].
  - now apply constraints_create.
  - now apply constraints_setStatus.
  - now apply constraints_saveInspection.
  - now apply constraints_uploadPhoto.
  - now apply constraints_updateObservations.
  - now apply constraints_setSignature.
  - destruct (uploadPhoto_served_store v s now_ms now up_check up_upsert
                missionId photoType photo) as [->|(pt & fn & f & url & ->)];
      [exact H | now apply constraints_upsert_photo].
Qed.

(** Whatever requests were served, keys and codes are unique, a mission
    has one inspection at most and one photo per type at most, and photos
    and inspections belong to missions of the store. *)
Lemma reachable_schema s : reachable s -> constraints_hold s.
Proof.
  induction 1 as [|s s' _ IH St].
  - repeat split; constructor.
  - now apply (constraints_step s s').
Qed.

Lemma created_on_march_first_reachable n : reachable (created_on_march_first n).
Proof.
  induction n as [|n IH]; cbn [created_on_march_first].
  - constructor.
  - eapply reachable_step; [exact IH | constructor].
Qed.

Lemma day_store_codes n :
  mission_codes (day_store n)
  = map (fun i => code_of "20240301" (N.of_nat i)) (seq 1 n).
Proof.
  unfold mission_codes, day_store, store_of. cbn [missions].
  now rewrite map_map.
Qed.

Lemma day_store_upto n :
  day_codes_upto (day_store n) "20240301" (N.of_nat n).
Proof.
  split.
  - intros c I _. rewrite day_store_codes in I.
    apply in_map_iff in I as (i & <- & I). apply in_seq in I.
    exists (N.of_nat i). split; [lia | reflexivity].
  - intros k K. rewrite day_store_codes. apply in_map_iff.
    exists (N.to_nat k). split; [now rewrite N2Nat.id | apply in_seq; lia].
Qed.

(** One more creation on 2024-03-01 turns the store of the sequences 1 to
    [n] into that of the sequences 1 to [n + 1], up to the thousandth. *)
Lemma create_on_day_store n :
  (n < 1000)%nat ->
  fst (create Basic (day_store n) march_first (Z.of_nat (S n)) 0 true true
         clio_body)
  = day_store (S n).
Proof.
  intros B.
  assert (V : valid_date march_first) by (unfold valid_date; simpl; lia).
  assert (G : generateMissionCode (day_store n) march_first true 0
              = code_of "20240301" (N.of_nat (S n))).
  { rewrite (generate_after_day (day_store n) march_first 0 (N.of_nat n) V).
    - change (date_stamp march_first) with "20240301". f_equal. lia.
    - lia.
    - apply day_store_upto. }
  assert (Fresh : existsb (String.eqb (code_of "20240301" (N.of_nat (S n))))
                    (mission_codes (day_store n)) = false).
  { apply code_taken_false. rewrite day_store_codes. intros I.
    apply in_map_iff in I as (i & E & I). apply in_seq in I.
    apply code_of_injective in E. lia. }
  unfold create.
  change (existsb _ (required_fields clio_body)) with false. cbv iota.
  rewrite G. unfold insert_mission.
  cbn [CreateBody.vehicleBrand CreateBody.vehicleModel
       CreateBody.pickupLocation CreateBody.deliveryLocation
       CreateBody.clientName CreateBody.clientEmail clio_body
       Body.prepareValue].
  rewrite Fresh. cbn [fst].
  unfold day_store. rewrite seq_S, map_app. cbn [map].
  unfold with_missions, store_of.
  cbn [missions missions_id_seq mission_photos mission_photos_id_seq
       inspections inspections_id_seq].
  rewrite length_app, !length_map, !length_seq. cbn [List.length].
  replace (Z.of_nat n + 1)%Z with (Z.of_nat (1 + n)) by lia.
  replace (n + 1)%nat with (1 + n)%nat by lia.
  reflexivity.
Qed.

Lemma created_on_march_first_is_day_store n :
  (n <= 1000)%nat -> created_on_march_first n = day_store n.
Proof.
  induction n as [|n IH]; intros B; [reflexivity|].
  cbn [created_on_march_first]. rewrite IH by lia.
  apply create_on_day_store. lia.
Qed.

(** The stores of the long days are reached by creating missions, 999 and
    1000 of them. *)
Lemma long_days_reachable : reachable full_day_store /\ reachable busy_day_store.
Proof.
  unfold full_day_store, busy_day_store.
  rewrite <- !created_on_march_first_is_day_store by lia.
  split; apply created_on_march_first_reachable.
Qed.

(** * Further properties of the handlers *)

(** ** What holds of every mission of a reachable store *)

Lemma sound_update id f l :
  (forall m, mission_sound m -> mission_sound (f m)) ->
  Forall mission_sound l -> Forall mission_sound (update_missions id f l).
Proof.
  intros H F. unfold update_missions.
  induction F as [|m l Pm F IH]; cbn [map]; constructor; auto.
  destruct (Mission.id m =? id)%Z; auto.
Qed.

Lemma recognized_enhanced v st :
  In st (recognized v) -> In st (recognized Enhanced).
Proof.
  destruct v; [|tauto]. simpl. intuition.
Qed.

Lemma sound_apply_status v now st m :
  In st (recognized v) -> mission_sound m ->
  mission_sound (apply_status v now st m).
Proof.
  intros I (_ & C & P & F). unfold mission_sound, apply_status.
  cbn [set_columns Mission.status Mission.completed_at Mission.started_at
       Mission.mission_code].
  split; [now apply (recognized_enhanced v)|]. split; [|split; [|exact F]].
  - intros ->. cbn. discriminate.
  - intros ->. cbn. discriminate.
Qed.

Lemma sound_generated_code s now lookup_ok rnd :
  starts_with "FA-" (generateMissionCode s now lookup_ok rnd) = true.
Proof.
  unfold generateMissionCode. now destruct lookup_ok.
Qed.

Lemma sound_step s s' :
  Forall mission_sound (missions s) -> step s s' ->
  Forall mission_sound (missions s').
Proof.
  intros H [].
  - unfold create. destruct (existsb _ (required_fields b)); [exact H|].
    destruct insert_ok; [|exact H]. unfold insert_mission.
    repeat match goal with
      | |- context [match Body.prepareValue ?x with _ => _ end] =>
          destruct (Body.prepareValue x); [|exact H]
      end.
    destruct (existsb _ (mission_codes s)); [exact H|].
    cbn [fst missions with_missions]. apply Forall_app. split; [exact H|].
    constructor; [|constructor].
    unfold mission_sound. cbn [Mission.status Mission.mission_code
      Mission.completed_at Mission.started_at].
    split; [simpl; tauto|]. split; [discriminate|]. split; [discriminate|].
    apply sound_generated_code.
  - unfold setStatus.
    destruct (Body.includes (recognized v) st) eqn:I; cbn [negb]; [|exact H].
    destruct (includes_string _ _ I) as (t & -> & It).
    destruct query_ok; [|exact H].
    destruct (updated_rows _ _ (missions s)); [exact H|].
    cbn [fst missions with_missions]. apply sound_update; [|exact H].
    intros m. now apply sound_apply_status.
  - unfold saveInspection. destruct upsert_ok; [|exact H].
    assert (M : missions (fst (upsert_inspection s now id b)) = missions s).
    { unfold upsert_inspection. destruct (negb (mission_exists s id));
        [reflexivity|]. now destruct (Sql.upsert _ _ _ (inspections s)). }
    destruct (upsert_inspection s now id b) as [s1 [row|]]; cbn [fst] in *;
      [|now rewrite M].
    destruct update_ok; cbn [fst]; [|now rewrite M].
    cbn [missions with_missions]. rewrite M. apply sound_update; [|exact H].
    intros m Sm. exact Sm.
  - unfold uploadPhoto. destruct photo as [f|]; [|exact H].
    destruct (negb (existsb _ allowedTypes)); [exact H|].
    destruct check_ok; cbn [negb]; [|exact H].
    destruct (negb (mission_exists s missionId)) eqn:E; [exact H|].
    destruct upsert_ok; [|exact H].
    unfold upsert_photo. destruct photoType as [t|]; [|exact H].
    rewrite E. now destruct (Sql.upsert _ _ _ (mission_photos s)).
  - unfold updateObservations. destruct query_ok; [|exact H].
    destruct (updated_rows _ _ (missions s)); [exact H|].
    cbn [fst missions with_missions]. apply sound_update; [|exact H].
    intros m Sm. exact Sm.
  - unfold setSignature. destruct (negb (Body.truthy sig)); [exact H|].
    destruct query_ok; [|exact H].
    destruct (updated_rows _ _ (missions s)); [exact H|].
    cbn [fst missions with_missions]. apply sound_update; [|exact H].
    intros m Sm. exact Sm.
  - now rewrite uploadPhoto_served_missions.
Qed.

Lemma reachable_sound s : reachable s -> Forall mission_sound (missions s).
Proof.
  induction 1 as [|s s' _ IH St]; [constructor|].
  now apply (sound_step s s').
Qed.

(** X1: whatever requests were served since the tables were created, the
    constraints of the schema hold: keys and codes are unique, a mission
    has one inspection at most and one photo per type at most, and photos
    and inspections belong to missions of the store. *)
Theorem reachable_constraints (s : Store) : reachable s -> constraints_hold s.
Proof.
  induction 1 as [|s s' _ IH St].
  - repeat split; constructor.
  - now apply (constraints_step s s').
Qed.

(** X2: in every store the handlers can reach, each mission has one of the
    six statuses of the enhanced server, a completed mission has its
    completion time, a mission in progress has its start time, and every
    code begins with FA-. *)
Theorem reachable_missions_sound (s : Store) (m : Mission.t) :
  reachable s -> In m (missions s) -> mission_sound m.
Proof.
  intros R. revert m. rewrite <- Forall_forall. now apply reachable_sound.
Qed.

Lemma reachable_missions_sound_witness :
  mission_sound (day_mission 1).
Proof.
  apply (reachable_missions_sound (created_on_march_first 1)).
  - apply created_on_march_first_reachable.
  - now left.
Defined.

Lemma reachable_constraints_witness :
  constraints_hold (created_on_march_first 2).
Proof.
  apply (reachable_constraints (created_on_march_first 2)).
  apply created_on_march_first_reachable.
Defined.

(** ** Looking up what was stored *)

Lemma N_toString_injective a b : N_toString a = N_toString b -> a = b.
Proof.
  intros H. rewrite <- (decimal_value_padded 0 a), <- (decimal_value_padded 0 b).
  cbn [repeat_char append]. now rewrite H.
Qed.

Lemma N_toString_head n :
  exists c r, N_toString n = String c r /\ is_digit c = true.
Proof.
  pose proof (N_toString_digits n) as D.
  pose proof (N_toString_nonempty n) as E.
  destruct (N_toString n) as [|c r]; [contradiction|].
  simpl in D. apply andb_prop in D as [D _]. eauto.
Qed.

Lemma Z_toString_injective a b : Z_toString a = Z_toString b -> a = b.
Proof.
  destruct a as [|p|p], b as [|q|q]; cbn [Z_toString Z.to_N]; intros H;
    try reflexivity;
    try (apply N_toString_injective in H; congruence);
    try (injection H as H; apply N_toString_injective in H; congruence).
  - destruct (N_toString_head 0) as (c & r & E & D). rewrite E in H.
    injection H as -> _. discriminate.
  - destruct (N_toString_head (N.pos p)) as (c & r & E & D). rewrite E in H.
    injection H as -> _. discriminate.
  - destruct (N_toString_head 0) as (c & r & E & D). rewrite E in H.
    injection H as <- _. discriminate.
  - destruct (N_toString_head (N.pos q)) as (c & r & E & D). rewrite E in H.
    injection H as <- _. discriminate.
Qed.

(** A key written in decimal is never taken for a code. *)
Lemma Z_toString_not_code z : starts_with "FA-" (Z_toString z) = false.
Proof.
  destruct z as [|p|p]; cbn [Z_toString]; try reflexivity.
  - destruct (N_toString_head (Z.to_N (Z.pos p))) as (c & r & -> & D).
    cbn [starts_with]. now rewrite Ascii.eqb_sym, (digit_is_not c "F" D eq_refl).
Qed.

Lemma unique_member {A B : Type} (f : A -> B) (l : list A) a b :
  NoDup (map f l) -> In a l -> In b l -> f a = f b -> a = b.
Proof.
  induction l as [|x l IH]; cbn [map]; intros N Ia Ib E; [destruct Ia|].
  inversion N as [|? ? Nx Nl]; subst.
  destruct Ia as [->|Ia], Ib as [->|Ib]; auto.
  - exfalso. apply Nx. rewrite E. now apply in_map.
  - exfalso. apply Nx. rewrite <- E. now apply in_map.
Qed.

Lemma filter_head {A : Type} (p : A -> bool) (l : list A) m :
  (forall x, In x l -> p x = true -> x = m) ->
  In m l -> p m = true ->
  exists r, filter p l = m :: r.
Proof.
  intros U I P.
  assert (F : In m (filter p l)) by now apply filter_In.
  destruct (filter p l) as [|x r] eqn:E; [destruct F|].
  assert (X : In x (filter p l)) by (rewrite E; now left).
  apply filter_In in X as [X1 X2]. rewrite (U x X1 X2). eauto.
Qed.

(** A mission is found by its code in a reachable store. *)
Lemma found_by_code v s m :
  reachable s -> In m (missions s) ->
  getMission v s true (Mission.mission_code m)
  = ok (MissionAggregate (aggregate v s m)) None.
Proof.
  intros R I.
  destruct (reachable_schema s R) as (_ & Codes & _).
  unfold getMission.
  destruct (filter_head (matches_token (Mission.mission_code m)) (missions s) m)
    as [r ->]; [| exact I | | reflexivity].
  - intros x Ix Px. apply matches_token_iff in Px as [E|E].
    + now apply (unique_member Mission.mission_code (missions s)).
    + pose proof (reachable_sound s R) as Snd. rewrite Forall_forall in Snd.
      destruct (Snd m I) as (_ & _ & _ & Fm).
      pose proof (Z_toString_not_code (Mission.id x)) as N.
      rewrite E in N. congruence.
  - apply matches_token_iff. now left.
Qed.

(** X3: in a reachable store each mission is found by its code and by its
    key written in decimal, and by nothing else of its own: both lookups
    answer the aggregated view of that very mission. *)
Theorem lookup_by_code_or_id (v : Variant) (s : Store) (m : Mission.t) :
  reachable s -> In m (missions s) ->
  getMission v s true (Mission.mission_code m)
  = ok (MissionAggregate (aggregate v s m)) None
  /\ getMission v s true (Z_toString (Mission.id m))
     = ok (MissionAggregate (aggregate v s m)) None.
Proof.
  intros R I.
  destruct (reachable_schema s R) as ((Ids & _) & Codes & _).
  pose proof (reachable_sound s R) as Snd. rewrite Forall_forall in Snd.
  pose proof (Snd m I) as (_ & _ & _ & Fm).
  split; [now apply found_by_code|]. unfold getMission.
  - destruct (filter_head (matches_token (Z_toString (Mission.id m)))
                (missions s) m) as [r ->]; [| exact I | | reflexivity].
    + intros x Ix Px. apply matches_token_iff in Px as [E|E].
      * pose proof (Snd x Ix) as (_ & _ & _ & Fx).
        rewrite E, Z_toString_not_code in Fx. discriminate.
      * apply Z_toString_injective in E.
        now apply (unique_member Mission.id (missions s)).
    + apply matches_token_iff. now right.
Qed.

Lemma lookup_by_code_or_id_witness :
  getMission Enhanced (created_on_march_first 2) true "FA-20240301-002"
  = ok (MissionAggregate
          (aggregate Enhanced (created_on_march_first 2) (day_mission 2))) None.
Proof.
  apply (lookup_by_code_or_id Enhanced (created_on_march_first 2) (day_mission 2)).
  - apply created_on_march_first_reachable.
  - right. now left.
Defined.

(** ** A mission just created *)

Lemma filter_nothing {A : Type} (p : A -> bool) (l : list A) :
  Forall (fun x => p x = false) l -> filter p l = [].
Proof.
  induction 1 as [|x l Px _ IH]; cbn [filter]; [reflexivity|].
  now rewrite Px.
Qed.

Lemma find_nothing {A : Type} (p : A -> bool) (l : list A) :
  Forall (fun x => p x = false) l -> find p l = None.
Proof.
  induction 1 as [|x l Px _ IH]; cbn [find]; [reflexivity|].
  now rewrite Px.
Qed.

(** A key beyond the sequence is referred to by no photo and by no
    inspection. *)
Lemma beyond_sequence s k :
  constraints_hold s -> (missions_id_seq s < k)%Z ->
  Forall (fun p => (Photo.mission_id p =? k)%Z = false) (mission_photos s)
  /\ Forall (fun i => (Inspection.mission_id i =? k)%Z = false) (inspections s).
Proof.
  intros ((_ & B) & _ & _ & _ & RP & RI) L.
  rewrite Forall_forall in B.
  split.
  - eapply Forall_impl; [|exact RP]. cbv beta. intros p I.
    apply Z.eqb_neq. specialize (B _ I). cbv beta in B. lia.
  - eapply Forall_impl; [|exact RI]. cbv beta. intros p I.
    apply Z.eqb_neq. specialize (B _ I). cbv beta in B. lia.
Qed.

(** X4: the mission a successful creation answers with has the next key of
    the sequence, is added after the others, and is bare: looked up right
    away it shows no photo and no inspection data, in either server; the
    views of the missions already there are what they were. *)
Theorem created_mission_is_bare (v : Variant) (s : Store) (now_js : Date)
    (now : Timestamp) (rnd : N) (lookup_ok insert_ok : bool)
    (b : CreateBody.t) :
  constraints_hold s ->
  let out := create v s now_js now rnd lookup_ok insert_ok b in
  http_status (snd out) = 201 ->
  exists row,
    data (snd out) = Some (MissionRow row)
    /\ Mission.id row = (missions_id_seq s + 1)%Z
    /\ missions (fst out) = (missions s ++ [row])%list
    /\ aggregate Enhanced (fst out) row
       = mkView row (Some (None, None, None)) []
    /\ aggregate Basic (fst out) row = mkView row None []
    /\ forall v' m, aggregate v' (fst out) m = aggregate v' s m.
Proof.
  intros C. cbv zeta. unfold create.
  destruct (existsb _ (required_fields b)); [discriminate|].
  destruct insert_ok; [|discriminate]. unfold insert_mission.
  repeat match goal with
    | |- context [match Body.prepareValue ?x with _ => _ end] =>
        destruct (Body.prepareValue x); [|discriminate]
    end.
  destruct (existsb _ (mission_codes s)); [discriminate|].
  intros _. cbn [fst snd data].
  match goal with |- exists row, Some (MissionRow ?r) = _ /\ _ => exists r end.
  destruct (beyond_sequence s (missions_id_seq s + 1) C ltac:(lia)) as [NP NI].
  assert (P : forall x, Mission.id x = (missions_id_seq s + 1)%Z ->
              forall seq l, photos_column (with_missions s l seq) x = []).
  { intros x E seq l. apply photos_column_empty. unfold photos_of.
    cbn [mission_photos with_missions]. rewrite E. now apply filter_nothing. }
  assert (Q : forall x, Mission.id x = (missions_id_seq s + 1)%Z ->
              forall seq l, inspection_columns (with_missions s l seq) x
                            = (None, None, None)).
  { intros x E seq l. unfold inspection_columns, inspection_of.
    cbn [inspections with_missions]. rewrite E.
    now rewrite (find_nothing _ _ NI). }
  split; [reflexivity|]. split; [reflexivity|]. split; [reflexivity|].
  unfold aggregate. split; [|split].
  - now rewrite P, Q.
  - now rewrite P.
  - intros v' m. reflexivity.
Qed.

Lemma created_mission_is_bare_witness :
  exists row,
    data (snd (create Basic empty_store march_first 1%Z 0 true true clio_body))
    = Some (MissionRow row)
    /\ Mission.id row = 1%Z.
Proof.
  destruct (created_mission_is_bare Basic empty_store march_first 1%Z 0 true true
              clio_body) as (row & D & I & _).
  - repeat split; constructor.
  - reflexivity.
  - exists row. split; [exact D | exact I].
Defined.

(** ** What an upload and an inspection change in the view *)




Lemma find_filter {A : Type} (p : A -> bool) (l : list A) :
  find p l = hd_error (filter p l).
Proof.
  induction l as [|x l IH]; cbn [find filter]; [reflexivity|].
  now destruct (p x).
Qed.




(** ** Uploads which are turned down, and what an upload leaves alone *)

Lemma not_allowed_mimetype f :
  ~ In (mimetype f) allowedTypes ->
  existsb (String.eqb (mimetype f)) allowedTypes = false.
Proof.
  intros N. destruct (existsb _ allowedTypes) eqn:E; [|reflexivity].
  apply existsb_exists in E as (x & Ix & Ex). apply String.eqb_eq in Ex.
  now subst x.
Qed.

(** X7: an upload without a file, or of a file whose MIME type is not one
    of the four image types, is answered 400 before the store is asked
    anything; with a good file, a key which is no integer of 32 bits is
    answered 500, the store refusing the lookup; an integer of 32 bits
    which is the key of no mission is answered 404; for a mission, no
    photo type, or a photo type which the column of 50 characters
    refuses, is answered 500.  None of them changes a row of any table,
    and more generally the tables are as they were whenever the answer
    is not a success. *)
Theorem uploadPhoto_refused (v : Variant) (s : Store) (now_ms : Z)
    (now : Timestamp) (up_check up_upsert : bool) (missionId : Z)
    (photoType : option string) (photo : option UploadedFile) :
  let out := uploadPhoto_served v s now_ms now up_check up_upsert missionId
               photoType photo in
  (photo = None -> ValidationError (snd out) /\ fst out = s)
  /\ (forall f, photo = Some f -> ~ In (mimetype f) allowedTypes ->
        ValidationError (snd out) /\ fst out = s)
  /\ (forall f, photo = Some f -> In (mimetype f) allowedTypes ->
        ~ (-2147483648 <= missionId <= 2147483647)%Z ->
        http_status (snd out) = 500 /\ fst out = s)
  /\ (forall f, photo = Some f -> In (mimetype f) allowedTypes ->
        up_check = true ->
        (-2147483648 <= missionId <= 2147483647)%Z ->
        mission_exists s missionId = false ->
        NotFoundError (snd out) /\ fst out = s)
  /\ (forall f, photo = Some f -> In (mimetype f) allowedTypes ->
        up_check = true ->
        (-2147483648 <= missionId <= 2147483647)%Z ->
        mission_exists s missionId = true ->
        photoType = None \/ (exists t, photoType = Some t
                                       /\ Pg.varchar 50 t = None) ->
        http_status (snd out) = 500)
  /\ (success (snd out) = false ->
        missions (fst out) = missions s
        /\ mission_photos (fst out) = mission_photos s
        /\ inspections (fst out) = inspections s).
Proof.
  cbv zeta. split; [|split; [|split; [|split; [|split]]]].
  - intros ->. now repeat split.
  - intros f -> N. unfold uploadPhoto_served.
    rewrite (not_allowed_mimetype f N). now repeat split.
  - intros f -> A N. unfold uploadPhoto_served.
    rewrite (allowed_mimetype f A), (not_int4 _ N), andb_false_r.
    now split.
  - intros f -> A -> R E. unfold uploadPhoto_served.
    apply int4_range in R. rewrite (allowed_mimetype f A), R, E.
    now repeat split.
  - intros f -> A -> R E T. unfold uploadPhoto_served.
    apply int4_range in R. rewrite (allowed_mimetype f A), R, E. cbn [negb andb].
    destruct (negb _); [reflexivity|].
    destruct T as [->|(t & -> & T)].
    + unfold upsert_photo. reflexivity.
    + now rewrite T.
  - unfold uploadPhoto_served. destruct photo as [f|]; [|now repeat split].
    destruct (negb (existsb _ allowedTypes)); [now repeat split|].
    destruct (negb (up_check && _)); [now repeat split|].
    destruct (negb (mission_exists s missionId)) eqn:E; [now repeat split|].
    destruct (negb (up_upsert && _ && _ && _ && _)); [now repeat split|].
    destruct photoType as [t|]; [|now repeat split].
    destruct (Pg.varchar 50 t); [|now repeat split].
    destruct (Pg.varchar 255 _); [|now repeat split].
    destruct (Pg.varchar 255 (name f)); [|now repeat split].
    destruct (Pg.varchar 100 _); [|now repeat split].
    unfold upsert_photo. rewrite E.
    destruct (Sql.upsert _ _ _ (mission_photos s)). discriminate.
Qed.


(** ** Inspections which fail *)


Lemma uploadPhoto_refused_witness :
  NotFoundError
    (snd (uploadPhoto_served Basic renault_store 0 0%Z true true 2
            (Some "front") (Some front_jpeg)))
  /\ http_status
       (snd (uploadPhoto_served Basic renault_store 0 0%Z true true 2147483648
               (Some "front") (Some front_jpeg))) = 500.
Proof.
  split.
  - destruct (uploadPhoto_refused Basic renault_store 0 0%Z true true 2
                (Some "front") (Some front_jpeg)) as (_ & _ & _ & H & _).
    apply (H front_jpeg).
    + reflexivity.
    + now left.
    + reflexivity.
    + lia.
    + reflexivity.
  - destruct (uploadPhoto_refused Basic renault_store 0 0%Z true true
                2147483648 (Some "front") (Some front_jpeg))
      as (_ & _ & H & _).
    apply (H front_jpeg).
    + reflexivity.
    + now left.
    + lia.
Defined.



(** ** Observations and signatures *)

(** X10: while the store can be reached, the observations handler answers
    500 for a key which is no integer of 32 bits, or for a text with a
    zero byte, and changes nothing; for an integer of 32 bits which is
    the key of no mission it answers 404 and changes nothing; otherwise
    it writes the observations of the body over those of that mission
    (the text itself, NULL when the body has none or null, a number no
    larger than 2^53 - 1 in its decimal writing), refreshes [updated_at]
    in the enhanced server only, keeps every other column of the mission,
    and leaves the other missions alone. *)
Theorem updateObservations_writes (v : Variant) (s : Store) (now : Timestamp)
    (id : Z) (observations : Body.value) :
  let out := updateObservations_served v s now true id observations in
  (~ (-2147483648 <= id <= 2147483647)%Z ->
   http_status (snd out) = 500 /\ fst out = s)
  /\ (Pg.text_param (Body.prepareValue observations) = false ->
      http_status (snd out) = 500 /\ fst out = s)
  /\ ((-2147483648 <= id <= 2147483647)%Z ->
      Pg.text_param (Body.prepareValue observations) = true ->
      (find_mission s id = None -> NotFoundError (snd out) /\ fst out = s)
      /\ (forall m, find_mission s id = Some m ->
            exists m',
              snd out = ok (MissionRow m')
                           (Some "Observations mises à jour avec succès")
              /\ find_mission (fst out) id = Some m'
              /\ (forall t, observations = Body.Str t ->
                    Mission.observations m' = Some t)
              /\ (observations = Body.Undefined \/ observations = Body.Null ->
                    Mission.observations m' = None)
              /\ (exact_number observations ->
                    Mission.observations m' = Body.prepareValue observations)
              /\ Mission.updated_at m'
                 = match v with
                   | Enhanced => now
                   | Basic => Mission.updated_at m
                   end
              /\ set_columns m' (Mission.status m') (Mission.updated_at m)
                   (Mission.started_at m') (Mission.completed_at m')
                   (Mission.observations m) (Mission.client_signature m')
                   (Mission.signature_timestamp m') = m
              /\ forall j, j <> id ->
                   find_mission (fst out) j = find_mission s j)).
Proof.
  cbv zeta. unfold updateObservations_served. split; [|split].
  - intros N. now rewrite (not_int4 _ N).
  - intros ->. now rewrite andb_false_r.
  - intros R T. apply int4_range in R. rewrite R, T. cbn [andb].
    unfold updateObservations. rewrite updated_rows_find. split.
    + intros F. unfold find_mission in F. rewrite F. now repeat split.
    + intros m F. pose proof F as F'. unfold find_mission in F'. rewrite F'.
      cbn [fst snd]. eexists. split; [reflexivity|].
      split.
      { unfold find_mission. cbn [missions with_missions].
        rewrite find_update_same by reflexivity. now rewrite F'. }
      split; [now intros t ->|].
      split; [now intros [->| ->]|].
      split; [reflexivity|]. split; [now destruct v|].
      split; [now destruct m|].
      intros j N. unfold find_mission. cbn [missions with_missions].
      now apply find_update_other.
Qed.

Lemma updateObservations_writes_witness :
  exists m',
    snd (updateObservations_served Enhanced renault_store 50%Z true 1
           (Body.Str "rayure"))
    = ok (MissionRow m') (Some "Observations mises à jour avec succès")
    /\ Mission.observations m' = Some "rayure"
    /\ Mission.updated_at m' = 50%Z.
Proof.
  destruct (updateObservations_writes Enhanced renault_store 50%Z 1
              (Body.Str "rayure")) as (_ & _ & H).
  destruct H as [_ H]; [lia | reflexivity |].
  destruct (H renault eq_refl) as (m' & E & _ & O & _ & _ & U & _).
  exists m'. split; [exact E|]. split; [now apply O | exact U].
Defined.



(** ** The list of all missions *)

(** X12: the list route answers every mission of the store, each once,
    newest first; a search without filters answers the first hundred of
    that list; and the list route answers 500 when the store fails. *)
Theorem list_missions_all (pg_lower : string -> string)
    (timestamp_in : string -> option Timestamp) (s : Store) :
  (exists l,
     list_missions s true = ok (MissionRows l) None
     /\ Permutation l (missions s)
     /\ StronglySorted newer_or_same l
     /\ search pg_lower timestamp_in s true (mkQuery None None None None None)
        = ok (MissionRows (firstn 100 l)) None)
  /\ http_status (list_missions s false) = 500
  /\ success (list_missions s false) = false.
Proof.
  split; [|now split].
  exists (Sql.order_by newest_first (missions s)).
  split; [reflexivity|]. split.
  - apply order_by_perm.
  - split.
    + apply sorted_impl with (R := fun a b => newest_first a b = true).
      * intros a b H. unfold newer_or_same, newest_first in *.
        now apply Z.leb_le.
      * apply order_by_sorted.
        -- apply newest_first_total.
        -- apply newest_first_trans.
    + unfold search. cbn [dateFrom dateTo date_bound supplied].
      now rewrite no_filter_keeps_all.
Qed.

(** ** Reports *)

Lemma reportPdf_find s id :
  reportPdf s true id
  = match find_mission s id with
    | None => Answer (failure 404 "Mission introuvable")
    | Some m =>
        if Mission.status m =? "completed" then
          Redirect
            "https://www.w3.org/WAI/ER/tests/xhtml/testfiles/resources/pdf/dummy.pdf"
        else
          Answer (failure 400
            "Le rapport n'est disponible que pour les missions terminées")
    end.
Proof.
  unfold reportPdf, find_mission. rewrite find_filter.
  destruct (filter _ (missions s)) as [|m r]; [reflexivity|].
  cbn [hd_error]. now destruct (Mission.status m =? "completed").
Qed.

(** X13: while the store can be reached, the report of a key which is no
    integer of 32 bits is answered 500, and that of an integer of 32
    bits which is the key of no mission is answered 404; once a status
    change of a mission has gone through, its report is the redirection
    to the PDF if the new status is completed and is refused with 400 if
    it is any other; and the reports of the other missions are answered
    as before the change. *)
Theorem report_follows_status (v : Variant) (s : Store) (now : Timestamp)
    (id : Z) (st : string) (m : Mission.t) :
  find_mission s id = Some m ->
  (-2147483648 <= id <= 2147483647)%Z ->
  In st (recognized v) ->
  let s' := fst (setStatus_served v s now true id (Body.Str st)) in
  (st = "completed" ->
   reportPdf_served s' true id
   = Redirect
       "https://www.w3.org/WAI/ER/tests/xhtml/testfiles/resources/pdf/dummy.pdf")
  /\ (st <> "completed" ->
      reportPdf_served s' true id
      = Answer (failure 400
          "Le rapport n'est disponible que pour les missions terminées"))
  /\ (forall j, j <> id ->
        reportPdf_served s' true j = reportPdf_served s true j)
  /\ (forall j, (-2147483648 <= j <= 2147483647)%Z ->
        find_mission s j = None ->
        reportPdf_served s true j = Answer (failure 404 "Mission introuvable"))
  /\ (forall j, ~ (-2147483648 <= j <= 2147483647)%Z ->
        reportPdf_served s true j
        = Answer (failure 500 "Erreur lors de la génération du rapport")).
Proof.
  intros F R I. cbv zeta. unfold setStatus_served, reportPdf_served.
  pose proof R as R'. apply int4_range in R'. rewrite R'. cbn [andb].
  assert (Inc : Body.includes (recognized v) (Body.Str st) = true).
  { cbn [Body.includes]. apply existsb_exists. exists st.
    split; [exact I | apply String.eqb_refl]. }
  assert (S' : missions (fst (setStatus v s now true id (Body.Str st)))
               = update_missions id (apply_status v now st) (missions s)).
  { unfold setStatus. rewrite Inc. cbn [negb]. rewrite updated_rows_find.
    unfold find_mission in F. now rewrite F. }
  assert (Same : find_mission (fst (setStatus v s now true id (Body.Str st))) id
                 = Some (apply_status v now st m)).
  { unfold find_mission in *. rewrite S'.
    rewrite find_update_same by reflexivity. now rewrite F. }
  assert (Other : forall j, j <> id ->
            find_mission (fst (setStatus v s now true id (Body.Str st))) j
            = find_mission s j).
  { intros j N. unfold find_mission. rewrite S'.
    now apply find_update_other. }
  split; [|split; [|split; [|split]]].
  - intros ->. rewrite reportPdf_find, Same. reflexivity.
  - intros N. rewrite reportPdf_find, Same.
    cbn [apply_status set_columns Mission.status].
    apply String.eqb_neq in N. now rewrite N.
  - intros j N. destruct (Pg.int4 j); [|reflexivity].
    now rewrite !reportPdf_find, Other.
  - intros j Rj N. apply int4_range in Rj. rewrite Rj.
    now rewrite reportPdf_find, N.
  - intros j N. now rewrite (not_int4 _ N).
Qed.

Lemma report_follows_status_witness :
  reportPdf_served (fst (setStatus_served Enhanced finished_store 50%Z true 1
                           (Body.Str "completed"))) true 1
  = Redirect
      "https://www.w3.org/WAI/ER/tests/xhtml/testfiles/resources/pdf/dummy.pdf".
Proof.
  apply (report_follows_status Enhanced finished_store 50%Z 1 "completed"
           (sample_mission 1 "FA-20240301-001" "Renault" "Clio" "A"
              "in_progress" 10%Z None)).
  - reflexivity.
  - lia.
  - simpl. tauto.
  - reflexivity.
Defined.

(** ** What the statistics leave out *)

Lemma count_six (l : list string) :
  Forall (fun st => In st (recognized Enhanced)) l ->
  List.length l
  = (count_occ string_dec l "pending" + count_occ string_dec l "in_progress"
     + count_occ string_dec l "completed" + count_occ string_dec l "cancelled"
     + count_occ string_dec l "assigned"
     + count_occ string_dec l "photos_taken")%nat.
Proof.
  induction 1 as [|st l I _ IH]; [reflexivity|].
  cbn [List.length]. rewrite IH. clear IH.
  cbn [recognized In] in I.
  repeat (destruct I as [<-|I]; [cbn; lia|]). destruct I.
Qed.

(** X14: in a store the handlers can reach, the total of the statistics is
    the sum of the four counts answered and of the missions which are
    assigned or have their photos taken, two statuses the enhanced server
    accepts and the statistics do not count. *)
Theorem stats_total (s : Store) :
  reachable s ->
  exists b,
    basicStats s true = ok (StatsRow b) None
    /\ total b
       = (pending b + in_progress b + completed b + cancelled b
          + in_status s "assigned" + in_status s "photos_taken")%nat.
Proof.
  intros R. eexists. split; [reflexivity|].
  unfold count_by_status. cbn [total pending in_progress completed cancelled].
  rewrite !count_where_status. unfold in_status.
  rewrite <- (length_map Mission.status). apply count_six.
  pose proof (reachable_sound s R) as Snd.
  apply Forall_map. eapply Forall_impl; [|exact Snd].
  now intros m (I & _).
Qed.

Lemma stats_total_witness :
  exists b,
    basicStats (created_on_march_first 2) true = ok (StatsRow b) None
    /\ total b
       = (pending b + in_progress b + completed b + cancelled b
          + in_status (created_on_march_first 2) "assigned"
          + in_status (created_on_march_first 2) "photos_taken")%nat.
Proof.
  apply (stats_total (created_on_march_first 2)).
  apply created_on_march_first_reachable.
Defined.

Lemma count_where_app {A : Type} (p : A -> bool) (l r : list A) :
  Sql.count_where p (l ++ r)%list
  = (Sql.count_where p l + Sql.count_where p r)%nat.
Proof.
  unfold Sql.count_where. now rewrite filter_app, length_app.
Qed.

(** X15: a successful creation adds one to the total and to the pending
    count of the statistics and leaves the other three counts as they
    were; a creation which is refused leaves all five as they were. *)
Theorem stats_after_create (v : Variant) (s : Store) (now_js : Date)
    (now : Timestamp) (rnd : N) (lookup_ok insert_ok : bool)
    (b : CreateBody.t) :
  let out := create v s now_js now rnd lookup_ok insert_ok b in
  let before := count_by_status s in
  (http_status (snd out) = 201 ->
   basicStats (fst out) true
   = ok (StatsRow (mkStats (S (total before)) (S (pending before))
                     (in_progress before) (completed before)
                     (cancelled before))) None)
  /\ (http_status (snd out) <> 201 ->
      basicStats (fst out) true = basicStats s true).
Proof.
  cbv zeta. unfold create.
  destruct (existsb _ (required_fields b)); [split; [discriminate | reflexivity]|].
  destruct insert_ok; [|split; [discriminate | reflexivity]].
  unfold insert_mission.
  repeat match goal with
    | |- context [match Body.prepareValue ?x with _ => _ end] =>
        destruct (Body.prepareValue x);
          [|split; [discriminate | reflexivity]]
    end.
  destruct (existsb _ (mission_codes s));
    [split; [discriminate | reflexivity]|].
  split; [|intros N; now contradiction N].
  intros _. cbn [fst]. unfold basicStats, count_by_status.
  cbn [missions with_missions total pending in_progress completed cancelled].
  rewrite !count_where_app, length_app. cbn [List.length].
  unfold Sql.count_where at 2 4 6 8. cbn.
  do 2 f_equal. f_equal; lia.
Qed.

Lemma stats_after_create_witness :
  basicStats
    (fst (create Basic empty_store march_first 1%Z 0 true true clio_body)) true
  = ok (StatsRow (mkStats 1 1 0 0 0)) None.
Proof.
  apply (stats_after_create Basic empty_store march_first 1%Z 0 true true
           clio_body).
  reflexivity.
Defined.

(** ** The capacity of a day *)

(** With the sequences 1 to 1000 taken, the lookup finds 999, the greatest
    in the order of strings, and the generator answers 1000 again. *)
Lemma generate_on_full_day s now rnd :
  valid_date now ->
  day_codes_upto s (date_stamp now) 1000 ->
  generateMissionCode s now true rnd = code_of (date_stamp now) 1000.
Proof.
  intros V [Only All].
  destruct (date_stamp_valid now V) as (_ & _ & D).
  unfold generateMissionCode.
  destruct (last_code_some s (date_stamp now) D) as (last & -> & I & P & M).
  { exists (code_of (date_stamp now) 1).
    split; [apply All; lia | apply code_of_starts]. }
  destruct (Only last I P) as (k & K & ->).
  assert (k = 999%N) as ->.
  { pose proof (M (code_of (date_stamp now) 999) (All 999%N ltac:(lia))
                  (code_of_starts _ _)) as Top.
    destruct (N.eq_dec k 1000) as [->|Nk].
    - exfalso. rewrite !code_of_head in Top.
      rewrite leb_append_head in Top. discriminate Top.
    - apply (code_of_injective (date_stamp now)).
      apply String.leb_antisym; [|exact Top].
      apply code_of_monotone; lia. }
  change (code_of (date_stamp now) 999)
    with ("FA-" ++ date_stamp now ++ "-"
          ++ repeat_char "0" (3 - String.length (N_toString 999))
          ++ N_toString 999).
  rewrite next_after_padded by apply date_stamp_free_of_dash.
  reflexivity.
Qed.

(** X16: while the lookup of the last code works, a date holds a thousand
    missions and no more, although a creation whose lookup fails can
    still add one.  Once the codes of a date are those of the sequences
    1 to 1000, the lookup finds 999, which comes after 1000 in the order
    of strings, the generator answers 1000 once more, and every creation
    of that date whose lookup works is answered 500 and stores nothing,
    whatever the input; a creation whose lookup fails, which draws the
    number 0 and whose row the store accepts, is answered 201 and stores
    the code of sequence 000. *)
Theorem day_holds_a_thousand (v : Variant) (s : Store) (now_js : Date)
    (now : Timestamp) (rnd : N) (insert_ok : bool) (b : CreateBody.t) :
  valid_date now_js ->
  day_codes_upto s (date_stamp now_js) 1000 ->
  (forall x, In x (required_fields b) -> Body.truthy x = true) ->
  let out := create v s now_js now rnd true insert_ok b in
  let fallback := create v s now_js now 0 false true b in
  generateMissionCode s now_js true rnd
  = "FA-" ++ date_stamp now_js ++ "-1000"
  /\ http_status (snd out) = 500
  /\ success (snd out) = false
  /\ missions (fst out) = missions s
  /\ http_status (snd fallback) = 201
  /\ exists row,
       missions (fst fallback) = (missions s ++ [row])%list
       /\ Mission.mission_code row = "FA-" ++ date_stamp now_js ++ "-000".
Proof.
  intros V U T. cbv zeta.
  pose proof (generate_on_full_day s now_js rnd V U) as G.
  split; [exact G|].
  assert (Out : http_status (snd (create v s now_js now rnd true insert_ok b))
                = 500
                /\ success (snd (create v s now_js now rnd true insert_ok b))
                   = false
                /\ missions (fst (create v s now_js now rnd true insert_ok b))
                   = missions s).
  { unfold create. rewrite (required_all_truthy b T), G.
    destruct insert_ok; [|now repeat split].
    unfold insert_mission.
    assert (Taken : existsb (String.eqb (code_of (date_stamp now_js) 1000))
                      (mission_codes s) = true).
    { apply existsb_exists. exists (code_of (date_stamp now_js) 1000).
      split; [apply (proj2 U); lia | apply String.eqb_refl]. }
    rewrite Taken.
    repeat match goal with
      | |- context [match Body.prepareValue ?x with _ => _ end] =>
          destruct (Body.prepareValue x); [|now repeat split]
      end.
    now repeat split. }
  destruct Out as (O1 & O2 & O3).
  split; [exact O1|]. split; [exact O2|]. split; [exact O3|].
  assert (Fresh : ~ In (code_of (date_stamp now_js) 0) (mission_codes s)).
  { intros I. destruct U as [Only _].
    destruct (Only _ I (code_of_starts _ _)) as (k & K & E).
    apply code_of_injective in E. lia. }
  unfold create. rewrite (required_all_truthy b T).
  change (generateMissionCode s now_js false 0)
    with (code_of (date_stamp now_js) 0).
  destruct (insert_mission_accepts v s now _ b T Fresh) as (row & -> & C & _).
  cbn [fst snd http_status missions with_missions].
  split; [reflexivity|]. exists row. split; [reflexivity | exact C].
Qed.

Lemma day_holds_a_thousand_witness :
  http_status
    (snd (create Basic busy_day_store march_first 0%Z 0 true true clio_body))
  = 500
  /\ exists row,
       missions (fst (create Basic busy_day_store march_first 0%Z 0 false true
                        clio_body))
       = (missions busy_day_store ++ [row])%list
       /\ Mission.mission_code row = "FA-20240301-000".
Proof.
  destruct (day_holds_a_thousand Basic busy_day_store march_first 0%Z 0 true
              clio_body) as (_ & H & _ & _ & _ & R).
  - unfold valid_date. simpl. lia.
  - exact (day_store_upto 1000).
  - intros x Hx. simpl in Hx.
    repeat (destruct Hx as [<-|Hx]; [reflexivity|]). destruct Hx.
  - split; [exact H | exact R].
Defined.

(** ** Requests and the handlers they reach *)

Lemma unreserved_not_slash c : uri_unreserved c = true -> Ascii.eqb "/" c = false.
Proof.
  destruct c as [[] [] [] [] [] [] [] []]; try reflexivity; discriminate.
Qed.

Lemma unreserved_free_of_slash x :
  every_char uri_unreserved x = true -> free_of "/" x = true.
Proof.
  induction x as [|c r IH]; cbn [every_char free_of]; [reflexivity|].
  intros H. apply andb_prop in H as [H1 H2].
  now rewrite (unreserved_not_slash c H1), IH.
Qed.

Lemma split_last c a : free_of c a = true -> a <> "" ->
  drop_last_empty (split c a) = [a].
Proof.
  intros F N. rewrite (split_free c a F). cbn [drop_last_empty].
  apply String.eqb_neq in N. now rewrite N.
Qed.

(** The pieces of a path [/a/b/x] and of a path [/a/b/x/c], for a piece
    [x] without a slash. *)
Lemma segments_3 a b x :
  free_of "/" a = true -> free_of "/" b = true -> free_of "/" x = true ->
  x <> "" ->
  path_segments ("/" ++ a ++ "/" ++ b ++ "/" ++ x) = [a; b; x].
Proof.
  intros Fa Fb Fx N. unfold path_segments.
  change ("/" ++ a ++ "/" ++ b ++ "/" ++ x)
    with ("" ++ String "/" (a ++ String "/" (b ++ String "/" x))).
  rewrite !split_append by (assumption || reflexivity).
  rewrite (split_free "/" x Fx). cbn [drop_last_empty].
  apply String.eqb_neq in N. now rewrite N.
Qed.

Lemma segments_4 a b x c :
  free_of "/" a = true -> free_of "/" b = true -> free_of "/" x = true ->
  free_of "/" c = true -> c <> "" ->
  path_segments ("/" ++ a ++ "/" ++ b ++ "/" ++ x ++ "/" ++ c) = [a; b; x; c].
Proof.
  intros Fa Fb Fx Fc N. unfold path_segments.
  change ("/" ++ a ++ "/" ++ b ++ "/" ++ x ++ "/" ++ c)
    with ("" ++ String "/" (a ++ String "/" (b ++ String "/"
            (x ++ String "/" c)))).
  rewrite !split_append by (assumption || reflexivity).
  rewrite (split_free "/" c Fc). cbn [drop_last_empty].
  apply String.eqb_neq in N. now rewrite N.
Qed.

(** X17: each route with a parameter is reached by the requests written
    for it, and hands the piece of the path over as the parameter: for a
    piece without characters which a URL must escape, the lookup, the
    status, observations, signature and inspection routes of a mission,
    the upload route and the report route each get their request, with
    that piece; and a DELETE request reaches no handler, whatever its
    path. *)
Theorem routes_reached (x : string) :
  every_char uri_unreserved x = true -> x <> "" ->
  dispatch GET ("/api/missions/" ++ x) = Some (GetMission, [("code", x)])
  /\ dispatch PUT ("/api/missions/" ++ x ++ "/status")
     = Some (SetStatus, [("id", x)])
  /\ dispatch PUT ("/api/missions/" ++ x ++ "/observations")
     = Some (SetObservations, [("id", x)])
  /\ dispatch POST ("/api/missions/" ++ x ++ "/signature")
     = Some (SetSignature, [("id", x)])
  /\ dispatch POST ("/api/missions/" ++ x ++ "/inspection")
     = Some (SaveInspection, [("id", x)])
  /\ dispatch POST ("/api/uploads/photos/" ++ x)
     = Some (UploadPhoto, [("missionId", x)])
  /\ dispatch GET ("/api/reports/" ++ x ++ "/pdf")
     = Some (ReportPdf, [("missionId", x)])
  /\ forall path, dispatch DELETE path = None.
Proof.
  intros U N. pose proof (unreserved_free_of_slash x U) as F.
  pose proof (segments_3 "api" "missions" x eq_refl eq_refl F N) as R3.
  pose proof (fun c Fc => segments_4 "api" "missions" x c eq_refl eq_refl F Fc)
    as R4.
  pose proof (segments_4 "api" "uploads" "photos" x eq_refl eq_refl eq_refl F N)
    as RU.
  pose proof (segments_4 "api" "reports" x "pdf" eq_refl eq_refl F eq_refl)
    as RR.
  unfold dispatch.
  change ("/" ++ "api" ++ "/" ++ "missions" ++ "/" ++ x)
    with ("/api/missions/" ++ x) in R3.
  change ("/" ++ "api" ++ "/" ++ "uploads" ++ "/" ++ "photos" ++ "/" ++ x)
    with ("/api/uploads/photos/" ++ x) in RU.
  change ("/" ++ "api" ++ "/" ++ "reports" ++ "/" ++ x ++ "/" ++ "pdf")
    with ("/api/reports/" ++ x ++ "/pdf") in RR.
  rewrite R3, RU, RR by discriminate.
  pose proof (R4 "status" eq_refl) as R1.
  pose proof (R4 "observations" eq_refl) as R2.
  pose proof (R4 "signature" eq_refl) as R5.
  pose proof (R4 "inspection" eq_refl) as R6.
  change ("/" ++ "api" ++ "/" ++ "missions" ++ "/" ++ x ++ "/" ++ "status")
    with ("/api/missions/" ++ x ++ "/status") in R1.
  change ("/" ++ "api" ++ "/" ++ "missions" ++ "/" ++ x ++ "/" ++ "observations")
    with ("/api/missions/" ++ x ++ "/observations") in R2.
  change ("/" ++ "api" ++ "/" ++ "missions" ++ "/" ++ x ++ "/" ++ "signature")
    with ("/api/missions/" ++ x ++ "/signature") in R5.
  change ("/" ++ "api" ++ "/" ++ "missions" ++ "/" ++ x ++ "/" ++ "inspection")
    with ("/api/missions/" ++ x ++ "/inspection") in R6.
  rewrite R1, R2, R5, R6 by discriminate.
  clear R1 R2 R3 R4 R5 R6 RU RR U F.
  destruct x as [|c r]; [now contradiction N|].
  repeat split.
Qed.

Lemma routes_reached_witness :
  dispatch PUT "/api/missions/7/status" = Some (SetStatus, [("id", "7")]).
Proof.
  apply (routes_reached "7"); [reflexivity | discriminate].
Defined.

(** ** The placeholder locator *)

Lemma hex_char_safe d : (d < 16)%N -> uri_unreserved (hex_char d) = true.
Proof.
  intros H.
  assert (A : forallb (fun i => uri_unreserved (hex_char (N.of_nat i)))
                (seq 0 16) = true) by reflexivity.
  rewrite forallb_forall in A. specialize (A (N.to_nat d)).
  rewrite N2Nat.id in A. apply A, in_seq. lia.
Qed.

Lemma hex_char_injective a b :
  (a < 16)%N -> (b < 16)%N -> hex_char a = hex_char b -> a = b.
Proof.
  intros Ha Hb E.
  assert (A : forallb
                (fun i => forallb
                   (fun j => negb (Ascii.eqb (hex_char (N.of_nat i))
                                             (hex_char (N.of_nat j)))
                             || (i =? j)%nat)
                   (seq 0 16))
                (seq 0 16) = true) by reflexivity.
  rewrite forallb_forall in A.
  pose proof (A (N.to_nat a) ltac:(apply in_seq; lia)) as A1.
  rewrite forallb_forall in A1.
  pose proof (A1 (N.to_nat b) ltac:(apply in_seq; lia)) as A2.
  rewrite !N2Nat.id, E, Ascii.eqb_refl in A2.
  cbn [negb orb] in A2. apply Nat.eqb_eq in A2. lia.
Qed.

Lemma N_of_ascii_bound c : (N_of_ascii c < 256)%N.
Proof.
  destruct c as [[] [] [] [] [] [] [] []]; reflexivity.
Qed.

Lemma percent_reserved : uri_unreserved "%" = false.
Proof.
  reflexivity.
Qed.

Lemma encodeURIComponent_safe s :
  every_char url_safe (encodeURIComponent s) = true.
Proof.
  induction s as [|c r IH]; [reflexivity|]. cbn [encodeURIComponent].
  destruct (uri_unreserved c) eqn:U; cbn [every_char].
  - unfold url_safe at 1. now rewrite U, IH.
  - pose proof (N_of_ascii_bound c) as B. rewrite IH. unfold url_safe.
    rewrite !hex_char_safe; [reflexivity | |].
    + apply N.mod_lt. discriminate.
    + apply N.Div0.div_lt_upper_bound. exact B.
Qed.

Lemma encodeURIComponent_injective a : forall b,
  encodeURIComponent a = encodeURIComponent b -> a = b.
Proof.
  induction a as [|c r IH]; intros [|d q]; cbn [encodeURIComponent].
  - reflexivity.
  - destruct (uri_unreserved d); discriminate.
  - destruct (uri_unreserved c); discriminate.
  - destruct (uri_unreserved c) eqn:Uc, (uri_unreserved d) eqn:Ud; intros E.
    + injection E as -> E. now rewrite (IH q E).
    + injection E as -> _. rewrite percent_reserved in Uc. discriminate.
    + injection E as <- _. rewrite percent_reserved in Ud. discriminate.
    + injection E as H1 H2 E. rewrite (IH q E). f_equal.
      pose proof (N_of_ascii_bound c) as Bc.
      pose proof (N_of_ascii_bound d) as Bd.
      apply hex_char_injective in H1;
        [| apply N.Div0.div_lt_upper_bound; exact Bc
         | apply N.Div0.div_lt_upper_bound; exact Bd].
      apply hex_char_injective in H2; [| apply N.mod_lt; discriminate ..].
      rewrite <- (ascii_N_embedding c), <- (ascii_N_embedding d). f_equal.
      rewrite (N.div_mod (N_of_ascii c) 16), (N.div_mod (N_of_ascii d) 16)
        by discriminate.
      now rewrite H1, H2.
Qed.

(** X18: the locator answered for an upload ends in the photo type
    escaped for a URL: after the fixed beginning it holds only letters,
    digits, the marks a URL component may hold and percent signs; and two
    photo types never get the same locator. *)
Theorem mockUrl_safe_and_injective (v : Variant) (a b : string) :
  (exists rest,
     mockUrl v (Some a)
     = ("https://via.placeholder.com/400x300/"
        ++ (match v with Basic => "3b82f6" | Enhanced => "007bff" end)
        ++ "/ffffff?text=") ++ rest
     /\ every_char url_safe rest = true)
  /\ (a <> b -> mockUrl v (Some a) <> mockUrl v (Some b)).
Proof.
  split.
  - exists (encodeURIComponent a). split; [now destruct v|].
    apply encodeURIComponent_safe.
  - unfold mockUrl. intros N E. apply N. apply append_inv_head in E.
    now apply encodeURIComponent_injective.
Qed.

Lemma mockUrl_safe_and_injective_witness :
  mockUrl Basic (Some "front side") <> mockUrl Basic (Some "front%20side").
Proof.
  apply (mockUrl_safe_and_injective Basic "front side" "front%20side").
  discriminate.
Defined.

(** ** Rows are added, never removed *)

Lemma extends_refl {A : Type} (l : list A) : extends l l.
Proof.
  exists []. split; [now rewrite app_nil_r | cbn; lia].
Qed.

Lemma extends_one {A : Type} (l : list A) x : extends l (l ++ [x])%list.
Proof.
  exists [x]. split; [reflexivity | cbn; lia].
Qed.

Lemma fixed_update id f l :
  (forall m, fixed_columns (f m) = fixed_columns m) ->
  map fixed_columns (update_missions id f l) = map fixed_columns l.
Proof.
  intros H. unfold update_missions. rewrite map_map. apply map_ext.
  intros m. destruct (Mission.id m =? id)%Z; [apply H | reflexivity].
Qed.

Lemma keys_upsert_hit {A K : Type} (key : A -> K) (hit : A -> bool) set
    (l : list A) :
  (forall x, key (set x) = key x) ->
  map key (map (fun x => if hit x then set x else x) l) = map key l.
Proof.
  intros H. rewrite map_map. apply map_ext.
  intros x. destruct (hit x); [apply H | reflexivity].
Qed.

Lemma extends_upsert {A K : Type} (key : A -> K) hit set row (l : list A) :
  (forall x, key (set x) = key x) ->
  extends (map key l) (map key (fst (Sql.upsert hit set row l)))
  /\ (List.length (fst (Sql.upsert hit set row l)) <= 1 + List.length l)%nat.
Proof.
  intros H. unfold Sql.upsert. destruct (find hit l); cbn [fst].
  - rewrite (keys_upsert_hit key hit set l H), length_map.
    split; [apply extends_refl | lia].
  - rewrite map_app, length_app. cbn [map List.length].
    split; [apply extends_one | lia].
Qed.

Lemma only_adds_tables s s' :
  missions s' = missions s -> mission_photos s' = mission_photos s ->
  inspections s' = inspections s ->
  (missions_id_seq s <= missions_id_seq s')%Z ->
  (mission_photos_id_seq s <= mission_photos_id_seq s')%Z ->
  (inspections_id_seq s <= inspections_id_seq s')%Z ->
  only_adds s s'.
Proof.
  intros M P I A B C. unfold only_adds. rewrite M, P, I.
  repeat split; try apply extends_refl; lia.
Qed.

Lemma only_adds_refl s : only_adds s s.
Proof.
  apply only_adds_tables; reflexivity || lia.
Qed.

Lemma only_adds_update s id f :
  (forall m, fixed_columns (f m) = fixed_columns m) ->
  only_adds s (with_missions s (update_missions id f (missions s))
                 (missions_id_seq s)).
Proof.
  intros H. unfold only_adds.
  cbn [missions mission_photos inspections missions_id_seq
       mission_photos_id_seq inspections_id_seq with_missions].
  rewrite (fixed_update id f _ H).
  unfold update_missions. rewrite length_map.
  repeat split; try apply extends_refl; lia.
Qed.

Lemma only_adds_upsert_photo s now missionId photoType filename f url :
  only_adds s (fst (upsert_photo s now missionId photoType filename f url)).
Proof.
  unfold upsert_photo. destruct photoType as [t|];
    [|apply only_adds_tables; cbn; reflexivity || lia].
  destruct (negb (mission_exists s missionId));
    [apply only_adds_tables; cbn; reflexivity || lia|].
  match goal with
  | |- context [Sql.upsert ?h ?st ?r ?l] =>
      destruct (extends_upsert photo_identity h st r l (fun _ => eq_refl))
        as [E L];
      destruct (Sql.upsert h st r l) as [rows row]
  end.
  cbn [fst] in *. unfold only_adds.
  cbn [missions mission_photos inspections missions_id_seq
       mission_photos_id_seq inspections_id_seq with_photos].
  repeat split; try apply extends_refl; try exact E; lia.
Qed.

(** X19: a request served by a handler which writes deletes no row and
    gives no row another identity: the missions keep their place and every
    column no update sets, the photos their key, mission and type, the
    inspections their key, mission and creation time; one row at most is
    added in all, after the others; and no sequence goes back. *)
Theorem step_only_adds (s s' : Store) : step s s' -> only_adds s s'.
Proof.
  intros [].
  - unfold create. destruct (existsb _ (required_fields b));
      [apply only_adds_refl|].
    destruct insert_ok; [|apply only_adds_refl]. unfold insert_mission.
    repeat match goal with
      | |- context [match Body.prepareValue ?x with _ => _ end] =>
          destruct (Body.prepareValue x);
            [|apply only_adds_tables; cbn; reflexivity || lia]
      end.
    destruct (existsb _ (mission_codes s));
      [apply only_adds_tables; cbn; reflexivity || lia|].
    unfold only_adds.
    cbn [fst missions mission_photos inspections missions_id_seq
         mission_photos_id_seq inspections_id_seq with_missions].
    rewrite map_app, length_app. cbn [map List.length].
    repeat split; try apply extends_refl; try apply extends_one; lia.
  - unfold setStatus.
    destruct (negb (Body.includes (recognized v) st)); [apply only_adds_refl|].
    destruct st; try apply only_adds_refl.
    destruct query_ok; [|apply only_adds_refl].
    destruct (updated_rows _ _ (missions s)); [apply only_adds_refl|].
    now apply only_adds_update.
  - unfold saveInspection. destruct upsert_ok; [|apply only_adds_refl].
    unfold upsert_inspection.
    destruct (negb (mission_exists s id));
      [apply only_adds_tables; cbn; reflexivity || lia|].
    match goal with
    | |- context [Sql.upsert ?h ?st ?r ?l] =>
        destruct (extends_upsert inspection_identity h st r l (fun _ => eq_refl))
          as [E L];
        destruct (Sql.upsert h st r l) as [rows row]
    end.
    cbn [fst] in E, L.
    assert (O : only_adds s (with_inspections s rows (inspections_id_seq s + 1))).
    { unfold only_adds.
      cbn [missions mission_photos inspections missions_id_seq
           mission_photos_id_seq inspections_id_seq with_inspections].
      repeat split; try apply extends_refl; try exact E; lia. }
    destruct update_ok; [|exact O]. cbn [fst].
    unfold only_adds in *.
    cbn [missions mission_photos inspections missions_id_seq
         mission_photos_id_seq inspections_id_seq with_inspections
         with_missions] in *.
    match goal with
    | |- context [update_missions id ?f ?l] =>
        rewrite (fixed_update id f l (fun _ => eq_refl))
    end.
    unfold update_missions. rewrite length_map. exact O.
  - unfold uploadPhoto. destruct photo as [f|]; [|apply only_adds_refl].
    destruct (negb (existsb _ allowedTypes)); [apply only_adds_refl|].
    destruct (negb check_ok); [apply only_adds_refl|].
    destruct (negb (mission_exists s missionId)) eqn:X; [apply only_adds_refl|].
    destruct upsert_ok; [|apply only_adds_refl].
    unfold upsert_photo. destruct photoType as [t|];
      [|apply only_adds_tables; cbn; reflexivity || lia].
    rewrite X.
    match goal with
    | |- context [Sql.upsert ?h ?st ?r ?l] =>
        destruct (extends_upsert photo_identity h st r l (fun _ => eq_refl))
          as [E L];
        destruct (Sql.upsert h st r l) as [rows row]
    end.
    cbn [fst] in *. unfold only_adds.
    cbn [missions mission_photos inspections missions_id_seq
         mission_photos_id_seq inspections_id_seq with_photos].
    repeat split; try apply extends_refl; try exact E; lia.
  - unfold updateObservations. destruct query_ok; [|apply only_adds_refl].
    destruct (updated_rows _ _ (missions s)); [apply only_adds_refl|].
    now apply only_adds_update.
  - unfold setSignature.
    destruct (negb (Body.truthy sig)); [apply only_adds_refl|].
    destruct query_ok; [|apply only_adds_refl].
    destruct (updated_rows _ _ (missions s)); [apply only_adds_refl|].
    now apply only_adds_update.
  - destruct (uploadPhoto_served_store v s now_ms now up_check up_upsert
                missionId photoType photo) as [->|(pt & fn & f & url & ->)];
      [apply only_adds_refl | apply only_adds_upsert_photo].
Qed.

Lemma step_only_adds_witness :
  only_adds empty_store
    (fst (create Basic empty_store march_first 1%Z 0 true true clio_body)).
Proof.
  apply (step_only_adds empty_store). constructor.
Defined.

(** ** The required columns stay filled *)

Lemma truthy_text x t :
  Body.truthy x = true -> Body.prepareValue x = Some t -> t <> "".
Proof.
  destruct x as [| |b|z|u]; cbn [Body.truthy Body.prepareValue];
    try discriminate.
  - intros -> E. injection E as <-. discriminate.
  - intros _ E. injection E as <-. destruct z as [|p|p]; try discriminate.
    apply N_toString_nonempty.
  - intros T E. injection E as <-. intros ->. discriminate.
Qed.

Lemma filled_update id f l :
  (forall m, mission_filled m -> mission_filled (f m)) ->
  Forall mission_filled l -> Forall mission_filled (update_missions id f l).
Proof.
  intros H F. unfold update_missions.
  induction F as [|m l Pm F IH]; cbn [map]; constructor; auto.
  destruct (Mission.id m =? id)%Z; auto.
Qed.

Lemma filled_step s s' :
  Forall mission_filled (missions s) -> step s s' ->
  Forall mission_filled (missions s').
Proof.
  intros H [].
  - unfold create.
    destruct (existsb _ (required_fields b)) eqn:Req; [exact H|].
    destruct insert_ok; [|exact H]. unfold insert_mission.
    assert (T : forall x, In x (required_fields b) -> Body.truthy x = true).
    { intros x I. destruct (Body.truthy x) eqn:Tx; [reflexivity|].
      assert (existsb (fun x => negb (Body.truthy x)) (required_fields b)
              = true) as Y
        by (apply existsb_exists; exists x; now rewrite Tx).
      congruence. }
    destruct (Body.prepareValue (CreateBody.vehicleBrand b)) eqn:E1;
      [|exact H].
    destruct (Body.prepareValue (CreateBody.vehicleModel b)) eqn:E2;
      [|exact H].
    destruct (Body.prepareValue (CreateBody.pickupLocation b)) eqn:E3;
      [|exact H].
    destruct (Body.prepareValue (CreateBody.deliveryLocation b)) eqn:E4;
      [|exact H].
    destruct (Body.prepareValue (CreateBody.clientName b)) eqn:E5;
      [|exact H].
    destruct (Body.prepareValue (CreateBody.clientEmail b)) eqn:E6;
      [|exact H].
    destruct (existsb _ (mission_codes s)); [exact H|].
    cbn [fst missions with_missions]. apply Forall_app. split; [exact H|].
    constructor; [|constructor]. unfold mission_filled.
    cbn [Mission.vehicle_brand Mission.vehicle_model Mission.pickup_location
         Mission.delivery_location Mission.client_name Mission.client_email
         Mission.urgency].
    unfold required_fields in T. cbn [In] in T.
    repeat split;
      try (eapply truthy_text; [|eassumption]; apply T; tauto).
    unfold Body.or_else.
    destruct (Body.truthy (CreateBody.urgency b)) eqn:U; [|discriminate].
    destruct (truthy_prepared _ U) as [t ->]. discriminate.
  - unfold setStatus.
    destruct (negb (Body.includes (recognized v) st)); [exact H|].
    destruct st; try exact H.
    destruct query_ok; [|exact H].
    destruct (updated_rows _ _ (missions s)); [exact H|].
    cbn [fst missions with_missions]. apply filled_update; [|exact H].
    intros m Fm. exact Fm.
  - unfold saveInspection. destruct upsert_ok; [|exact H].
    assert (M : missions (fst (upsert_inspection s now id b)) = missions s).
    { unfold upsert_inspection. destruct (negb (mission_exists s id));
        [reflexivity|]. now destruct (Sql.upsert _ _ _ (inspections s)). }
    destruct (upsert_inspection s now id b) as [s1 [row|]]; cbn [fst] in *;
      [|now rewrite M].
    destruct update_ok; cbn [fst]; [|now rewrite M].
    cbn [missions with_missions]. rewrite M. apply filled_update; [|exact H].
    intros m Fm. exact Fm.
  - unfold uploadPhoto. destruct photo as [f|]; [|exact H].
    destruct (negb (existsb _ allowedTypes)); [exact H|].
    destruct check_ok; cbn [negb]; [|exact H].
    destruct (negb (mission_exists s missionId)) eqn:E; [exact H|].
    destruct upsert_ok; [|exact H].
    unfold upsert_photo. destruct photoType as [t|]; [|exact H].
    rewrite E. now destruct (Sql.upsert _ _ _ (mission_photos s)).
  - unfold updateObservations. destruct query_ok; [|exact H].
    destruct (updated_rows _ _ (missions s)); [exact H|].
    cbn [fst missions with_missions]. apply filled_update; [|exact H].
    intros m Fm. exact Fm.
  - unfold setSignature. destruct (negb (Body.truthy sig)); [exact H|].
    destruct query_ok; [|exact H].
    destruct (updated_rows _ _ (missions s)); [exact H|].
    cbn [fst missions with_missions]. apply filled_update; [|exact H].
    intros m Fm. exact Fm.
  - now rewrite uploadPhoto_served_missions.
Qed.

(** X20: what the creation checks stays true of what is stored.  In every
    store the handlers can reach, each mission has a brand, a model, a
    pickup and a delivery location, a client name and a client email which
    are not empty, and an urgency which is not null. *)
Theorem reachable_missions_filled (s : Store) (m : Mission.t) :
  reachable s -> In m (missions s) -> mission_filled m.
Proof.
  intros R. revert m. rewrite <- Forall_forall.
  induction R as [|s s' _ IH St]; [constructor|].
  now apply (filled_step s s').
Qed.

Lemma reachable_missions_filled_witness : mission_filled (day_mission 1).
Proof.
  apply (reachable_missions_filled (created_on_march_first 1)).
  - apply created_on_march_first_reachable.
  - now left.
Defined.

(** ** Grouped counts *)

Section GroupByFacts.

Context {K : Type}.
Variable eqb : K -> K -> bool.
Hypothesis eqb_eq : forall a b, eqb a b = true <-> a = b.

Lemma eqb_same a : eqb a a = true.
Proof.
  now apply eqb_eq.
Qed.

Lemma distinct_in l k : In k (Sql.distinct eqb l) <-> In k l.
Proof.
  induction l as [|x l IH]; cbn [Sql.distinct In]; [reflexivity|].
  rewrite filter_In, IH. split.
  - intros [E|[I _]]; auto.
  - intros [E|I]; [now left|].
    destruct (eqb x k) eqn:Q; [left; now apply eqb_eq|].
    right. now split.
Qed.

Lemma distinct_nodup l : NoDup (Sql.distinct eqb l).
Proof.
  induction l as [|x l IH]; cbn [Sql.distinct]; constructor.
  - rewrite filter_In, eqb_same. now intros [_ H].
  - now apply NoDup_filter.
Qed.

Lemma count_where_in k l : In k l -> (1 <= Sql.count_where (eqb k) l)%nat.
Proof.
  intros I. unfold Sql.count_where.
  assert (F : In k (filter (eqb k) l))
    by (apply filter_In; split; [exact I | apply eqb_same]).
  destruct (filter (eqb k) l); [destruct F | cbn; lia].
Qed.

Lemma count_where_out k l : ~ In k l -> Sql.count_where (eqb k) l = 0%nat.
Proof.
  intros N. unfold Sql.count_where.
  destruct (filter (eqb k) l) as [|x r] eqn:E; [reflexivity|].
  assert (I : In x (filter (eqb k) l)) by (rewrite E; now left).
  apply filter_In in I as [I Q]. apply eqb_eq in Q. now subst x.
Qed.

(** One row per key which occurs, with the number of its occurrences. *)
Lemma group_count_in l k n :
  In (k, n) (Sql.group_count eqb l)
  <-> In k l /\ n = Sql.count_where (eqb k) l.
Proof.
  unfold Sql.group_count. rewrite in_map_iff. split.
  - intros (x & E & I). injection E as -> <-.
    split; [now apply distinct_in | reflexivity].
  - intros (I & ->). exists k. split; [reflexivity | now apply distinct_in].
Qed.

Lemma group_count_keys l :
  map fst (Sql.group_count eqb l) = Sql.distinct eqb l.
Proof.
  unfold Sql.group_count. rewrite map_map. cbn [fst]. apply map_id.
Qed.

Lemma sum_split (g : K -> nat) k l :
  list_sum (map g l)
  = (list_sum (map g (filter (fun x => negb (eqb k x)) l))
     + list_sum (map g (filter (eqb k) l)))%nat.
Proof.
  unfold list_sum.
  induction l as [|x l IH]; [reflexivity|]. cbn [map filter].
  destruct (eqb k x); cbn [negb map fold_right]; lia.
Qed.

Lemma sum_of_key (g : K -> nat) k l :
  NoDup l -> (~ In k l -> g k = 0%nat) ->
  list_sum (map g (filter (eqb k) l)) = g k.
Proof.
  intros N Z. unfold list_sum.
  induction N as [|x l Nx N IH]; cbn [filter map fold_right].
  - symmetry. apply Z. intros [].
  - destruct (eqb k x) eqn:Q.
    + apply eqb_eq in Q. subst x. cbn [map fold_right].
      assert (E : filter (eqb k) l = []).
      { destruct (filter (eqb k) l) as [|y r] eqn:E; [reflexivity|].
        assert (I : In y (filter (eqb k) l)) by (rewrite E; now left).
        apply filter_In in I as [I Qy]. apply eqb_eq in Qy. now subst y. }
      rewrite E. cbn. lia.
    + apply IH. intros M. apply Z. intros [E|I]; [|now apply M].
      subst x. now rewrite eqb_same in Q.
Qed.

(** The counts of the groups add up to the number of rows. *)
Lemma group_count_sum l :
  list_sum (map snd (Sql.group_count eqb l)) = List.length l.
Proof.
  unfold Sql.group_count. rewrite map_map. cbn [snd].
  induction l as [|k r IH]; [reflexivity|].
  cbn [Sql.distinct map List.length].
  change (list_sum (?a :: ?b)) with (a + list_sum b)%nat.
  assert (Hd : Sql.count_where (eqb k) (k :: r)
               = S (Sql.count_where (eqb k) r)).
  { unfold Sql.count_where. cbn [filter]. now rewrite eqb_same. }
  rewrite Hd.
  rewrite (map_ext_in _ (fun x => Sql.count_where (eqb x) r)).
  - rewrite (sum_split (fun x => Sql.count_where (eqb x) r) k) in IH.
    rewrite sum_of_key in IH.
    + lia.
    + apply distinct_nodup.
    + intros M. apply count_where_out. intros I. apply M.
      now apply distinct_in.
  - intros x I. apply filter_In in I as [_ Q].
    unfold Sql.count_where. cbn [filter].
    destruct (eqb x k) eqn:Q'; [|reflexivity].
    apply eqb_eq in Q'. subst x. now rewrite eqb_same in Q.
Qed.

End GroupByFacts.

(** ** The advanced statistics *)

Lemma same_vehicle_eq a b : same_vehicle a b = true <-> a = b.
Proof.
  unfold same_vehicle. rewrite andb_true_iff, !String.eqb_eq.
  destruct a, b; cbn [fst snd].
  split; [intros [-> ->]; reflexivity | intros E; injection E as -> ->; now split].
Qed.

Lemma count_where_map {A B : Type} (f : A -> B) (p : B -> bool) l :
  Sql.count_where p (map f l) = Sql.count_where (fun x => p (f x)) l.
Proof.
  unfold Sql.count_where. induction l as [|x l IH]; [reflexivity|].
  cbn [map filter]. destruct (p (f x)); cbn [List.length]; now rewrite IH.
Qed.

Lemma count_where_filter {A : Type} (p q : A -> bool) l :
  Sql.count_where p (filter q l) = Sql.count_where (fun x => q x && p x) l.
Proof.
  unfold Sql.count_where. induction l as [|x l IH]; [reflexivity|].
  cbn [filter]. destruct (q x); cbn [filter andb]; [|exact IH].
  destruct (p x); cbn [List.length]; now rewrite IH.
Qed.

Lemma count_where_ext {A : Type} (p q : A -> bool) l :
  (forall x, p x = q x) -> Sql.count_where p l = Sql.count_where q l.
Proof.
  intros H. unfold Sql.count_where. now rewrite (filter_ext _ _ H).
Qed.

Lemma firstn_subset {A : Type} n (l : list A) x :
  In x (firstn n l) -> In x l.
Proof.
  intros I. rewrite <- (firstn_skipn n l). apply in_or_app. now left.
Qed.

Lemma by_count_total (a b : string * nat) :
  (snd b <=? snd a)%nat = true \/ (snd a <=? snd b)%nat = true.
Proof.
  rewrite !Nat.leb_le. lia.
Qed.

Lemma by_count_trans (a b c : string * nat) :
  (snd b <=? snd a)%nat = true -> (snd c <=? snd b)%nat = true ->
  (snd c <=? snd a)%nat = true.
Proof.
  rewrite !Nat.leb_le. lia.
Qed.

Lemma processing_times_none l :
  (forall m, In m l -> Mission.completed_at m = None) ->
  processing_times l = [].
Proof.
  induction l as [|m l IH]; intros Open; [reflexivity|].
  cbn [processing_times]. rewrite (Open m (or_introl eq_refl)).
  apply IH. intros x Hx. apply Open. now right.
Qed.

(** X21: the advanced statistics list ten vehicles at most, by falling
    count; each is a brand and a model met in the store, written with a
    space between them, with the number of missions which have that brand
    and that model; a vehicle of the store which is left out is met no
    more often than any of the ten listed; the average is 0 when no
    mission has a completion time; and the answer is 500 as soon as one of
    the four queries fails. *)
Theorem advancedStats_vehicles
    (date_trunc_month minus_12_months : Timestamp -> Timestamp)
    (s : Store) (now : Timestamp) :
  (exists monthly top avg,
     advancedStats date_trunc_month minus_12_months s now true true true true
     = ok (AdvancedStats (count_by_status s) monthly top avg) None
     /\ (List.length top <= 10)%nat
     /\ StronglySorted (fun a b => (snd b <= snd a)%nat) top
     /\ (forall name n, In (name, n) top ->
           exists brand model,
             name = brand ++ " " ++ model
             /\ n = vehicles_like s brand model /\ (1 <= n)%nat)
     /\ (forall m, In m (missions s) ->
           let n := vehicles_like s (Mission.vehicle_brand m)
                      (Mission.vehicle_model m) in
           In (Mission.vehicle_brand m ++ " " ++ Mission.vehicle_model m, n) top
           \/ (List.length top = 10%nat
               /\ forall r, In r top -> (n <= snd r)%nat))
     /\ ((forall m, In m (missions s) -> Mission.completed_at m = None) ->
         avg = 0%Q))
  /\ (forall basic_ok monthly_ok top_ok avg_ok,
        basic_ok && monthly_ok && top_ok && avg_ok = false ->
        http_status
          (advancedStats date_trunc_month minus_12_months s now
             basic_ok monthly_ok top_ok avg_ok) = 500).
Proof.
  split; [|intros b1 b2 b3 b4 E; unfold advancedStats; now rewrite E].
  do 3 eexists. split; [reflexivity|].
  set (keys := map (fun m => (Mission.vehicle_brand m, Mission.vehicle_model m))
                   (missions s)).
  set (named := map (fun g : string * string * nat =>
                       (fst (fst g) ++ " " ++ snd (fst g), snd g))
                    (Sql.group_count same_vehicle keys)).
  assert (Count : forall brand model,
            Sql.count_where (same_vehicle (brand, model)) keys
            = vehicles_like s brand model).
  { intros brand model. unfold keys, vehicles_like. rewrite count_where_map.
    apply count_where_ext. intros m. unfold same_vehicle. cbn [fst snd].
    now rewrite (String.eqb_sym brand), (String.eqb_sym model). }
  assert (Sorted : StronglySorted (fun a b : string * nat => (snd b <= snd a)%nat)
                     (Sql.order_by (fun a b => (snd b <=? snd a)%nat) named)).
  { apply sorted_impl
      with (R := fun a b : string * nat => (snd b <=? snd a)%nat = true).
    - intros a b H. now apply Nat.leb_le.
    - apply order_by_sorted; [apply by_count_total|].
      intros a b c. apply by_count_trans. }
  assert (Named : forall name n, In (name, n) named <->
            exists brand model,
              name = brand ++ " " ++ model /\ In (brand, model) keys
              /\ n = vehicles_like s brand model).
  { intros name n. unfold named. rewrite in_map_iff. split.
    - intros ([[brand model] c] & E & I). cbn [fst snd] in E.
      injection E as <- <-.
      apply (group_count_in same_vehicle same_vehicle_eq) in I as [I ->].
      exists brand, model. now rewrite Count.
    - intros (brand & model & -> & I & ->).
      exists (brand, model, vehicles_like s brand model). split; [reflexivity|].
      apply (group_count_in same_vehicle same_vehicle_eq).
      now rewrite Count. }
  unfold top_vehicles. fold keys. fold named.
  split; [apply firstn_length_le|].
  split; [now apply sorted_firstn|].
  split; [|split].
  - intros name n I. apply firstn_subset in I.
    apply (Permutation_in _ (order_by_perm _ named)) in I.
    apply Named in I as (brand & model & -> & I & ->).
    exists brand, model. split; [reflexivity|]. split; [reflexivity|].
    rewrite <- Count. now apply (count_where_in same_vehicle same_vehicle_eq).
  - intros m I. cbv zeta.
    set (row := (Mission.vehicle_brand m ++ " " ++ Mission.vehicle_model m,
                 vehicles_like s (Mission.vehicle_brand m)
                   (Mission.vehicle_model m))).
    assert (In row (Sql.order_by (fun a b => (snd b <=? snd a)%nat) named))
      as Irow.
    { apply (Permutation_in _ (Permutation_sym (order_by_perm _ named))).
      apply Named. exists (Mission.vehicle_brand m), (Mission.vehicle_model m).
      split; [reflexivity|]. split; [|reflexivity].
      unfold keys. apply in_map_iff. exists m. now split. }
    destruct (firstn_keeps_first _ 10 _ row Sorted Irow) as [H|[L H]];
      [now left | right]. split; [exact L|]. intros r Hr. exact (H r Hr).
  - intros Open. unfold avg_hours.
    now rewrite (processing_times_none _ Open).
Qed.

Lemma advancedStats_vehicles_witness :
  http_status
    (advancedStats (fun t => t) (fun t => t) renault_store 0%Z true false true
       true) = 500.
Proof.
  apply (advancedStats_vehicles (fun t => t) (fun t => t) renault_store 0%Z).
  reflexivity.
Defined.

Lemma by_month_total (a b : Timestamp * nat) :
  (fst a <=? fst b)%Z = true \/ (fst b <=? fst a)%Z = true.
Proof.
  rewrite !Z.leb_le. lia.
Qed.

Lemma by_month_trans (a b c : Timestamp * nat) :
  (fst a <=? fst b)%Z = true -> (fst b <=? fst c)%Z = true ->
  (fst a <=? fst c)%Z = true.
Proof.
  rewrite !Z.leb_le. lia.
Qed.

Lemma sorted_strict {A : Type} (key : A -> Z) l :
  NoDup (map key l) ->
  StronglySorted (fun a b => (key a <= key b)%Z) l ->
  StronglySorted (fun a b => (key a < key b)%Z) l.
Proof.
  intros N S. induction S as [|x l S IH F]; [constructor|].
  cbn [map] in N. inversion N as [|? ? Nx Nl]; subst.
  constructor; [now apply IH|].
  rewrite Forall_forall in *. intros y Hy.
  specialize (F y Hy). cbv beta in F.
  assert (key x <> key y); [|lia].
  intros E. apply Nx. rewrite E. now apply in_map.
Qed.

Lemma list_sum_perm l l' : Permutation l l' -> list_sum l = list_sum l'.
Proof.
  unfold list_sum.
  induction 1 as [|x l l' _ IH|x y l|l l' l'' _ IH1 _ IH2];
    cbn [fold_right]; lia.
Qed.

(** X22: the monthly rows of the advanced statistics come by month, each
    month once and the earlier first; the count of a month is the number
    of missions created within the last twelve months whose creation time
    falls in it, one at least; and the counts add up to the number of
    missions created within the last twelve months. *)
Theorem advancedStats_monthly
    (date_trunc_month minus_12_months : Timestamp -> Timestamp)
    (s : Store) (now : Timestamp) :
  let monthly := monthly_counts date_trunc_month minus_12_months s now in
  let from := minus_12_months now in
  StronglySorted (fun a b => (fst a < fst b)%Z) monthly
  /\ (forall mo n, In (mo, n) monthly ->
        n = created_in date_trunc_month from s mo /\ (1 <= n)%nat)
  /\ (forall m, In m (missions s) -> (from <= Mission.created_at m)%Z ->
        In (date_trunc_month (Mission.created_at m),
            created_in date_trunc_month from s
              (date_trunc_month (Mission.created_at m))) monthly)
  /\ list_sum (map snd monthly)
     = Sql.count_where (fun m => (from <=? Mission.created_at m)%Z)
         (missions s).
Proof.
  cbv zeta. unfold monthly_counts.
  set (recent := filter (fun m => (minus_12_months now <=? Mission.created_at m)%Z)
                   (missions s)).
  set (months := map (fun m => date_trunc_month (Mission.created_at m)) recent).
  set (rows := Sql.group_count Z.eqb months).
  pose proof (order_by_perm (fun a b : Timestamp * nat => (fst a <=? fst b)%Z)
                rows) as P.
  assert (Count : forall mo,
            Sql.count_where (Z.eqb mo) months
            = created_in date_trunc_month (minus_12_months now) s mo).
  { intros mo. unfold months, recent, created_in.
    rewrite count_where_map, count_where_filter.
    apply count_where_ext. intros m. now rewrite (Z.eqb_sym mo). }
  split; [|split; [|split]].
  - apply sorted_strict.
    + apply (Permutation_NoDup (l := map fst rows)).
      * apply Permutation_sym, Permutation_map, P.
      * unfold rows. rewrite group_count_keys. apply distinct_nodup.
        apply Z.eqb_eq.
    + apply sorted_impl
        with (R := fun a b : Timestamp * nat => (fst a <=? fst b)%Z = true).
      * intros a b H. now apply Z.leb_le.
      * apply order_by_sorted; [apply by_month_total|].
        intros a b c. apply by_month_trans.
  - intros mo n I. apply (Permutation_in _ P) in I.
    apply (group_count_in Z.eqb Z.eqb_eq) in I as [I ->].
    rewrite <- Count. split; [reflexivity|].
    now apply (count_where_in Z.eqb Z.eqb_eq).
  - intros m I L. apply (Permutation_in _ (Permutation_sym P)).
    apply (group_count_in Z.eqb Z.eqb_eq). rewrite Count.
    split; [|reflexivity]. unfold months. apply in_map_iff. exists m.
    split; [reflexivity|]. apply filter_In. split; [exact I|].
    now apply Z.leb_le.
  - erewrite list_sum_perm; [|apply Permutation_map, order_by_perm].
    unfold rows. rewrite (group_count_sum Z.eqb Z.eqb_eq).
    unfold months. now rewrite length_map.
Qed.

Lemma advancedStats_monthly_witness :
  In (10%Z, 1%nat) (monthly_counts (fun t => t) (fun t => 0%Z) renault_store 50%Z).
Proof.
  destruct (advancedStats_monthly (fun t => t) (fun t => 0%Z) renault_store
              50%Z) as (_ & _ & H & _).
  apply (H renault).
  - now left.
  - discriminate.
Defined.

(** ** The routes of the two servers *)

Ltac split_tests :=
  repeat match goal with
    | |- context [if ?a =? ?b then _ else _] =>
        let E := fresh "E" in
        destruct (a =? b) eqn:E;
        [apply String.eqb_eq in E | apply String.eqb_neq in E]
    end.

Lemma basic_route_kept m path h params :
  first_match basic_route_table m path = Some (h, params) ->
  first_match route_table m path = Some (h, params).
Proof.
  unfold basic_route_table, route_table.
  destruct m;
    destruct path as [|a [|b [|c [|d [|e r]]]]];
    cbn [first_match method_eqb match_path option_map];
    try congruence;
    split_tests; cbn [option_map]; try congruence;
    exfalso;
    match goal with
    | H1 : lower ?x = lower ?y, H2 : lower ?z = lower ?y |- _ =>
        assert (X : lower x = lower z) by congruence;
        vm_compute in X; discriminate X
    end.
Qed.

Lemma enhanced_route_new m path h params :
  first_match basic_route_table m path = None ->
  first_match route_table m path = Some (h, params) ->
  In h [ListMissions; SaveInspection; AdvancedStatistics; Root].
Proof.
  unfold basic_route_table, route_table.
  destruct m;
    destruct path as [|a [|b [|c [|d [|e r]]]]];
    cbn [first_match method_eqb match_path option_map];
    try congruence;
    split_tests; cbn [option_map]; try congruence;
    intros _ Q; injection Q as <- _; cbn [In];
    try tauto;
    try (exfalso;
        match goal with
        | H1 : lower ?x = lower ?y, H2 : lower ?z = lower ?y |- _ =>
            assert (X : lower x = lower z) by congruence;
            vm_compute in X; discriminate X
        end);
    exfalso;
    match goal with
    | H1 : ?c = "", H2 : lower _ = lower ?c |- _ =>
        rewrite H1 in H2; vm_compute in H2; discriminate H2
    end.
Qed.

(** X23: the enhanced server serves what the basic server serves.  A
    request which reaches a handler of the basic server reaches the same
    handler of the enhanced server, with the same parameters; and a
    request which the enhanced server alone routes reaches the list of
    missions, the inspection, the advanced statistics or the root. *)
Theorem enhanced_serves_basic_routes (m : Method) (path : string)
    (h : Handler) (params : list (string * string)) :
  (basic_dispatch m path = Some (h, params) ->
   dispatch m path = Some (h, params))
  /\ (basic_dispatch m path = None ->
      dispatch m path = Some (h, params) ->
      In h [ListMissions; SaveInspection; AdvancedStatistics; Root]).
Proof.
  unfold basic_dispatch, dispatch. split.
  - apply basic_route_kept.
  - apply enhanced_route_new.
Qed.

Lemma enhanced_serves_basic_routes_witness :
  dispatch PUT "/api/missions/7/status" = Some (SetStatus, [("id", "7")]).
Proof.
  apply (enhanced_serves_basic_routes PUT "/api/missions/7/status").
  reflexivity.
Defined.

(** ** A code names one day and one sequence *)

Lemma append_inv_length (a a' b b' : string) :
  String.length a = String.length a' -> a ++ b = a' ++ b' -> a = a' /\ b = b'.
Proof.
  revert a'. induction a as [|c a IH]; intros [|c' a'] L E;
    try discriminate L.
  - now split.
  - cbn [append] in E. injection E as -> E. injection L as L.
    destruct (IH a' L E) as [-> ->]. now split.
Qed.

Lemma padded_injective k a b :
  padStart k "0" (N_toString a) = padStart k "0" (N_toString b) -> a = b.
Proof.
  intros E. unfold padStart in E.
  rewrite <- (decimal_value_padded (k - String.length (N_toString a)) a).
  rewrite E. apply decimal_value_padded.
Qed.

Lemma date_stamp_injective d1 d2 :
  valid_date d1 -> valid_date d2 -> date_stamp d1 = date_stamp d2 -> d1 = d2.
Proof.
  intros V1 V2 E.
  destruct (date_stamp_valid d1 V1) as (S1 & _ & _).
  destruct (date_stamp_valid d2 V2) as (S2 & _ & _).
  rewrite S1, S2 in E. clear S1 S2.
  destruct V1 as (Y1 & M1 & D1), V2 as (Y2 & M2 & D2).
  assert (L4 : forall n, (n <= 9999)%N ->
            String.length (padStart 4 "0" (N_toString n)) = 4%nat).
  { intros n B. apply length_padStart, (N_toString_length 3). simpl. lia. }
  assert (L2 : forall n, (n <= 31)%N ->
            String.length (padStart 2 "0" (N_toString n)) = 2%nat).
  { intros n B. apply length_padStart, (N_toString_length 1). simpl. lia. }
  apply append_inv_length in E as [Ey E];
    [|rewrite !L4; [reflexivity | lia | lia]].
  apply append_inv_length in E as [Em Ed];
    [|rewrite !L2; [reflexivity | lia | lia]].
  apply padded_injective in Ey, Em, Ed.
  destruct d1 as [y1 m1 dd1], d2 as [y2 m2 dd2]. cbn [year month day] in *.
  f_equal; [lia | assumption | assumption].
Qed.

(** X24: a code tells its day and its sequence.  The code the generator
    writes for a date and a sequence splits at its dashes into FA, the
    eight-digit stamp of the date and the padded sequence, whose reading
    by [parseInt] is the sequence; and the codes of two dates, or of two
    sequences, are never the same. *)
Theorem code_tells_day_and_sequence (d1 d2 : Date) (n1 n2 : N) :
  valid_date d1 -> valid_date d2 ->
  split "-" (code_of (date_stamp d1) n1)
  = ["FA"; date_stamp d1; padStart 3 "0" (N_toString n1)]
  /\ parseInt_opt (nth_error (split "-" (code_of (date_stamp d1) n1)) 2)
     = Int (Z.of_N n1)
  /\ (code_of (date_stamp d1) n1 = code_of (date_stamp d2) n2 ->
      d1 = d2 /\ n1 = n2).
Proof.
  intros V1 V2.
  assert (S : forall d n,
            split "-" (code_of (date_stamp d) n)
            = ["FA"; date_stamp d; padStart 3 "0" (N_toString n)]).
  { intros d n. unfold code_of. apply split_code.
    - apply date_stamp_free_of_dash.
    - apply digits_free_of; [reflexivity|].
      apply all_digits_padStart, N_toString_digits. }
  split; [apply S|]. split.
  - rewrite S. cbn [nth_error parseInt_opt]. apply parseInt_padded.
  - intros E. pose proof (f_equal (split "-") E) as E'.
    rewrite !S in E'. injection E' as Es _.
    apply date_stamp_injective in Es; [|assumption ..]. subst d2.
    split; [reflexivity|]. now apply (code_of_injective (date_stamp d1)).
Qed.

Lemma code_tells_day_and_sequence_witness :
  parseInt_opt (nth_error (split "-" (code_of (date_stamp march_first) 42)) 2)
  = Int 42.
Proof.
  apply (code_tells_day_and_sequence march_first march_first 42 42);
    unfold valid_date; simpl; lia.
Defined.

(** ** Times which are set stay set *)

Lemma find_app_some {A : Type} (p : A -> bool) l r x :
  find p l = Some x -> find p (l ++ r)%list = Some x.
Proof.
  induction l as [|y l IH]; cbn [find app]; [discriminate|].
  destruct (p y); [trivial | exact IH].
Qed.

Lemma keeps_times_update s id f j m :
  keeps_times f ->
  find_mission s j = Some m ->
  exists m',
    find (fun x => (Mission.id x =? j)%Z) (update_missions id f (missions s))
    = Some m'
    /\ fixed_columns m' = fixed_columns m
    /\ (Mission.started_at m <> None -> Mission.started_at m' <> None)
    /\ (Mission.completed_at m <> None -> Mission.completed_at m' <> None)
    /\ (Mission.signature_timestamp m <> None ->
        Mission.signature_timestamp m' <> None).
Proof.
  intros K F. unfold find_mission in F.
  destruct (Z.eq_dec j id) as [->|N].
  - rewrite find_update_same by (intros x; apply K). rewrite F.
    exists (f m). split; [reflexivity|]. apply K.
  - rewrite find_update_other by (try (intros x; apply K); exact N).
    exists m. now repeat split.
Qed.

Lemma keeps_times_apply_status v now st : keeps_times (apply_status v now st).
Proof.
  intros m. split; [reflexivity|]. split; [reflexivity|].
  cbn [apply_status set_columns Mission.started_at Mission.completed_at
       Mission.signature_timestamp].
  split; [|split; [|trivial]].
  - destruct (st =? "in_progress"); [discriminate | trivial].
  - destruct (st =? "in_progress"); [trivial|].
    destruct (st =? "completed"); [discriminate | trivial].
Qed.

Lemma keeps_times_sync now obs sig : keeps_times (sync_mission now obs sig).
Proof.
  intros m. now repeat split.
Qed.

Lemma keeps_times_observations v now obs :
  keeps_times (write_observations v now obs).
Proof.
  intros m. now repeat split.
Qed.

Lemma keeps_times_signature v now sig : keeps_times (write_signature v now sig).
Proof.
  intros m. split; [reflexivity|]. split; [reflexivity|].
  cbn [write_signature set_columns Mission.started_at Mission.completed_at
       Mission.signature_timestamp].
  split; [trivial|]. split; [trivial | discriminate].
Qed.

(** X25: a request leaves every mission in the store, under its key and
    with the columns no update sets, and clears none of its times: a start
    time, a completion time or a signature time which is set stays set,
    whatever status the mission is given next. *)
Theorem step_keeps_times (s s' : Store) (id : Z) (m : Mission.t) :
  step s s' -> find_mission s id = Some m ->
  exists m',
    find_mission s' id = Some m'
    /\ fixed_columns m' = fixed_columns m
    /\ (Mission.started_at m <> None -> Mission.started_at m' <> None)
    /\ (Mission.completed_at m <> None -> Mission.completed_at m' <> None)
    /\ (Mission.signature_timestamp m <> None ->
        Mission.signature_timestamp m' <> None).
Proof.
  intros St F.
  assert (Same : forall t, missions t = missions s ->
            exists m',
              find_mission t id = Some m'
              /\ fixed_columns m' = fixed_columns m
              /\ (Mission.started_at m <> None -> Mission.started_at m' <> None)
              /\ (Mission.completed_at m <> None ->
                  Mission.completed_at m' <> None)
              /\ (Mission.signature_timestamp m <> None ->
                  Mission.signature_timestamp m' <> None)).
  { intros t E. exists m. unfold find_mission in *. rewrite E.
    now repeat split. }
  destruct St.
  - unfold create. destruct (existsb _ (required_fields b));
      [now apply Same|].
    destruct insert_ok; [|now apply Same]. unfold insert_mission.
    repeat match goal with
      | |- context [match Body.prepareValue ?x with _ => _ end] =>
          destruct (Body.prepareValue x); [|now apply Same]
      end.
    destruct (existsb _ (mission_codes s)); [now apply Same|].
    exists m. unfold find_mission in *. cbn [fst missions with_missions].
    rewrite (find_app_some _ _ _ _ F). now repeat split.
  - unfold setStatus.
    destruct (negb (Body.includes (recognized v) st)); [now apply Same|].
    destruct st; try now apply Same.
    destruct query_ok; [|now apply Same].
    destruct (updated_rows _ _ (missions s)); [now apply Same|].
    apply keeps_times_update; [apply keeps_times_apply_status | exact F].
  - unfold saveInspection. destruct upsert_ok; [|now apply Same].
    assert (M : missions (fst (upsert_inspection s now id0 b)) = missions s).
    { unfold upsert_inspection. destruct (negb (mission_exists s id0));
        [reflexivity|]. now destruct (Sql.upsert _ _ _ (inspections s)). }
    destruct (upsert_inspection s now id0 b) as [s1 [row|]]; cbn [fst] in *;
      [|now apply Same].
    destruct update_ok; cbn [fst]; [|now apply Same].
    unfold find_mission at 1. cbn [missions with_missions]. rewrite M.
    apply keeps_times_update; [apply keeps_times_sync | exact F].
  - apply Same. unfold uploadPhoto. destruct photo as [f|]; [|reflexivity].
    destruct (negb (existsb _ allowedTypes)); [reflexivity|].
    destruct check_ok; cbn [negb]; [|reflexivity].
    destruct (negb (mission_exists s missionId)) eqn:E; [reflexivity|].
    destruct upsert_ok; [|reflexivity].
    unfold upsert_photo. destruct photoType as [t|]; [|reflexivity].
    rewrite E. now destruct (Sql.upsert _ _ _ (mission_photos s)).
  - unfold updateObservations. destruct query_ok; [|now apply Same].
    destruct (updated_rows _ _ (missions s)); [now apply Same|].
    apply keeps_times_update; [apply keeps_times_observations | exact F].
  - unfold setSignature. destruct (negb (Body.truthy sig)); [now apply Same|].
    destruct query_ok; [|now apply Same].
    destruct (updated_rows _ _ (missions s)); [now apply Same|].
    apply keeps_times_update; [apply keeps_times_signature | exact F].
  - apply Same, uploadPhoto_served_missions.
Qed.

Lemma step_keeps_times_witness :
  exists m',
    find_mission
      (fst (setStatus Enhanced renault_store 50%Z true 1 (Body.Str "pending")))
      1 = Some m'
    /\ (Mission.completed_at renault <> None -> Mission.completed_at m' <> None).
Proof.
  destruct (step_keeps_times renault_store
              (fst (setStatus Enhanced renault_store 50%Z true 1
                      (Body.Str "pending"))) 1 renault)
    as (m' & F & _ & _ & C & _).
  - constructor.
  - reflexivity.
  - exists m'. split; [exact F | exact C].
Defined.
